(** * The autonomous agent loop of Bubble AI, embedded in Rocq

    Source: [src/agents/autonomous/handler.ts].

    The handler is asynchronous TypeScript that talks to a dozen
    collaborators (semantic router, memory, research service, the Gemini SDK,
    the OpenRouter HTTP endpoint, ...).  The embedding is shallow:

    - JavaScript strings are [string]s (one [ascii] per code unit, so the
      model covers the Latin-1 range of code units);
    - thrown values are records [JsError];
    - the control flow is written in a small state-and-exception monad [M]
      whose state [World] holds the loop's mutable locals, the chronological
      trace of observable effects, and the count of collaborator calls;
    - every collaborator that lives outside [handler.ts] is a field of the
      record [Env]: its answer may depend on the arguments and on the index
      of the call, and it may be a thrown error. *)

From Stdlib Require Import ZArith List String Ascii Bool Lia.
From Stdlib Require Import DecimalString.
Import ListNotations.

Set Warnings "-register-all".

Local Open Scope list_scope.
Local Open Scope string_scope.

(* ===================================================================== *)
(** * Part I. Definitions *)
(* ===================================================================== *)

(** ** JavaScript string primitives *)

Module JsString.

(** [s.startsWith(p)] *)
Definition startsWith (p s : string) : bool := String.prefix p s.

(** [s.includes(p)]: [p] occurs somewhere in [s]. *)
Fixpoint includes (p s : string) : bool :=
  if String.prefix p s then true
  else match s with
       | EmptyString => false
       | String _ s' => includes p s'
       end.

(** [s.substring(n)] for [n] within bounds: the string without its first
    [n] code units. *)
Fixpoint drop (n : nat) (s : string) : string :=
  match n, s with
  | O, _ => s
  | S _, EmptyString => EmptyString
  | S n', String _ s' => drop n' s'
  end.

(** White space and line terminators of ECMAScript that fit in one Latin-1
    code unit: TAB, LF, VT, FF, CR, SPACE, NBSP.  This is the class of the
    regular expression atom [\s] and the class removed by [trim]. *)
Definition is_space (c : ascii) : bool :=
  let n := nat_of_ascii c in
  (Nat.eqb n 9 || Nat.eqb n 10 || Nat.eqb n 11 || Nat.eqb n 12
   || Nat.eqb n 13 || Nat.eqb n 32 || Nat.eqb n 160)%bool.

(** Line terminators (LF, CR): the characters the regular expression atom
    [.] refuses when the [s] flag is absent. *)
Definition is_line_terminator (c : ascii) : bool :=
  let n := nat_of_ascii c in (Nat.eqb n 10 || Nat.eqb n 13)%bool.

Fixpoint trimStart (s : string) : string :=
  match s with
  | EmptyString => EmptyString
  | String c s' => if is_space c then trimStart s' else s
  end.

(** Removes trailing white space: a character is kept when something that
    is kept follows it, or when it is not white space. *)
Fixpoint trimEnd (s : string) : string :=
  match s with
  | EmptyString => EmptyString
  | String c s' =>
      match trimEnd s' with
      | EmptyString => if is_space c then EmptyString else String c EmptyString
      | t => String c t
      end
  end.

(** [s.trim()] *)
Definition trim (s : string) : string := trimEnd (trimStart s).

(** [s.split(sep)] for a separator of one code unit.  The result is never
    empty: a string without separator is its own single field. *)
Fixpoint split (sep : ascii) (s : string) : list string :=
  match s with
  | EmptyString => [EmptyString]
  | String c s' =>
      if Ascii.eqb c sep then EmptyString :: split sep s'
      else match split sep s' with
           | [] => [String c EmptyString]
           | f :: fs => String c f :: fs
           end
  end.

(** Upper-casing of one code unit, as the case-insensitive flag [i] of a
    regular expression canonicalises it: only a-z are mapped. *)
Definition upcase (c : ascii) : ascii :=
  let n := nat_of_ascii c in
  if (Nat.leb 97 n && Nat.leb n 122)%bool then ascii_of_nat (n - 32) else c.

(** Decimal rendering of an integer, as a template literal prints an
    integral number. *)
Definition of_Z (z : Z) : string := NilZero.string_of_int (Z.to_int z).

Definition LF : ascii := ascii_of_nat 10.
Definition nl : string := String LF EmptyString.
Definition dq : string := String (ascii_of_nat 34) EmptyString.

(** [s.replace(pat, "")] for a string pattern: the first occurrence of
    [pat] is removed. *)
Fixpoint remove_first (pat s : string) : string :=
  if String.prefix pat s then drop (String.length pat) s
  else match s with
       | EmptyString => EmptyString
       | String c s' => String c (remove_first pat s')
       end.

End JsString.

(** ** Results, thrown values *)

(** What a [throw] carries.  [err_is_Error] is [e instanceof Error];
    [err_status] is [e.status] when it is a number; [err_message] is
    [e.message] when it is a string. *)
Record JsError : Type := mkJsError {
  err_is_Error : bool;
  err_status : option Z;
  err_message : option string
}.

(** [new Error(msg)] *)
Definition new_Error (msg : string) : JsError :=
  {| err_is_Error := true; err_status := None; err_message := Some msg |}.

(** The [TypeError] the engine raises for a property read on [null] or
    [undefined]; the wording of its message is the engine's. *)
Definition TypeError_read (prop : string) : JsError :=
  new_Error ("Cannot read properties of undefined (reading '" ++ prop ++ "')").

(** [e.message && e.message.includes(p)], as a boolean. *)
Definition message_includes (p : string) (e : JsError) : bool :=
  match err_message e with
  | Some m => JsString.includes p m
  | None => false
  end.

(** The answer of a collaborator: a value, or a thrown error. *)
Inductive JsResult (A : Type) : Type :=
| Ok (a : A)
| Err (e : JsError).
Arguments Ok {A} a.
Arguments Err {A} e.

(** ** JSON values and property reads *)

(** What [JSON.parse] and [response.json()] produce.  Numbers are the
    integral ones (status and error codes). *)
Inductive json : Type :=
| JNull
| JBool (b : bool)
| JNum (z : Z)
| JStr (s : string)
| JArr (items : list json)
| JObj (fields : list (string * json)).

Module Js.

(** Own property [k] of an object literal. *)
Fixpoint field (k : string) (fields : list (string * json)) : option json :=
  match fields with
  | [] => None
  | (k', v) :: rest => if String.eqb k k' then Some v else field k rest
  end.

(** [v.k] for a named property that no prototype defines ([choices],
    [delta], [content], [error], [message], [code]).  [None] is
    [undefined]; reading a property of [null] throws. *)
Definition get (v : json) (k : string) : JsResult (option json) :=
  match v with
  | JNull => Err (TypeError_read k)
  | JObj fields => Ok (field k fields)
  | _ => Ok None
  end.

(** [v[0]]: first element of an array, first code unit of a string,
    property ["0"] of an object. *)
Definition get0 (v : json) : JsResult (option json) :=
  match v with
  | JNull => Err (TypeError_read "0")
  | JArr items => Ok (List.hd_error items)
  | JStr (String c _) => Ok (Some (JStr (String c EmptyString)))
  | JObj fields => Ok (field "0" fields)
  | _ => Ok None
  end.

(** [v?.k]: [undefined] when [v] is [undefined] or [null]. *)
Definition get_opt (v : option json) (k : string) : option json :=
  match v with
  | None | Some JNull => None
  | Some (JObj fields) => field k fields
  | Some _ => None
  end.

(** Truthiness of a value that may be [undefined]. *)
Definition truthy (v : option json) : bool :=
  match v with
  | None | Some JNull => false
  | Some (JBool b) => b
  | Some (JNum z) => negb (Z.eqb z 0)
  | Some (JStr s) => negb (String.eqb s "")
  | Some (JArr _) | Some (JObj _) => true
  end.

(** [String(v)], the conversion a string concatenation or a template
    literal applies. *)
Fixpoint to_string (v : json) : string :=
  match v with
  | JNull => "null"
  | JBool true => "true"
  | JBool false => "false"
  | JNum z => JsString.of_Z z
  | JStr s => s
  | JArr items =>
      (* [Array.prototype.join]: [null] elements print as nothing *)
      String.concat ","
        (List.map (fun x => match x with JNull => "" | _ => to_string x end)
                  items)
  | JObj _ => "[object Object]"
  end.

End Js.

(** ** The data of a turn *)

(** [RouterAction] of the semantic router.  The [switch] of the loop sends
    every other value to the body of [SIMPLE] through its [default] label. *)
Inductive RouterAction : Type :=
| SIMPLE | SEARCH | DEEP_SEARCH | THINK | IMAGE | CANVAS | PROJECT | STUDY.

(** One citation, [{ web: { uri, title } }]. *)
Record GroundingChunk : Type := mkGrounding {
  g_uri : string;
  g_title : string
}.

(** A message of the result.  The spread [...metadataPayload] adds the key
    [groundingMetadata] when the payload has it. *)
Record Message : Type := mkMessage {
  project_id : string;
  chat_id : string;
  sender : string;
  text : string;
  image_base64 : option string;
  groundingMetadata : option (list GroundingChunk)
}.

Record AgentExecutionResult : Type := mkResult {
  messages : list Message
}.

Record HistoryMessage : Type := mkHistory {
  h_sender : string;
  h_text : string
}.

(** An attached file: its mime type and what [FileReader.readAsDataURL]
    delivers for it ([reader.result], or the rejection of the promise). *)
Record FileBlob : Type := mkFile {
  file_type : string;
  file_dataURL : JsResult string
}.

(** [AgentInput], the fields the handler reads.  [in_project], [in_chat]
    and [in_user] hold the [id] of the object, [None] when the object itself
    is absent; [in_has_sink] says whether [onStreamChunk] is defined. *)
Record AgentInput : Type := mkInput {
  in_prompt : string;
  in_files : option (list FileBlob);
  in_apiKey : string;
  in_project : option string;
  in_chat : option string;
  in_history : list HistoryMessage;
  in_user : option string;
  in_openrouter_api_key : option string;
  in_preferred_image_model : option string;
  in_has_sink : bool;
  in_model : option string
}.

(** A part of a native turn: text, or an inline file. *)
Inductive Part : Type :=
| PText (t : string)
| PInline (data : option string) (mimeType : string).

Record Turn : Type := mkTurn {
  role : string;
  content : string;
  parts : list Part
}.

Inductive Contents : Type :=
| CPlain (t : string)
| CTurns (turns : list (string * list Part)).

(** The argument of [ai.models.generateContent(Stream)]. *)
Record NativeParams : Type := mkParams {
  np_model : string;
  np_contents : Contents;
  np_systemInstruction : option string;
  np_thinkingBudget : option Z;
  np_responseMimeType : option string
}.

(** A chunk of a native stream: [chunk.text] and
    [chunk.candidates?.[0]?.groundingMetadata?.groundingChunks]. *)
Record NativeChunk : Type := mkChunk {
  c_text : option string;
  c_grounding : option (list GroundingChunk)
}.

(** A finite asynchronous sequence: the items it delivers, then normal
    completion or a thrown error. *)
Record Stream (A : Type) : Type := mkStream {
  items : list A;
  failure : option JsError
}.
Arguments mkStream {A} items failure.
Arguments items {A} s.
Arguments failure {A} s.

Definition NativeStream : Type := Stream NativeChunk.

(** The HTTP response of the aggregator, as the adapter observes it. *)
Record HttpResponse : Type := mkResponse {
  resp_ok : bool;
  resp_status : Z;
  resp_json : JsResult json;
  resp_text : JsResult string;
  resp_body : option (Stream string)
}.

Record OpenRouterRequest : Type := mkRequest {
  or_apiKey : option string;
  or_model : string;
  or_messages : list (string * string);
  or_system : string
}.

Record RoutingDecision : Type := mkRouting {
  rt_action : RouterAction;
  rt_prompt : option string
}.

Record ResearchResult : Type := mkResearch {
  r_answer : string;
  r_sources : option (list string)
}.

(** ** The collaborators *)

(** Everything [handler.ts] imports or calls and does not define.  The first
    argument of a service is the index of the call among all service calls
    of the turn, so that a service may answer the same request differently
    the second time (a rate limit that clears, say). *)
Record Env : Type := mkEnv {
  (** [JSON.parse]; [None] when it throws a [SyntaxError] *)
  JSON_parse : string -> option json;
  (** [JSON.stringify] *)
  JSON_stringify : json -> string;
  (** [getUserFriendlyError] of [agents/errorUtils] *)
  getUserFriendlyError : JsError -> string;
  (** [autonomousInstruction] of [./instructions] with the identity block of
      the model put in *)
  baseSystemInstruction : string -> string;
  (** [formatTimestamp()] *)
  timestamp : string;
  (** the two [prompt.match] calls of the video-link detection: the whole
      match and its first group *)
  youtubeMatch : string -> option (string * string);
  youtubeShortMatch : string -> option (string * string);
  (** [new URL(url).hostname]; [None] when the constructor throws *)
  url_hostname : string -> option string;
  (** [router.route(prompt, user.id, apiKey, fileCount)] *)
  route : nat -> string -> nat -> JsResult RoutingDecision;
  (** [memory.getContext([...])], as [JSON.stringify] prints it *)
  getContext : nat -> JsResult string;
  (** [researchService.deepResearch(query, apiKey, progress)]: the progress
      messages it reports, then its result *)
  deepResearch : nat -> string -> list string * JsResult ResearchResult;
  (** [incrementThinkingCount(supabase, user.id)] *)
  incrementThinkingCount : nat -> JsResult unit;
  (** [ai.models.generateContentStream(params)] *)
  generateContentStream : nat -> NativeParams -> JsResult NativeStream;
  (** [ai.models.generateContent(params)], its [response.text] *)
  generateContent : nat -> NativeParams -> JsResult string;
  (** [generateImage(prompt, apiKey, preferred)], its [imageBase64] *)
  generateImage : nat -> string -> option string -> JsResult string;
  (** [runCanvasAgent({...input, prompt})], its [messages] *)
  runCanvasAgent : nat -> string -> JsResult (list Message);
  (** [fetch] of the OpenRouter completions endpoint *)
  fetch : nat -> OpenRouterRequest -> JsResult HttpResponse
}.

(** ** Observable effects *)

Inductive Event : Type :=
| EvSink (chunk : string)               (* onStreamChunk(chunk) *)
| EvConsoleWarn (line : string)
| EvConsoleError (line : string)
| EvSleep (ms : Z)                      (* setTimeout(resolve, ms) *)
| EvRoute (prompt : string) (fileCount : nat)
| EvGetContext
| EvDeepResearch (query : string)
| EvIncrementThinkingCount
| EvGenerateContentStream (p : NativeParams)
| EvGenerateContent (p : NativeParams)
| EvGenerateImage (prompt : string) (preferred : option string)
| EvRunCanvasAgent (prompt : string)
| EvFetch (req : OpenRouterRequest).

(** ** The mutable locals of the loop *)

Record LoopState : Type := mkLoop {
  finalResponseText : string;
  metadataPayload : option (list GroundingChunk);
  fallbackSearchContext : string;
  currentAction : RouterAction;
  currentPrompt : string;
  loopCount : nat;
  routingPrompt : option string;
  generatedThisLoop : string
}.

(** [routingPrompt] is [routing.parameters?.prompt]; [generatedThisLoop] is the
    local of that name in the SIMPLE branch.  One setter per variable. *)
Definition set_finalResponseText (x : string) (s : LoopState) : LoopState :=
  mkLoop x (metadataPayload s) (fallbackSearchContext s) (currentAction s) (currentPrompt s) (loopCount s) (routingPrompt s) (generatedThisLoop s).
Definition set_metadataPayload (x : option (list GroundingChunk)) (s : LoopState) : LoopState :=
  mkLoop (finalResponseText s) x (fallbackSearchContext s) (currentAction s) (currentPrompt s) (loopCount s) (routingPrompt s) (generatedThisLoop s).
Definition set_fallbackSearchContext (x : string) (s : LoopState) : LoopState :=
  mkLoop (finalResponseText s) (metadataPayload s) x (currentAction s) (currentPrompt s) (loopCount s) (routingPrompt s) (generatedThisLoop s).
Definition set_currentAction (x : RouterAction) (s : LoopState) : LoopState :=
  mkLoop (finalResponseText s) (metadataPayload s) (fallbackSearchContext s) x (currentPrompt s) (loopCount s) (routingPrompt s) (generatedThisLoop s).
Definition set_currentPrompt (x : string) (s : LoopState) : LoopState :=
  mkLoop (finalResponseText s) (metadataPayload s) (fallbackSearchContext s) (currentAction s) x (loopCount s) (routingPrompt s) (generatedThisLoop s).
Definition set_loopCount (x : nat) (s : LoopState) : LoopState :=
  mkLoop (finalResponseText s) (metadataPayload s) (fallbackSearchContext s) (currentAction s) (currentPrompt s) x (routingPrompt s) (generatedThisLoop s).
Definition set_routingPrompt (x : option string) (s : LoopState) : LoopState :=
  mkLoop (finalResponseText s) (metadataPayload s) (fallbackSearchContext s) (currentAction s) (currentPrompt s) (loopCount s) x (generatedThisLoop s).
Definition set_generatedThisLoop (x : string) (s : LoopState) : LoopState :=
  mkLoop (finalResponseText s) (metadataPayload s) (fallbackSearchContext s) (currentAction s) (currentPrompt s) (loopCount s) (routingPrompt s) x.

(** ** The monad of the handler *)

Record World : Type := mkWorld {
  calls : nat;              (* service calls made so far *)
  trace : list Event;       (* effects so far, oldest first *)
  vars : LoopState          (* the locals of the loop *)
}.

(** How a computation ends.  [OutOfFuel] is the model's own: a loop that
    used up the iterations it was given; the theorems show it never
    happens. *)
Inductive Outcome (A : Type) : Type :=
| Ret (a : A)
| Throw (e : JsError)
| OutOfFuel.
Arguments Ret {A} a.
Arguments Throw {A} e.
Arguments OutOfFuel {A}.

Definition M (A : Type) : Type := World -> Outcome A * World.

Definition ret {A} (a : A) : M A := fun w => (Ret a, w).

Definition throw {A} (e : JsError) : M A := fun w => (Throw e, w).

Definition out_of_fuel {A} : M A := fun w => (OutOfFuel, w).

Definition bind {A B} (m : M A) (k : A -> M B) : M B :=
  fun w =>
    match m w with
    | (Ret a, w') => k a w'
    | (Throw e, w') => (Throw e, w')
    | (OutOfFuel, w') => (OutOfFuel, w')
    end.

(** [try { m } catch (e) { handler e }] *)
Definition try_catch {A} (m : M A) (handler : JsError -> M A) : M A :=
  fun w =>
    match m w with
    | (Throw e, w') => handler e w'
    | r => r
    end.

Declare Scope agent_scope.
Delimit Scope agent_scope with agent.
Notation "x <- m ;; k" := (bind m (fun x => k))
  (at level 61, m at next level, right associativity) : agent_scope.
Notation "m ;; k" := (bind m (fun _ => k))
  (at level 61, right associativity) : agent_scope.
Local Open Scope agent_scope.

(** Lifting an answer that was computed without effect. *)
Definition lift {A} (r : JsResult A) : M A :=
  match r with
  | Ok a => ret a
  | Err e => throw e
  end.

(** An effect that cannot fail. *)
Definition emit (ev : Event) : M unit :=
  fun w => (Ret tt, mkWorld (calls w) ((trace w ++ [ev])%list) (vars w)).

(** A service call: it is recorded and it takes the next call index. *)
Definition ask {A} (ev : Event) (answer : nat -> A) : M A :=
  fun w =>
    (Ret (answer (calls w)),
     mkWorld (S (calls w)) ((trace w ++ [ev])%list) (vars w)).

(** A service call that returns or throws what the service answers. *)
Definition call {A} (ev : Event) (answer : nat -> JsResult A) : M A :=
  r <- ask ev answer ;; lift r.

Definition read {A} (f : LoopState -> A) : M A :=
  fun w => (Ret (f (vars w)), w).

Definition update (f : LoopState -> LoopState) : M unit :=
  fun w => (Ret tt, mkWorld (calls w) (trace w) (f (vars w))).

Definition console_warn (line : string) : M unit := emit (EvConsoleWarn line).
Definition console_error (line : string) : M unit := emit (EvConsoleError line).

(** [await new Promise(resolve => setTimeout(resolve, ms))] *)
Definition sleep (ms : Z) : M unit := emit (EvSleep ms).

(** [for (const x of xs) body(x)] *)
Fixpoint for_each {A} (xs : list A) (body : A -> M unit) : M unit :=
  match xs with
  | [] => ret tt
  | x :: rest => body x ;; for_each rest body
  end.

(** [for await (const x of stream) body(x)]: the items in order, then the
    failure of the stream, if it has one. *)
Definition for_await {A} (s : Stream A) (body : A -> M unit) : M unit :=
  for_each (items s) body ;;
  match failure s with
  | Some e => throw e
  | None => ret tt
  end.

(** ** The provider adapter *)

(** [isGoogleModel]: an empty identifier counts as native. *)
Definition isGoogleModel (model : string) : bool :=
  if String.eqb model "" then true
  else (JsString.startsWith "gemini" model
        || JsString.startsWith "veo" model
        || JsString.includes "google" model)%bool.

Module OpenRouter.

(** What the generator yields: [{ text: content }]. *)
Record Delta : Type := mkDelta { d_text : json }.

Definition unavailable_message (model : string) : string :=
  "The model " ++ JsString.dq ++ model ++ JsString.dq ++
    " is currently unavailable via OpenRouter (No providers). Please select a different model.".

(** [errorData.error?.message?.includes("No allowed providers")]: a string
    is searched, an array is asked for an element equal to the text, a
    missing message gives [undefined], anything else has no [includes]
    method to call. *)
Definition message_has_no_providers (m : option json) : JsResult bool :=
  match m with
  | None | Some JNull => Ok false
  | Some (JStr s) => Ok (JsString.includes "No allowed providers" s)
  | Some (JArr xs) =>
      Ok (existsb (fun x => match x with
                            | JStr s => String.eqb s "No allowed providers"
                            | _ => false
                            end) xs)
  | Some _ => Err (new_Error "errorData.error?.message?.includes is not a function")
  end.

(** The [try] block of the [!response.ok] branch, given the parsed body:
    it throws, or it ends with the message the generic error will carry. *)
Definition inspect_error_body (model : string) (status : Z)
    (errorMsg : string) (errorData : json) : JsResult string :=
  match Js.get errorData "error" with
  | Err e => Err e
  | Ok err =>
      let message := Js.get_opt err "message" in
      let code := Js.get_opt err "code" in
      let code_is_404 := match code with
                         | Some (JNum 404) => true
                         | _ => false
                         end in
      (* [if (errorData.error?.message) errorMsg = errorData.error.message] *)
      let generic :=
        match message with
        | Some v => if Js.truthy message then Ok (Js.to_string v)
                    else Ok errorMsg
        | None => Ok errorMsg
        end in
      if Z.eqb status 404 then
        match message_has_no_providers message with
        | Err e => Err e
        | Ok true => Err (new_Error (unavailable_message model))
        | Ok false =>
            if code_is_404 then Err (new_Error (unavailable_message model))
            else generic
        end
      else generic
  end.

(** The error thrown for a response whose [ok] is false (lines 47-66). *)
Definition failure_of_response (model : string) (response : HttpResponse)
    : JsError :=
  let errorMsg := "OpenRouter Error (" ++ JsString.of_Z (resp_status response) ++ ")" in
  let attempt :=
    match resp_json response with
    | Err e => Err e
    | Ok errorData =>
        inspect_error_body model (resp_status response) errorMsg errorData
    end in
  match attempt with
  | Ok msg => new_Error msg
  | Err e =>
      let fall_back :=
        let textError := match resp_text response with
                         | Ok t => t
                         | Err _ => ""
                         end in
        if String.eqb textError "" then new_Error errorMsg
        else new_Error (errorMsg ++ ": " ++ textError) in
      if err_is_Error e then
        match err_message e with
        | Some m =>
            if JsString.includes "currently unavailable" m then e
            else fall_back
        | None => TypeError_read "includes"
        end
      else fall_back
  end.

(** The body of [for (const line of lines)]: the deltas one line yields.
    Whatever is thrown between [JSON.parse] and the [yield] is swallowed by
    the empty [catch]. *)
Definition deltas_of_line (env : Env) (line : string) : list Delta :=
  if (JsString.startsWith "data: " line
      && negb (String.eqb line "data: [DONE]"))%bool
  then
    match JSON_parse env (JsString.drop 6 line) with
    | None => []
    | Some parsed =>
        match Js.get parsed "choices" with
        | Ok (Some choices) =>
            match Js.get0 choices with
            | Ok first =>
                let content :=
                  Js.get_opt (Js.get_opt first "delta") "content" in
                match content with
                | Some c => if Js.truthy content then [mkDelta c] else []
                | None => []
                end
            | Err _ => []
            end
        | Ok None => []       (* [undefined[0]] throws *)
        | Err _ => []
        end
    end
  else [].

(** The [while (true)] loop over [reader.read()]: [buffer] is the
    unterminated tail kept from the chunks read so far.  What is left in
    the buffer when the body ends is dropped. *)
Fixpoint read_events (env : Env) (chunks : list string) (buffer : string)
    : list Delta :=
  match chunks with
  | [] => []
  | value :: rest =>
      let buffer := buffer ++ value in
      let lines := JsString.split JsString.LF buffer in
      let buffer := List.last lines "" in
      let lines := List.removelast lines in
      (List.flat_map (deltas_of_line env) lines ++ read_events env rest buffer)%list
  end.

(** [streamOpenRouter], the body of the asynchronous generator.  Calling
    the generator function runs none of it and cannot throw: the body
    starts when the consumer asks for the first item.  Its effect is the
    [fetch]; it then throws before the first item, or delivers a stream
    that may fail after some items (a failing [reader.read()]).  The outer
    [try]/[catch] of the source rethrows what it catches. *)
Definition streamOpenRouter (env : Env) (apiKey : option string)
    (model : string) (msgs : list (string * string))
    (systemInstruction : string) : M (Stream Delta) :=
  let req := mkRequest apiKey model msgs systemInstruction in
  response <- call (EvFetch req) (fun i => fetch env i req) ;;
  if negb (resp_ok response) then
    throw (failure_of_response model response)
  else
    match resp_body response with
    | None => throw (new_Error "No response body from OpenRouter")
    | Some body =>
        ret (mkStream (read_events env (items body) "") (failure body))
    end.

End OpenRouter.

(** ** Retrying native calls *)

(** [isQuotaError] of the [catch] block. *)
Definition isQuotaError (error : JsError) : bool :=
  (match err_status error with
   | Some s => Z.eqb s 429
   | None => false
   end
   || message_includes "429" error
   || message_includes "quota" error)%bool.

(** [Math.pow(2, attempt) * 2000 + 1000] *)
Definition backoff_delay (attempt : Z) : Z := (2 ^ attempt * 2000 + 1000)%Z.

(** [Math.round(delay / 1000)]: the nearest integer, halves upwards. *)
Definition round_seconds (delay : Z) : Z := ((2 * delay + 1000) / 2000)%Z.

Definition retry_notice (delay : Z) : string :=
  "(Rate limit hit. Retrying in " ++ JsString.of_Z (round_seconds delay) ++ "s...)".

Definition max_retries_error : JsError := new_Error "Max retries exceeded".

(** The [for (let attempt = 0; attempt <= retries; attempt++)] loop, from
    the test of its condition on.  [fuel] bounds the number of tests. *)
Fixpoint retry_loop (env : Env) (params : NativeParams) (retries : Z)
    (onRetry : option (string -> M unit)) (fuel : nat) (attempt : Z)
    : M NativeStream :=
  match fuel with
  | O => out_of_fuel
  | S fuel' =>
      if (attempt <=? retries)%Z then
        try_catch
          (call (EvGenerateContentStream params)
                (fun i => generateContentStream env i params))
          (fun error =>
             if (isQuotaError error && (attempt <? retries)%Z)%bool then
               let delay := backoff_delay attempt in
               console_warn ("Quota limit hit. Retrying in "
                             ++ JsString.of_Z delay ++ "ms...") ;;
               match onRetry with
               | Some notify => notify (retry_notice delay)
               | None => ret tt
               end ;;
               sleep delay ;;
               retry_loop env params retries onRetry fuel' (attempt + 1)%Z
             else throw error)
      else throw max_retries_error
  end.

(** [if (!params.model) params.model = 'gemini-2.5-flash'] *)
Definition with_default_model (params : NativeParams) : NativeParams :=
  if String.eqb (np_model params) "" then
    mkParams "gemini-2.5-flash" (np_contents params)
             (np_systemInstruction params) (np_thinkingBudget params)
             (np_responseMimeType params)
  else params.

Definition default_model_warning : string :=
  "Model undefined in generateContent call, defaulting to gemini-2.5-flash".

(** [generateContentStreamWithRetry(ai, params, retries, onRetry)].  The
    loop tests its condition [retries + 2] times at most. *)
Definition generateContentStreamWithRetry (env : Env) (params : NativeParams)
    (retries : Z) (onRetry : option (string -> M unit)) : M NativeStream :=
  (if String.eqb (np_model params) "" then console_warn default_model_warning
   else ret tt) ;;
  retry_loop env (with_default_model params) retries onRetry
             (Z.to_nat (retries + 1) + 1) 0%Z.

(** ** Directive tags in generated text *)

Module Directive.

(** Equality of two code units, exact or under the [i] flag. *)
Definition same (ci : bool) (a b : ascii) : bool :=
  if ci then Ascii.eqb (JsString.upcase a) (JsString.upcase b)
  else Ascii.eqb a b.

(** Matching a literal at the head of [s]: what follows it. *)
Fixpoint literal (ci : bool) (lit s : string) : option string :=
  match lit, s with
  | EmptyString, _ => Some s
  | String a lit', String b s' =>
      if same ci a b then literal ci lit' s' else None
  | String _ _, EmptyString => None
  end.

(** [(.*?)close] at the head of [s]: the shortest run of characters other
    than line terminators that is followed by [close]; the run is the
    captured group. *)
Fixpoint lazy_until (ci : bool) (close s : string) : option string :=
  match literal ci close s with
  | Some _ => Some EmptyString
  | None =>
      match s with
      | EmptyString => None
      | String c s' =>
          if JsString.is_line_terminator c then None
          else option_map (String c) (lazy_until ci close s')
      end
  end.

(** [\s+] followed by [k], with the backtracking of the engine: one white
    space, then the longer runs before the shorter ones. *)
Fixpoint spaces_then (k : string -> option string) (s : string)
    : option string :=
  match s with
  | EmptyString => None
  | String c s' =>
      if JsString.is_space c then
        match spaces_then k s' with
        | Some r => Some r
        | None => k s'
        end
      else None
  end.

(** [s.match(re)] for a pattern [at_head] anchored nowhere: the leftmost
    position where it matches. *)
Fixpoint leftmost (at_head : string -> option string) (s : string)
    : option string :=
  match at_head s with
  | Some r => Some r
  | None =>
      match s with
      | EmptyString => None
      | String _ s' => leftmost at_head s'
      end
  end.

(** [/<TAG>(.*?)<\/TAG>/], group 1 *)
Definition tag_at_head (name s : string) : option string :=
  match literal false ("<" ++ name ++ ">") s with
  | Some rest => lazy_until false ("</" ++ name ++ ">") rest
  | None => None
  end.

Definition tag (name s : string) : option string :=
  leftmost (tag_at_head name) s.

(** [/<SEARCH>deep\s+(.*?)<\/SEARCH>/i], group 1 *)
Definition deep_search_at_head (s : string) : option string :=
  match literal true "<SEARCH>deep" s with
  | Some rest => spaces_then (lazy_until true "</SEARCH>") rest
  | None => None
  end.

Definition deep_search (s : string) : option string :=
  leftmost deep_search_at_head s.

(** The seven matches computed after the stream of a SIMPLE hop. *)
Definition searchMatch (g : string) : option string := tag "SEARCH" g.

Definition deepMatch (g : string) : option string :=
  match tag "DEEP" g with
  | Some p => Some p
  | None => deep_search g
  end.

(** [thinkMatch]: [Some (Some p)] for the pair of tags with payload [p],
    [Some None] for a bare [<THINK>], whose group 1 is [undefined]. *)
Definition thinkMatch (g : string) : option (option string) :=
  match tag "THINK" g with
  | Some p => Some (Some p)
  | None => if JsString.includes "<THINK>" g then Some None else None
  end.

Definition imageMatch (g : string) : option string := tag "IMAGE" g.
Definition projectMatch (g : string) : option string := tag "PROJECT" g.
Definition canvasMatch (g : string) : option string := tag "CANVAS" g.
Definition studyMatch (g : string) : option string := tag "STUDY" g.

(** The chain of [if (...Match) { ...; continue; }]: the action and the
    prompt of the next hop, [None] when no directive matched.  [prompt] is
    the prompt of the turn. *)
Definition next_hop (prompt g : string) : option (RouterAction * string) :=
  match deepMatch g with
  | Some p => Some (DEEP_SEARCH, p)
  | None =>
  match searchMatch g with
  | Some p => Some (SEARCH, p)
  | None =>
  match thinkMatch g with
  | Some m =>
      Some (THINK,
            match m with
            | Some p => if String.eqb p "" then prompt else JsString.trim p
            | None => prompt
            end)
  | None =>
  match imageMatch g with
  | Some p => Some (IMAGE, p)
  | None =>
  match projectMatch g with
  | Some p => Some (PROJECT, p)
  | None =>
  match canvasMatch g with
  | Some p => Some (CANVAS, p)
  | None =>
  match studyMatch g with
  | Some p => Some (STUDY, p)
  | None => None
  end end end end end end end.

End Directive.

(** ** The agent loop *)

Definition MAX_LOOPS : nat := 6.

Definition default_model : string := "gemini-2.5-flash".

(** What the turn fixes before the loop starts. *)
Record Context : Type := mkContext {
  cx_input : AgentInput;
  cx_model : string;            (* [model], after the two defaultings *)
  cx_isNative : bool;           (* [isNative], computed before the second *)
  cx_prompt : string;           (* [prompt], after the video rewrite *)
  cx_memory : string;           (* [JSON.stringify(memoryContext)] *)
  cx_dateTime : string;         (* [dateTimeContext] *)
  cx_instruction : string       (* [baseSystemInstruction] *)
}.

(** How one pass through the [switch] ends: [continue], or [return]. *)
Inductive Step : Type :=
| Continue
| Return (r : AgentExecutionResult).

(** The value of [generator] in the SIMPLE branch: a native stream already
    obtained, or the suspended body of [streamOpenRouter]. *)
Inductive Generator : Type :=
| NativeGen (s : NativeStream)
| OpenRouterGen (body : M (Stream OpenRouter.Delta)).

(** [onStreamChunk?.(chunk)]: nothing happens when the input has no sink. *)
Definition stream_chunk (input : AgentInput) (chunk : string) : M unit :=
  if in_has_sink input then emit (EvSink chunk) else ret tt.

Section Loop.

Variable env : Env.
Variable cx : Context.

Let input : AgentInput := cx_input cx.
Let model : string := cx_model cx.

Definition onStreamChunk (chunk : string) : M unit :=
  stream_chunk input chunk.

(** The status notices of the branches end in a pictograph ("Searching
    sources...", "Thinking deeply...", "Building project structure...",
    "Creating study plan..."); it lies outside the code units of [string]
    and is left out of the four literals. *)

(** [x.id] for an object that may be absent. *)
Definition id_of (x : option string) : M string :=
  match x with
  | Some i => ret i
  | None => throw (TypeError_read "id")
  end.

(** [{ messages: [{ project_id: project.id, chat_id: chat.id,
       sender: 'ai', text: finalResponseText, image_base64?,
       ...metadataPayload }] }] *)
Definition result_message (image : option string) : M AgentExecutionResult :=
  pid <- id_of (in_project input) ;;
  cid <- id_of (in_chat input) ;;
  t <- read finalResponseText ;;
  payload <- read metadataPayload ;;
  ret (mkResult [mkMessage pid cid "ai" t image payload]).

Definition return_message : M Step :=
  r <- result_message None ;; ret (Return r).

(** [finalResponseText += t] *)
Definition append_response (t : string) : M unit :=
  update (fun s => set_finalResponseText (finalResponseText s ++ t) s).

Definition continue_with (a : RouterAction) : M Step :=
  update (set_currentAction a) ;; ret Continue.

Definition notify_retry : option (string -> M unit) := Some onStreamChunk.

(** The citation built from a source URL. *)
Definition citation (url : string) : GroundingChunk :=
  let hostname :=
    match url_hostname env url with
    | Some h => JsString.remove_first "www." h
    | None => "Source"
    end in
  mkGrounding url hostname.

(** [case 'SEARCH': case 'DEEP_SEARCH':] *)
Definition hop_search : M Step :=
  onStreamChunk (JsString.nl ++ "Searching sources... " ++ JsString.nl) ;;
  query <- read currentPrompt ;;
  answer <- ask (EvDeepResearch query) (fun i => deepResearch env i query) ;;
  for_each (fst answer)
    (fun msg => onStreamChunk (JsString.nl ++ "*" ++ msg ++ "*")) ;;
  result <- lift (snd answer) ;;
  match r_sources result with
  | Some ((_ :: _) as sources) =>
      update (set_metadataPayload (Some (List.map citation sources)))
  | _ => ret tt
  end ;;
  update (set_fallbackSearchContext (r_answer result)) ;;
  let synthesisPrompt :=
    "USER QUERY: " ++ query ++ JsString.nl ++ JsString.nl
    ++ "SEARCH CONTEXT:" ++ JsString.nl ++ r_answer result
    ++ JsString.nl ++ JsString.nl
    ++ "INSTRUCTIONS: Synthesize a comprehensive answer to the user's query based ONLY on the provided search context. Cite sources using [1], [2] format where appropriate." in
  update (set_currentPrompt synthesisPrompt) ;;
  continue_with SIMPLE.

(** [for await (const chunk of response) if (chunk.text) { ... }] of the
    THINK and STUDY branches. *)
Definition stream_to_response (response : NativeStream) : M unit :=
  for_await response
    (fun chunk =>
       match c_text chunk with
       | Some t =>
           if String.eqb t "" then ret tt
           else append_response t ;; onStreamChunk t
       | None => ret tt
       end).

(** [history.map(...).filter(...)] of the THINK branch *)
Definition geminiHistory : list (string * list Part) :=
  List.filter
    (fun m => match snd m with
              | PText t :: _ => negb (String.eqb (JsString.trim t) "")
              | _ => true
              end)
    (List.map
       (fun msg =>
          (if String.eqb (h_sender msg) "user" then "user" else "model",
           [PText (h_text msg)]))
       (in_history input)).

(** [case 'THINK':] *)
Definition hop_think : M Step :=
  if (negb (isGoogleModel model)
      || negb (JsString.includes "gemini-2.5" model))%bool
  then continue_with SIMPLE
  else
    onStreamChunk (JsString.nl ++ "Thinking deeply... " ++ JsString.nl) ;;
    call EvIncrementThinkingCount (incrementThinkingCount env) ;;
    task <- read currentPrompt ;;
    let contextBlock :=
      cx_instruction cx ++ JsString.nl ++ JsString.nl
      ++ cx_dateTime cx ++ JsString.nl ++ JsString.nl
      ++ "[MEMORY]" ++ JsString.nl ++ cx_memory cx
      ++ JsString.nl ++ JsString.nl
      ++ "[TASK]" ++ JsString.nl ++ task in
    let contents :=
      (geminiHistory ++ [("user", [PText contextBlock])])%list in
    response <- generateContentStreamWithRetry env
                  (mkParams model (CTurns contents) None (Some 2048%Z) None)
                  3 notify_retry ;;
    stream_to_response response ;;
    return_message.

(** [case 'IMAGE':] *)
Definition hop_image : M Step :=
  so_far <- read finalResponseText ;;
  onStreamChunk
    (JSON_stringify env
       (JObj [("type", JStr "image_generation_start");
              ("text", JStr so_far)])) ;;
  current <- read currentPrompt ;;
  explicit <- read routingPrompt ;;
  let imagePrompt :=
    match explicit with
    | Some p => if String.eqb p "" then current else p
    | None => current
    end in
  try_catch
    (imageBase64 <- call (EvGenerateImage imagePrompt
                            (in_preferred_image_model input))
                         (fun i => generateImage env i imagePrompt
                                     (in_preferred_image_model input)) ;;
     r <- result_message (Some imageBase64) ;;
     ret (Return r))
    (fun e =>
       let errorMsg :=
         JsString.nl ++ JsString.nl ++ "(Image generation failed: "
         ++ (if err_is_Error e
             then match err_message e with
                  | Some m => m
                  | None => "undefined"
                  end
             else "Unknown error")
         ++ ")" in
       append_response errorMsg ;;
       onStreamChunk errorMsg ;;
       return_message).

(** [case 'CANVAS':] *)
Definition hop_canvas : M Step :=
  current <- read currentPrompt ;;
  canvasMessages <- call (EvRunCanvasAgent current)
                         (fun i => runCanvasAgent env i current) ;;
  match canvasMessages with
  | canvasMessage :: _ =>
      update (set_finalResponseText (text canvasMessage)) ;;
      return_message
  | [] => throw (TypeError_read "text")
  end.

(** [case 'PROJECT':] *)
Definition hop_project : M Step :=
  if negb (isGoogleModel model) then continue_with SIMPLE
  else
    onStreamChunk (JsString.nl ++ "Building project structure... " ++ JsString.nl) ;;
    current <- read currentPrompt ;;
    let params :=
      mkParams "gemini-2.5-flash"
        (CPlain ("Build a complete file structure for a project: " ++ current
                 ++ ". Return a JSON object with filenames and brief content descriptions."))
        None None (Some "application/json") in
    response_text <- call (EvGenerateContent params)
                          (fun i => generateContent env i params) ;;
    let projectMsg :=
      JsString.nl ++ "I've designed the project structure based on your request."
      ++ JsString.nl ++ JsString.nl ++ response_text
      ++ JsString.nl ++ JsString.nl
      ++ "(Switch to Co-Creator mode to fully hydrate and edit these files.)" in
    append_response projectMsg ;;
    onStreamChunk projectMsg ;;
    return_message.

(** [case 'STUDY':] *)
Definition hop_study : M Step :=
  if negb (isGoogleModel model) then continue_with SIMPLE
  else
    onStreamChunk (JsString.nl ++ "Creating study plan... " ++ JsString.nl) ;;
    current <- read currentPrompt ;;
    response <- generateContentStreamWithRetry env
                  (mkParams "gemini-2.5-flash"
                     (CPlain ("Create a structured study plan for: " ++ current
                              ++ ". Include learning objectives and key concepts."))
                     None None None)
                  3 notify_retry ;;
    stream_to_response response ;;
    return_message.

(** [history.map(...).filter(...)] of the SIMPLE branch, over the history
    without a trailing user turn. *)
Definition historyMessages : list Turn :=
  let history := in_history input in
  let historyWithoutLast :=
    match List.rev history with
    | lastMsg :: _ =>
        if String.eqb (h_sender lastMsg) "user" then List.removelast history
        else history
    | [] => history
    end in
  List.filter
    (fun m => negb (String.eqb (JsString.trim (content m)) ""))
    (List.map
       (fun msg =>
          mkTurn (if String.eqb (h_sender msg) "user" then "user"
                  else if cx_isNative cx then "model" else "assistant")
                 (h_text msg) [PText (h_text msg)])
       historyWithoutLast).

(** [for (const file of files)]: each file is read and its payload is put
    at the front of [userParts]. *)
Fixpoint read_files (files : list FileBlob) (userParts : list Part)
    : M (list Part) :=
  match files with
  | [] => ret userParts
  | file :: rest =>
      res <- lift (file_dataURL file) ;;
      let base64EncodedData :=
        List.nth_error (JsString.split (ascii_of_nat 44) res) 1 in
      read_files rest (PInline base64EncodedData (file_type file) :: userParts)
  end.

(** The turns sent to the model: the history and the user turn of this
    hop. *)
Definition turns_of_hop (current : string) : M (list Turn) :=
  match in_files input with
  | Some ((_ :: _) as files) =>
      if cx_isNative cx then
        userParts <- read_files files [PText current] ;;
        ret (historyMessages ++ [mkTurn "user" current userParts])%list
      else ret (historyMessages ++ [mkTurn "user" current [PText current]])%list
  | _ => ret (historyMessages ++ [mkTurn "user" current [PText current]])%list
  end.

Definition native_contents (turns : list Turn) : Contents :=
  CTurns (List.map (fun m => (role m, parts m)) turns).

(** [if (isNative) { ... } else { try { ... } catch (orError) { ... } }]:
    the generator of the hop and [usedFallback].  The [try] block maps the
    turns and calls the generator function; neither can throw. *)
Definition select_generator (systemPrompt : string) (turns : list Turn)
    : M (Generator * bool) :=
  if cx_isNative cx then
    g <- generateContentStreamWithRetry env
           (mkParams model (native_contents turns) (Some systemPrompt) None None)
           3 notify_retry ;;
    ret (NativeGen g, false)
  else
    try_catch
      (let msgs := List.map (fun m => (role m, content m)) turns in
       ret (OpenRouterGen
              (OpenRouter.streamOpenRouter env (in_openrouter_api_key input)
                 model msgs systemPrompt),
            false))
      (fun orError =>
         if (message_includes "unavailable" orError
             || message_includes "404" orError)%bool
         then
           console_warn "OpenRouter model failed, falling back to Gemini." ;;
           onStreamChunk (JsString.nl ++ "*(Model " ++ model
                          ++ " unavailable, switching to Gemini...)*"
                          ++ JsString.nl) ;;
           g <- generateContentStreamWithRetry env
                  (mkParams "gemini-2.5-flash" (native_contents turns)
                     (Some systemPrompt) None None)
                  3 notify_retry ;;
           ret (NativeGen g, true)
         else throw orError).

(** The three statements every non-empty chunk runs. *)
Definition take_text (t : string) : M unit :=
  update (fun s => set_generatedThisLoop (generatedThisLoop s ++ t) s) ;;
  append_response t ;;
  onStreamChunk t.

(** [metadataPayload.groundingMetadata.push(...groundingChunks)], the list
    being created when it is missing. *)
Definition push_grounding (chunks : list GroundingChunk) : M unit :=
  update (fun s =>
            set_metadataPayload
              (Some (match metadataPayload s with
                     | Some old => old ++ chunks
                     | None => chunks
                     end)%list) s).

(** [for await (const chunk of generator) { ... }] *)
Definition consume (generator : Generator) (usedFallback : bool) : M unit :=
  match generator with
  | NativeGen stream =>
      for_await stream
        (fun chunk =>
           match c_text chunk with
           | Some t =>
               if String.eqb t "" then ret tt
               else
                 take_text t ;;
                 if (cx_isNative cx || usedFallback)%bool then
                   match c_grounding chunk with
                   | Some chunks => push_grounding chunks
                   | None => ret tt
                   end
                 else ret tt
           | None => ret tt
           end)
  | OpenRouterGen body =>
      (* the first request for an item starts the body; a delta has a
         truthy [text] and no [candidates] *)
      stream <- body ;;
      for_await stream
        (fun delta => take_text (Js.to_string (OpenRouter.d_text delta)))
  end.

(** [case 'SIMPLE': default:] *)
Definition hop_simple : M Step :=
  let systemPrompt :=
    cx_instruction cx ++ JsString.nl ++ JsString.nl
    ++ "[MEMORY]" ++ JsString.nl ++ cx_memory cx
    ++ JsString.nl ++ JsString.nl ++ cx_dateTime cx in
  current <- read currentPrompt ;;
  turns <- turns_of_hop current ;;
  selected <- select_generator systemPrompt turns ;;
  update (set_generatedThisLoop "") ;;
  consume (fst selected) (snd selected) ;;
  generated <- read generatedThisLoop ;;
  match Directive.next_hop (cx_prompt cx) generated with
  | Some (action, nextPrompt) =>
      update (set_currentAction action) ;;
      update (set_currentPrompt nextPrompt) ;;
      match action with
      | IMAGE => update (set_routingPrompt (Some nextPrompt))
      | _ => ret tt
      end ;;
      ret Continue
  | None =>
      so_far <- read finalResponseText ;;
      context <- read fallbackSearchContext ;;
      (if (String.eqb (JsString.trim so_far) ""
           && negb (String.eqb context ""))%bool
       then update (set_finalResponseText context) ;; onStreamChunk context
       else ret tt) ;;
      return_message
  end.

(** The [switch (currentAction)] *)
Definition hop : M Step :=
  action <- read currentAction ;;
  match action with
  | SEARCH | DEEP_SEARCH => hop_search
  | THINK => hop_think
  | IMAGE => hop_image
  | CANVAS => hop_canvas
  | PROJECT => hop_project
  | STUDY => hop_study
  | SIMPLE => hop_simple
  end.

(** The body of the [while]: [loopCount++; switch (currentAction) ...] *)
Definition iteration : M Step :=
  update (fun s => set_loopCount (S (loopCount s)) s) ;;
  hop.

(** [while (loopCount < MAX_LOOPS) { ... }] and the [return] after it.
    [fuel] bounds the number of tests of the condition. *)
Fixpoint agent_loop (fuel : nat) : M AgentExecutionResult :=
  match fuel with
  | O => out_of_fuel
  | S fuel' =>
      n <- read loopCount ;;
      if Nat.ltb n MAX_LOOPS then
        step <- iteration ;;
        match step with
        | Continue => agent_loop fuel'
        | Return r => ret r
        end
      else result_message None
  end.

End Loop.

(** ** The handler *)

(** The text of the message the [catch] block returns. *)
Definition chosen_error_message (env : Env) (error : JsError) : string :=
  if message_includes "OpenRouter" error then
    match err_message error with
    | Some m => m
    | None => getUserFriendlyError env error
    end
  else getUserFriendlyError env error.

Definition error_text (env : Env) (error : JsError) : string :=
  "An error occurred: " ++ chosen_error_message env error.

(** The [try] block of [runAutonomousAgent]; [model] is the identifier after
    the defaulting that precedes the [try]. *)
Definition agent_turn (env : Env) (input : AgentInput) (model : string)
    : M AgentExecutionResult :=
  let isNative := isGoogleModel model in
  let openRouterKey := in_openrouter_api_key input in
  let key_missing := match openRouterKey with
                     | Some k => String.eqb k ""
                     | None => true
                     end in
  (if (negb isNative && key_missing)%bool
   then stream_chunk input
          (JsString.nl ++ "*(OpenRouter key missing, falling back to Gemini...)*"
           ++ JsString.nl)
   else ret tt) ;;
  let model := if (negb isNative && key_missing)%bool then default_model
               else model in
  (* [new Memory5Layer(supabase, user.id)] *)
  match in_user input with
  | None => throw (TypeError_read "id")
  | Some _ =>
      let prompt := in_prompt input in
      let youtube := youtubeMatch env prompt in
      let youtubeShort := youtubeShortMatch env prompt in
      let video :=
        match youtubeShort, youtube with
        | Some (whole, videoId), _ => Some ("Short", videoId, whole)
        | None, Some (whole, videoId) => Some ("Video", videoId, whole)
        | None, None => None
        end in
      let prompt :=
        match video with
        | Some (videoType, videoId, whole) =>
            "Find details for YouTube " ++ videoType ++ " ID: " ++ videoId
            ++ ". Title, Channel, and Summary. URL: " ++ whole
        | None => prompt
        end in
      let fileCount := match in_files input with
                       | Some files => List.length files
                       | None => 0
                       end in
      routing <- call (EvRoute prompt fileCount)
                      (fun i => route env i prompt fileCount) ;;
      let routing := match video with
                     | Some _ => mkRouting SEARCH None
                     | None => routing
                     end in
      memoryContext <- call EvGetContext (getContext env) ;;
      let dateTimeContext :=
        "[CURRENT DATE & TIME]" ++ JsString.nl ++ timestamp env ++ JsString.nl in
      let cx := mkContext input model isNative prompt memoryContext
                          dateTimeContext (baseSystemInstruction env model) in
      update (fun _ => mkLoop "" None "" (rt_action routing) prompt 0
                              (rt_prompt routing) "") ;;
      agent_loop env cx (S MAX_LOOPS)
  end.

(** [runAutonomousAgent] *)
Definition runAutonomousAgent (env : Env) (input : AgentInput)
    : M AgentExecutionResult :=
  let model :=
    match in_model input with
    | Some m => if String.eqb (JsString.trim m) "" then default_model else m
    | None => default_model
    end in
  try_catch (agent_turn env input model)
    (fun error =>
       console_error "Error in runAutonomousAgent:" ;;
       let errorMessage := chosen_error_message env error in
       pid <- id_of (in_project input) ;;
       cid <- id_of (in_chat input) ;;
       ret (mkResult
              [mkMessage pid cid "ai" ("An error occurred: " ++ errorMessage)
                         None None])).

(** ** The memory layers *)

(** [Memory5Layer] of [services/memoryService.ts], the two methods the
    handler's [getContext] call runs. *)
Module Memory.

(** A row of the [memories] table as [getAll] selects it: [content] and
    [metadata?.memory_key], [None] when the metadata or the key is missing.
    Keys are strings. *)
Record Row : Type := mkRow {
  row_key : option string;
  row_content : json
}.

(** What the query resolves to, [{ data, error }]: the rows, [None] for
    [null], and whether [error] is set. *)
Record Answer : Type := mkAnswer {
  data : option (list Row);
  error : bool
}.

(** An object used as a record.  [acc[key] = v] puts the pair in front, and
    a key is looked up from the front: the value found is the one assigned
    last.  The order in which the keys are enumerated is not modelled. *)
Definition Object (V : Type) : Type := list (string * V).

Definition assign {V} (key : string) (v : V) (o : Object V) : Object V :=
  (key, v) :: o.

Fixpoint lookup {V} (key : string) (o : Object V) : option V :=
  match o with
  | [] => None
  | (k, v) :: rest => if String.eqb key k then Some v else lookup key rest
  end.

(** [getAll(layer)], given what its query resolved to. *)
Definition getAll (answer : Answer) : Object json :=
  if error answer then []
  else
    match data answer with
    | None => []
    | Some rows =>
        List.fold_left
          (fun acc item =>
             match row_key item with
             | Some key =>
                 if String.eqb key "" then acc
                 else assign key (row_content item) acc
             | None => acc
             end)
          rows []
    end.

(** [getContext(layers)]: the layers are asked one after the other;
    [query layer] is what the query of [getAll(layer)] resolves to, or the
    error it rejects with. *)
Fixpoint getContext_from (query : string -> JsResult Answer)
    (layers : list string) (context : Object (Object json))
    : JsResult (Object (Object json)) :=
  match layers with
  | [] => Ok context
  | layer :: rest =>
      match query layer with
      | Err e => Err e
      | Ok answer =>
          getContext_from query rest (assign layer (getAll answer) context)
      end
  end.

Definition getContext (query : string -> JsResult Answer)
    (layers : list string) : JsResult (Object (Object json)) :=
  getContext_from query layers [].

End Memory.


(** ** The image service *)

(** [generateImage] of [services/geminiService.ts], which the IMAGE branch
    calls, with the [handleGeminiError] it ends in. *)
Module Gemini.

(** A value caught by a [catch], as [handleGeminiError] reads it:
    the error itself, [error?.error?.message] ([None] when undefined) and
    [JSON.stringify(error)] ([None] when undefined).  Messages are
    strings. *)
Record Caught : Type := mkCaught {
  caught : JsError;
  caught_inner_message : option string;
  caught_printed : option string
}.

(** An [Error] made by the service itself has no [error] property. *)
Definition own (e : JsError) : Caught := mkCaught e None None.

(** A promise of the SDK, settled. *)
Inductive Settled (A : Type) : Type :=
| Resolved (a : A)
| Rejected (c : Caught).
Arguments Resolved {A} a.
Arguments Rejected {A} c.

(** [geminiError?.message || (error instanceof Error ? error.message
    : JSON.stringify(error))]; [None] is [undefined]. *)
Definition errorMessage (c : Caught) : option string :=
  let own_message :=
    if err_is_Error (caught c) then err_message (caught c)
    else caught_printed c in
  match caught_inner_message c with
  | Some m => if String.eqb m "" then own_message else Some m
  | None => own_message
  end.

(** [toLowerCase] of a code unit; the contexts are ASCII literals. *)
Definition lower (c : ascii) : ascii :=
  let n := nat_of_ascii c in
  if (Nat.leb 65 n && Nat.leb n 90)%bool then ascii_of_nat (n + 32) else c.

Fixpoint toLowerCase (s : string) : string :=
  match s with
  | EmptyString => EmptyString
  | String c s' => String (lower c) (toLowerCase s')
  end.

Definition connection_failed : string :=
  "AI service connection failed. Please check your internet connection and disable any browser extensions (like ad-blockers), then try again.".

Definition key_not_valid : string :=
  "Your API key is not valid. Please check it in your settings.".

Definition quota_exceeded : string :=
  "You've exceeded your API quota. Please try again later.".

(** [handleGeminiError(error, context)]: the error it throws.  It returns
    to nobody. *)
Definition handleGeminiError (error : Caught) (context : string) : JsError :=
  match errorMessage error with
  | None => TypeError_read "includes"
  | Some errorMessage =>
      if (JsString.includes "Rpc failed" errorMessage
          || JsString.includes "fetch" errorMessage)%bool
      then new_Error connection_failed
      else if JsString.includes "API key not valid" errorMessage
      then new_Error key_not_valid
      else if (JsString.includes "quota" errorMessage
               || JsString.includes "429" errorMessage)%bool
      then new_Error quota_exceeded
      else new_Error ("An error occurred in " ++ toLowerCase context
                      ++ ". Details: " ++ errorMessage)
  end.

(** The responses of the SDK, the fields [generateImage] reads. *)
Record Image : Type := mkImage { imageBytes : option string }.

Record GeneratedImage : Type := mkGenerated { image : option Image }.

Record ImagesResponse : Type := mkImages {
  generatedImages : option (list GeneratedImage)
}.

Record InlineData : Type := mkInline { data : option string }.

Record ImagePart : Type := mkPart { inlineData : option InlineData }.

Record Content : Type := mkContent { parts : option (list ImagePart) }.

Record Candidate : Type := mkCandidate { content : option Content }.

(** [candidates] and [parts] are arrays when they are there; an element of
    [candidates] may be missing. *)
Record ContentResponse : Type := mkResponse {
  candidates : option (list (option Candidate))
}.

(** [ai.models], the two calls of [generateImage]. *)
Record Models : Type := mkModels {
  (** [generateImages({ model: 'imagen-4.0-generate-001', prompt, ... })] *)
  generateImages : string -> Settled ImagesResponse;
  (** [generateContent({ model: 'gemini-2.5-flash-image', contents, ... })];
      [None] is a response that is not there *)
  generateContent : string -> Settled (option ContentResponse)
}.

Definition isImagen (model : string) : bool :=
  (String.eqb model "imagen_2" || String.eqb model "imagen_3"
   || String.eqb model "imagen_4")%bool.

(** The [try] block of the primary attempt: the image it returns, or [None]
    when the block ends without [return], by falling through or by a throw
    that its [catch] swallows. *)
Definition imagen (ai : Models) (prompt : string) : option (option string) :=
  match generateImages ai prompt with
  | Rejected _ => None
  | Resolved response =>
      match generatedImages response with
      | Some (first :: _) =>
          match image first with
          | Some img => Some (imageBytes img)
          | None => None       (* reading [imageBytes] throws *)
          end
      | _ => None
      end
  end.

(** [for (const part of parts)]: the first part with data. *)
Fixpoint first_data (parts : list ImagePart) : option string :=
  match parts with
  | [] => None
  | part :: rest =>
      match inlineData part with
      | Some inline =>
          match data inline with
          | Some d => if String.eqb d "" then first_data rest else Some d
          | None => first_data rest
          end
      | None => first_data rest
      end
  end.

(** The [try] block of the second attempt: the image, or what it throws. *)
Definition nano_banana (ai : Models) (prompt : string)
    : Settled string :=
  match generateContent ai prompt with
  | Rejected c => Rejected c
  | Resolved None =>
      Rejected (own (new_Error "No response received from AI service."))
  | Resolved (Some response) =>
      match candidates response with
      | Some (firstCandidate :: _) =>
          match firstCandidate with
          | Some (mkCandidate (Some content)) =>
              match parts content with
              | Some ((_ :: _) as parts) =>
                  match first_data parts with
                  | Some d => Resolved d
                  | None =>
                      Rejected (own (new_Error
                        "Nano Banana model did not return an image. The prompt might have been blocked or the service is busy."))
                  end
              | _ => Rejected (own (new_Error "Content parts are missing."))
              end
          | _ => Rejected (own (new_Error "Candidate content is missing."))
          end
      | _ =>
          Rejected (own (new_Error
            "The AI service could not generate an image for this prompt. It may have been flagged by safety filters."))
      end
  end.

(** [generateImage(prompt, apiKey, model = 'nano_banana')]:
    [{ imageBase64, fallbackOccurred }], or the error it rejects with. *)
Definition generateImage (ai : Models) (prompt : string)
    (model : option string) : JsResult (option string * bool) :=
  let model := match model with
               | Some m => m
               | None => "nano_banana"
               end in
  let second (fallbackOccurred : bool) :=
    match nano_banana ai prompt with
    | Resolved d => Ok (Some d, fallbackOccurred)
    | Rejected error => Err (handleGeminiError error "Error generating image")
    end in
  if isImagen model then
    match imagen ai prompt with
    | Some imageBase64 => Ok (imageBase64, false)
    | None => second true
    end
  else second false.

End Gemini.


(** ** Test doubles *)

(** Collaborators and inputs for the concrete runs of Part II. *)
Module Fixture.

Definition is_blank (c : ascii) : bool :=
  let n := nat_of_ascii c in
  (Nat.eqb n 32 || Nat.eqb n 9 || Nat.eqb n 10 || Nat.eqb n 13)%bool.

Fixpoint skip_blanks (s : string) : string :=
  match s with
  | String c s' => if is_blank c then skip_blanks s' else s
  | EmptyString => s
  end.

(** The characters of a string literal up to its closing quote; escapes
    are refused. *)
Fixpoint quoted (s : string) : option (string * string) :=
  match s with
  | EmptyString => None
  | String c s' =>
      if Ascii.eqb c (ascii_of_nat 34) then Some (EmptyString, s')
      else if Ascii.eqb c (ascii_of_nat 92) then None
      else match quoted s' with
           | Some (t, rest) => Some (String c t, rest)
           | None => None
           end
  end.

Fixpoint digits (s : string) (acc : Z) : Z * string :=
  match s with
  | String c s' =>
      let n := nat_of_ascii c in
      if (Nat.leb 48 n && Nat.leb n 57)%bool
      then digits s' (10 * acc + Z.of_nat (n - 48))%Z
      else (acc, s)
  | EmptyString => (acc, s)
  end.

(** A parser for the JSON of the fixtures: objects, arrays, strings
    without escapes, natural numbers, [true], [false], [null]. *)
Fixpoint value (fuel : nat) (s : string) : option (json * string) :=
  match fuel with
  | O => None
  | S fuel' =>
      match skip_blanks s with
      | String c rest =>
          let n := nat_of_ascii c in
          if Nat.eqb n 123 then                       (* object *)
            match skip_blanks rest with
            | String d rest' =>
                if Nat.eqb (nat_of_ascii d) 125 then Some (JObj [], rest')
                else members fuel' (skip_blanks rest)
            | EmptyString => None
            end
          else if Nat.eqb n 91 then                   (* array *)
            match skip_blanks rest with
            | String d rest' =>
                if Nat.eqb (nat_of_ascii d) 93 then Some (JArr [], rest')
                else elements fuel' (skip_blanks rest)
            | EmptyString => None
            end
          else if Nat.eqb n 34 then
            match quoted rest with
            | Some (t, rest') => Some (JStr t, rest')
            | None => None
            end
          else if (Nat.leb 48 n && Nat.leb n 57)%bool then
            let (z, rest') := digits (String c rest) 0%Z in
            Some (JNum z, rest')
          else if String.prefix "true" (String c rest)
            then Some (JBool true, JsString.drop 4 (String c rest))
          else if String.prefix "false" (String c rest)
            then Some (JBool false, JsString.drop 5 (String c rest))
          else if String.prefix "null" (String c rest)
            then Some (JNull, JsString.drop 4 (String c rest))
          else None
      | EmptyString => None
      end
  end
with elements (fuel : nat) (s : string) : option (json * string) :=
  match fuel with
  | O => None
  | S fuel' =>
      match value fuel' s with
      | Some (v, rest) =>
          match skip_blanks rest with
          | String c rest' =>
              if Nat.eqb (nat_of_ascii c) 93 then Some (JArr [v], rest')
              else if Nat.eqb (nat_of_ascii c) 44 then
                match elements fuel' rest' with
                | Some (JArr vs, rest'') => Some (JArr (v :: vs), rest'')
                | _ => None
                end
              else None
          | EmptyString => None
          end
      | None => None
      end
  end
with members (fuel : nat) (s : string) : option (json * string) :=
  match fuel with
  | O => None
  | S fuel' =>
      match skip_blanks s with
      | String q rest =>
          if Nat.eqb (nat_of_ascii q) 34 then
            match quoted rest with
            | Some (k, rest1) =>
                match skip_blanks rest1 with
                | String colon rest2 =>
                    if Nat.eqb (nat_of_ascii colon) 58 then
                      match value fuel' rest2 with
                      | Some (v, rest3) =>
                          match skip_blanks rest3 with
                          | String c rest4 =>
                              if Nat.eqb (nat_of_ascii c) 125
                              then Some (JObj [(k, v)], rest4)
                              else if Nat.eqb (nat_of_ascii c) 44 then
                                match members fuel' rest4 with
                                | Some (JObj kvs, rest5) =>
                                    Some (JObj ((k, v) :: kvs), rest5)
                                | _ => None
                                end
                              else None
                          | EmptyString => None
                          end
                      | None => None
                      end
                    else None
                | EmptyString => None
                end
            | None => None
            end
          else None
      | EmptyString => None
      end
  end.

Definition parse (s : string) : option json :=
  match value (S (String.length s)) s with
  | Some (v, rest) =>
      match skip_blanks rest with
      | EmptyString => Some v
      | _ => None
      end
  | None => None
  end.

(** A printer for JSON values whose strings need no escape. *)
Fixpoint print (v : json) : string :=
  match v with
  | JNull => "null"
  | JBool true => "true"
  | JBool false => "false"
  | JNum z => JsString.of_Z z
  | JStr s => JsString.dq ++ s ++ JsString.dq
  | JArr items => "[" ++ String.concat "," (List.map print items) ++ "]"
  | JObj fields =>
      "{" ++ String.concat ","
               (List.map (fun kv => JsString.dq ++ fst kv ++ JsString.dq
                                    ++ ":" ++ print (snd kv)) fields)
      ++ "}"
  end.

(** An environment built from the four services the runs vary; the others
    answer in the plainest way. *)
Definition env_of
    (route_ : nat -> string -> nat -> JsResult RoutingDecision)
    (deepResearch_ : nat -> string -> list string * JsResult ResearchResult)
    (generateContentStream_ : nat -> NativeParams -> JsResult NativeStream)
    (fetch_ : nat -> OpenRouterRequest -> JsResult HttpResponse) : Env :=
  {| JSON_parse := parse;
     JSON_stringify := print;
     getUserFriendlyError :=
       (fun e => match err_message e with
                 | Some m => "Something went wrong (" ++ m ++ ")"
                 | None => "Something went wrong"
                 end);
     baseSystemInstruction := (fun m => "You are Bubble, running on " ++ m);
     timestamp := "Sunday, November 1, 2026 at 10:00:00 AM UTC";
     youtubeMatch := (fun _ => None);
     youtubeShortMatch := (fun _ => None);
     url_hostname := (fun _ => None);
     route := route_;
     getContext := (fun _ => Ok "{}");
     deepResearch := deepResearch_;
     incrementThinkingCount := (fun _ => Ok tt);
     generateContentStream := generateContentStream_;
     generateContent := (fun _ _ => Ok "{}");
     generateImage := (fun _ _ _ => Ok "aW1hZ2U=");
     runCanvasAgent := (fun _ _ => Ok []);
     fetch := fetch_ |}.

Definition route_to (a : RouterAction)
    : nat -> string -> nat -> JsResult RoutingDecision :=
  fun _ _ _ => Ok (mkRouting a None).

Definition no_research : nat -> string -> list string * JsResult ResearchResult :=
  fun _ _ => ([], Ok (mkResearch "" None)).

Definition say (t : string) : nat -> NativeParams -> JsResult NativeStream :=
  fun _ _ => Ok (mkStream [mkChunk (Some t) None] None).

Definition no_fetch : nat -> OpenRouterRequest -> JsResult HttpResponse :=
  fun _ _ => Err (new_Error "Failed to fetch").

(** A turn on [model] with an OpenRouter key [key], a sink, and the
    project, chat and user present. *)
Definition input_on (model : string) (key : option string) : AgentInput :=
  {| in_prompt := "hello";
     in_files := None;
     in_apiKey := "google-key";
     in_project := Some "project-1";
     in_chat := Some "chat-1";
     in_history := [];
     in_user := Some "user-1";
     in_openrouter_api_key := key;
     in_preferred_image_model := None;
     in_has_sink := true;
     in_model := Some model |}.

Definition fresh_vars : LoopState := mkLoop "" None "" SIMPLE "" 0 None "".

Definition fresh : World := mkWorld 0 [] fresh_vars.

Definition quota_error : JsError :=
  {| err_is_Error := true; err_status := Some 429%Z;
     err_message := Some "Resource has been exhausted (e.g. check quota)." |}.

Definition plain_params : NativeParams :=
  mkParams "gemini-2.5-flash" (CPlain "hello") None None None.

End Fixture.

(** ** Vocabulary of the statements *)

(** The retry notice as the call sites pass it: it goes to the sink. *)
Definition to_sink (msg : string) : M unit := emit (EvSink msg).

(** The warning [generateContentStreamWithRetry] logs for a missing model. *)
Definition model_warning (params : NativeParams) : list Event :=
  if String.eqb (np_model params) "" then [EvConsoleWarn default_model_warning]
  else [].

(** C5 as the specification words it: when every attempt, 0 to [retries],
    meets a rate limit, the call fails with "Max retries exceeded". *)
Definition exhaustion_as_specified (env : Env) (params : NativeParams)
    (retries : nat) (w : World) : Prop :=
  (forall i, i <= retries ->
     exists e,
       generateContentStream env (calls w + i) (with_default_model params)
         = Err e /\ isQuotaError e = true) ->
  fst (generateContentStreamWithRetry env params (Z.of_nat retries)
         (Some to_sink) w) = Throw max_retries_error.

(** The number of times the usage counter was called in a trace. *)
Fixpoint thinking_calls (t : list Event) : nat :=
  match t with
  | [] => 0
  | EvIncrementThinkingCount :: rest => S (thinking_calls rest)
  | _ :: rest => thinking_calls rest
  end.

(** The model qualifies for the THINK branch. *)
Definition qualifies (model : string) : bool :=
  (isGoogleModel model && JsString.includes "gemini-2.5" model)%bool.

(** The identifier the [try] block starts from. *)
Definition initial_model (input : AgentInput) : string :=
  match in_model input with
  | Some m => if String.eqb (JsString.trim m) "" then default_model else m
  | None => default_model
  end.

(** [m] is a computation that never uses up its fuel, relates the world
    before and after by [I], and returns values in [Q]. *)
Definition stable {A} (I : World -> World -> Prop) (Q : A -> Prop) (m : M A)
    : Prop :=
  forall w,
    match m w with
    | (Ret a, w') => I w w' /\ Q a
    | (Throw _, w') => I w w'
    | (OutOfFuel, _) => False
    end.

Definition any {A} : A -> Prop := fun _ => True.

(** A generator whose suspended body, if it has one, is stable. *)
Definition stable_generator (I : World -> World -> Prop)
    (g : Generator * bool) : Prop :=
  match fst g with
  | NativeGen _ => True
  | OpenRouterGen body => stable I any body
  end.

(** The world after [k] iterations of the loop body that all end in
    [continue]; [None] when one of them returns or throws. *)
Fixpoint continues (env : Env) (cx : Context) (k : nat) (w : World)
    : option World :=
  match k with
  | O => Some w
  | S k' =>
      match iteration env cx w with
      | (Ret Continue, w') => continues env cx k' w'
      | _ => None
      end
  end.

(** The number of times [agent_loop] runs the loop body. *)
Fixpoint iterations (env : Env) (cx : Context) (fuel : nat) (w : World) : nat :=
  match fuel with
  | O => 0
  | S fuel' =>
      if Nat.ltb (loopCount (vars w)) MAX_LOOPS then
        match iteration env cx w with
        | (Ret Continue, w') => S (iterations env cx fuel' w')
        | _ => 1
        end
      else 0
  end.

(** *** Shapes of generated text *)

(** The canonical form the [i] flag compares. *)
Fixpoint upper (s : string) : string :=
  match s with
  | EmptyString => EmptyString
  | String c s' => String (JsString.upcase c) (upper s')
  end.

(** [a] and [b] are the same text, exactly or under the [i] flag. *)
Definition same_text (ci : bool) (a b : string) : Prop :=
  if ci then upper a = upper b else a = b.

Fixpoint all_chars (P : ascii -> bool) (s : string) : bool :=
  match s with
  | EmptyString => true
  | String c s' => (P c && all_chars P s')%bool
  end.

(** A text the atom [.] can run over. *)
Definition one_line (s : string) : Prop :=
  all_chars (fun c => negb (JsString.is_line_terminator c)) s = true.

(** A non-empty run of white space. *)
Definition blank_run (s : string) : Prop :=
  s <> EmptyString /\ all_chars JsString.is_space s = true.

(** [g] contains the pair of tags [<name>payload</name>], on one line. *)
Definition has_tag (name g payload : string) : Prop :=
  exists pre post,
    g = pre ++ ("<" ++ name ++ ">") ++ payload ++ ("</" ++ name ++ ">") ++ post
    /\ one_line payload.

(** [g] contains a SEARCH tag, in any letter case, whose content is the word
    "deep" (in any letter case), white space, and [payload]. *)
Definition has_deep_search (g payload : string) : Prop :=
  exists pre opening spaces closing post,
    g = pre ++ opening ++ spaces ++ payload ++ closing ++ post
    /\ same_text true opening "<SEARCH>deep"
    /\ blank_run spaces
    /\ one_line payload
    /\ same_text true closing "</SEARCH>".

(** *** The directive scan as an ordered list *)

(** An extractor proposes the next hop for a generated text. *)
Definition Extractor : Type := string -> option (RouterAction * string).

Definition on_tag (name : string) (action : RouterAction) : Extractor :=
  fun g => option_map (fun p => (action, p)) (Directive.tag name g).

(** The first extractor of the list that proposes something decides. *)
Fixpoint first_match (extractors : list Extractor) (g : string)
    : option (RouterAction * string) :=
  match extractors with
  | [] => None
  | x :: rest =>
      match x g with
      | Some hop => Some hop
      | None => first_match rest g
      end
  end.

(** C6 as the specification words it: the seven tags in their order, the
    captured payload as the next prompt, the prompt of the turn for a THINK
    without payload. *)
Definition think_as_specified (prompt : string) : Extractor :=
  fun g =>
    match Directive.tag "THINK" g with
    | Some p => Some (THINK, if String.eqb p "" then prompt else p)
    | None => if JsString.includes "<THINK>" g then Some (THINK, prompt)
              else None
    end.

Definition next_hop_as_specified (prompt : string) : Extractor :=
  first_match
    [ on_tag "DEEP" DEEP_SEARCH;
      on_tag "SEARCH" SEARCH;
      think_as_specified prompt;
      on_tag "IMAGE" IMAGE;
      on_tag "PROJECT" PROJECT;
      on_tag "CANVAS" CANVAS;
      on_tag "STUDY" STUDY ].

(** C6 as the code has it: DEEP also stands for a SEARCH tag that starts
    with "deep", and the payload of THINK is trimmed. *)
Definition deep_extractor : Extractor :=
  first_match
    [ on_tag "DEEP" DEEP_SEARCH;
      fun g => option_map (fun p => (DEEP_SEARCH, p)) (Directive.deep_search g) ].

Definition think_extractor (prompt : string) : Extractor :=
  fun g =>
    match Directive.tag "THINK" g with
    | Some p =>
        Some (THINK, if String.eqb p "" then prompt else JsString.trim p)
    | None => if JsString.includes "<THINK>" g then Some (THINK, prompt)
              else None
    end.

Definition directives_in_priority (prompt : string) : list Extractor :=
  [ deep_extractor;
    on_tag "SEARCH" SEARCH;
    think_extractor prompt;
    on_tag "IMAGE" IMAGE;
    on_tag "PROJECT" PROJECT;
    on_tag "CANVAS" CANVAS;
    on_tag "STUDY" STUDY ].

(** *** The sample of the aggregator's event stream *)

(** The text [{"choices":[{"delta":{"content":"Hi"}}]}] *)
Definition hi_json : string :=
  "{" ++ JsString.dq ++ "choices" ++ JsString.dq ++ ":[{"
  ++ JsString.dq ++ "delta" ++ JsString.dq ++ ":{"
  ++ JsString.dq ++ "content" ++ JsString.dq ++ ":"
  ++ JsString.dq ++ "Hi" ++ JsString.dq ++ "}}]}".

(** The value that text denotes. *)
Definition hi_value : json :=
  JObj [("choices", JArr [JObj [("delta", JObj [("content", JStr "Hi")])]])].

(** The body: the event line, a blank line, the sentinel line, each ended by
    a line feed. *)
Definition sample_body : string :=
  "data: " ++ hi_json ++ JsString.nl ++ JsString.nl
  ++ "data: [DONE]" ++ JsString.nl.

(** The lines of a body that a line feed has ended. *)
Definition complete_lines (body : string) : list string :=
  List.removelast (JsString.split JsString.LF body).

(** *** Concrete runs *)

Module Scenario.

Import Fixture.

(** The context [agent_turn] builds for an input whose memory is empty. *)
Definition context_of (env : Env) (input : AgentInput) : Context :=
  let model := initial_model input in
  mkContext input model (isGoogleModel model) (in_prompt input) "{}"
    ("[CURRENT DATE & TIME]" ++ JsString.nl ++ timestamp env ++ JsString.nl)
    (baseSystemInstruction env model).

(** The world at the first test of the loop condition. *)
Definition started (action : RouterAction) (prompt : string) : World :=
  mkWorld 2 [EvRoute prompt 0; EvGetContext]
          (mkLoop "" None "" action prompt 0 None "").

(** A model that asks for a search each time it speaks. *)
Definition searching_env : Env :=
  env_of (route_to SIMPLE)
    (fun _ _ => ([], Ok (mkResearch "Light rain, 12 degrees."
                           (Some ["https://www.meteo.example/paris"]))))
    (say "<SEARCH>weather in Paris</SEARCH>")
    no_fetch.

Definition native_input : AgentInput := input_on "gemini-2.5-flash" None.

Definition searching_context : Context :=
  context_of searching_env native_input.

Definition after_six_hops : World :=
  match continues searching_env searching_context 6 (started SIMPLE "hello") with
  | Some w => w
  | None => fresh
  end.

(** The aggregator answers 404, "No allowed providers". *)
Definition unavailable_response : HttpResponse :=
  mkResponse false 404
    (Ok (JObj [("error",
                JObj [("message",
                       JStr "No allowed providers are available for the selected model.");
                      ("code", JNum 404)])]))
    (Ok "") None.

Definition aggregator_model : string := "meta-llama/llama-3.1-8b-instruct".

Definition unavailable_env : Env :=
  env_of (route_to SIMPLE) no_research (say "Hello from Gemini.")
         (fun _ _ => Ok unavailable_response).

Definition aggregator_input : AgentInput :=
  input_on aggregator_model (Some "sk-or-v1-key").

Definition aggregator_request : OpenRouterRequest :=
  mkRequest (Some "sk-or-v1-key") aggregator_model [("user", "hello")]
    (baseSystemInstruction unavailable_env aggregator_model
     ++ JsString.nl ++ JsString.nl ++ "[MEMORY]" ++ JsString.nl ++ "{}"
     ++ JsString.nl ++ JsString.nl
     ++ "[CURRENT DATE & TIME]" ++ JsString.nl
     ++ timestamp unavailable_env ++ JsString.nl).

(** The model answers with citations and asks for a search; the search
    fails. *)
Definition first_words : string := "Let me check. <SEARCH>rain</SEARCH>".

Definition cited : GroundingChunk := mkGrounding "https://a.example" "a.example".

Definition failing_search_env : Env :=
  env_of (route_to SIMPLE)
    (fun _ _ => (["Reading sources"], Err (new_Error "Network request failed")))
    (fun _ _ => Ok (mkStream [mkChunk (Some first_words) (Some [cited])] None))
    no_fetch.

Definition failed_turn : Outcome AgentExecutionResult * World :=
  agent_turn failing_search_env native_input (initial_model native_input) fresh.

(** A THINK hop on an aggregator model, and one on a native model. *)
Definition plain_env : Env :=
  env_of (route_to THINK) no_research (say "Forty-two.") no_fetch.

Definition aggregator_context : Context :=
  context_of plain_env (input_on "openai/gpt-4o" (Some "sk-or-v1-key")).

Definition native_context : Context := context_of plain_env native_input.

(** The native provider limits the rate of the first [n] calls. *)
Definition limited_env (n : nat) : Env :=
  env_of (route_to SIMPLE) no_research
    (fun i _ => if Nat.ltb i n then Err quota_error
                else Ok (mkStream [mkChunk (Some "Hello.") None] None))
    no_fetch.

Definition always_limited_env : Env :=
  env_of (route_to SIMPLE) no_research (fun _ _ => Err quota_error) no_fetch.

(** Texts with directives. *)
Definition search_and_deep : string :=
  "<SEARCH>weather in Paris</SEARCH> and <DEEP>fusion energy</DEEP>".

Definition deep_in_search : string :=
  "Let me look. <search>Deep   sea creatures</SEARCH>".

(** The sample body, cut in the middle of its sentinel line. *)
Definition two_chunks : list string :=
  [ "data: " ++ hi_json ++ JsString.nl ++ JsString.nl ++ "data: [D";
    "ONE]" ++ JsString.nl ].

(** The aggregator streams the sample body in these two chunks. *)
Definition streaming_response : HttpResponse :=
  mkResponse true 200 (Err (new_Error "Unexpected token d in JSON"))
             (Ok "") (Some (mkStream two_chunks None)).

Definition streaming_env : Env :=
  env_of (route_to SIMPLE) no_research (say "Hello.")
         (fun _ _ => Ok streaming_response).

End Scenario.

(** *** Budgets of the retry loop *)

(** The milliseconds a trace spends in [setTimeout]. *)
Fixpoint sleep_total (t : list Event) : Z :=
  match t with
  | [] => 0%Z
  | EvSleep ms :: rest => (ms + sleep_total rest)%Z
  | _ :: rest => sleep_total rest
  end.

(** The sum of the backoff delays of attempts [0] to [n - 1]:
    [2000 * (2^n - 1) + 1000 * n]. *)
Definition backoff_budget (n : nat) : Z :=
  (2000 * (2 ^ Z.of_nat n - 1) + 1000 * Z.of_nat n)%Z.

(** A text without line feed. *)
Definition no_line_feed (s : string) : Prop :=
  all_chars (fun c => negb (Ascii.eqb c JsString.LF)) s = true.

(** The fields of [errorData.error] that make the adapter report an
    unavailable model on a 404: a message with "No allowed providers", or
    the code 404 beside a message that is a string or absent. *)
Definition reports_no_providers (fields : list (string * json)) : Prop :=
  (exists s, Js.field "message" fields = Some (JStr s)
             /\ JsString.includes "No allowed providers" s = true)
  \/ (Js.field "code" fields = Some (JNum 404)
      /\ (Js.field "message" fields = None
          \/ exists s, Js.field "message" fields = Some (JStr s))).


(** *** Words for the branches of the loop *)

(** The events [chunks] leave on the trace when they go to the sink of
    [input]. *)
Definition sunk (input : AgentInput) (chunks : list string) : list Event :=
  if in_has_sink input then List.map EvSink chunks else [].

(** [routing.parameters?.prompt || currentPrompt] *)
Definition image_prompt (s : LoopState) : string :=
  match routingPrompt s with
  | Some p => if String.eqb p "" then currentPrompt s else p
  | None => currentPrompt s
  end.

(** The note the IMAGE branch appends when the image cannot be made. *)
Definition image_failure_note (e : JsError) : string :=
  JsString.nl ++ JsString.nl ++ "(Image generation failed: "
  ++ (if err_is_Error e
      then match err_message e with
           | Some m => m
           | None => "undefined"
           end
      else "Unknown error")
  ++ ")".

(** The prompt the SEARCH branch hands to the SIMPLE hop that follows. *)
Definition synthesis_prompt (query answer : string) : string :=
  "USER QUERY: " ++ query ++ JsString.nl ++ JsString.nl
  ++ "SEARCH CONTEXT:" ++ JsString.nl ++ answer
  ++ JsString.nl ++ JsString.nl
  ++ "INSTRUCTIONS: Synthesize a comprehensive answer to the user's query based ONLY on the provided search context. Cite sources using [1], [2] format where appropriate.".

(** The texts of the chunks that have one. *)
Fixpoint spoken (chunks : list NativeChunk) : list string :=
  match chunks with
  | [] => []
  | chunk :: rest =>
      match c_text chunk with
      | Some t => if String.eqb t "" then spoken rest else t :: spoken rest
      | None => spoken rest
      end
  end.

(** The citations of the chunks that have a text, added in order to the
    payload [acc]. *)
Fixpoint cited_by (chunks : list NativeChunk)
    (acc : option (list GroundingChunk)) : option (list GroundingChunk) :=
  match chunks with
  | [] => acc
  | chunk :: rest =>
      match c_text chunk, c_grounding chunk with
      | Some t, Some g =>
          if String.eqb t "" then cited_by rest acc
          else cited_by rest (Some (match acc with
                                    | Some old => old ++ g
                                    | None => g
                                    end)%list)
      | _, _ => cited_by rest acc
      end
  end.

(** *** Concrete inputs for Part III *)

Module Sample.

Import Fixture.

(** [base] with its image service, its canvas sub-agent and its two video
    patterns replaced. *)
Definition with_services (base : Env)
    (image : nat -> string -> option string -> JsResult string)
    (canvas : nat -> string -> JsResult (list Message))
    (video short : string -> option (string * string)) : Env :=
  {| JSON_parse := JSON_parse base;
     JSON_stringify := JSON_stringify base;
     getUserFriendlyError := getUserFriendlyError base;
     baseSystemInstruction := baseSystemInstruction base;
     timestamp := timestamp base;
     youtubeMatch := video;
     youtubeShortMatch := short;
     url_hostname := url_hostname base;
     route := route base;
     getContext := getContext base;
     deepResearch := deepResearch base;
     incrementThinkingCount := incrementThinkingCount base;
     generateContentStream := generateContentStream base;
     generateContent := generateContent base;
     generateImage := image;
     runCanvasAgent := canvas;
     fetch := fetch base |}.

Definition no_video : string -> option (string * string) := fun _ => None.

(** The body of a 404 that names no provider. *)
Definition no_providers_fields : list (string * json) :=
  [("message", JStr "No allowed providers are available for the selected model.");
   ("code", JNum 404)].


(** Two events, the second without its line feed. *)
Definition cut_short : list string :=
  [ "data: " ++ hi_json ++ JsString.nl; "data: " ++ hi_json ].

(** An event after the sentinel. *)
Definition after_sentinel : list string :=
  [ JsString.nl ++ "data: [DONE]" ++ JsString.nl;
    "data: " ++ hi_json ++ JsString.nl ].

(** The image service is out of quota; the canvas sub-agent answers. *)
Definition canvas_answer : Message :=
  mkMessage "project-1" "chat-1" "ai" "Here is your canvas." None None.

Definition studio_env : Env :=
  with_services Scenario.plain_env
    (fun _ _ _ => Err (new_Error "You've exceeded your API quota. Please try again later."))
    (fun _ _ => Ok [canvas_answer])
    no_video no_video.

(** A world in the middle of a turn: some text and a citation are there. *)
Definition midway (action : RouterAction) : World :=
  mkWorld 3 [EvRoute "hello" 0; EvGetContext]
    (mkLoop "Working on it." (Some [Scenario.cited]) "" action
            "a red bicycle" 1 None "").


(** A turn whose chat is gone. *)
Definition orphan_input : AgentInput :=
  {| in_prompt := "hello";
     in_files := None;
     in_apiKey := "google-key";
     in_project := Some "project-1";
     in_chat := None;
     in_history := [];
     in_user := Some "user-1";
     in_openrouter_api_key := None;
     in_preferred_image_model := None;
     in_has_sink := true;
     in_model := Some "gemini-2.5-flash" |}.


(** A native model that answers with white space only. *)
Definition silent_chunks : list NativeChunk :=
  [mkChunk None None; mkChunk (Some "  ") (Some [Scenario.cited])].

Definition silent_env : Env :=
  env_of (route_to SIMPLE) no_research
    (fun _ _ => Ok (mkStream silent_chunks None)) no_fetch.

Definition silent_context : Context :=
  Scenario.context_of silent_env Scenario.native_input.

(** The world a search hop has left. *)
Definition after_search : World :=
  mkWorld 3 [EvRoute "hello" 0; EvGetContext; EvDeepResearch "hello"]
    (mkLoop "" None "Light rain, 12 degrees." SIMPLE
            (synthesis_prompt "hello" "Light rain, 12 degrees.") 1 None "").

(** A native stream that breaks off after its first chunk. *)
Definition broken_chunks : list NativeChunk :=
  [mkChunk (Some "One moment. <SEARCH>rain</SEARCH>") None].

Definition connection_lost : JsError := new_Error "Connection lost".

Definition breaking_env : Env :=
  env_of (route_to SIMPLE) no_research
    (fun _ _ => Ok (mkStream broken_chunks (Some connection_lost))) no_fetch.

Definition breaking_context : Context :=
  Scenario.context_of breaking_env Scenario.native_input.


Definition unavailable_context : Context :=
  Scenario.context_of Scenario.unavailable_env Scenario.aggregator_input.

Definition streaming_context : Context :=
  Scenario.context_of Scenario.streaming_env Scenario.aggregator_input.


(** A prompt with a video link, and the answer of the general pattern. *)
Definition video_question : string := "Summarise https://youtu.be/dQw4w9WgXcQ".

Definition video_input : AgentInput :=
  {| in_prompt := video_question;
     in_files := None;
     in_apiKey := "google-key";
     in_project := Some "project-1";
     in_chat := Some "chat-1";
     in_history := [];
     in_user := Some "user-1";
     in_openrouter_api_key := None;
     in_preferred_image_model := None;
     in_has_sink := true;
     in_model := Some "gemini-2.5-flash" |}.

Definition video_env : Env :=
  with_services Scenario.searching_env
    (generateImage Scenario.searching_env)
    (runCanvasAgent Scenario.searching_env)
    (fun prompt => if String.eqb prompt video_question
                   then Some ("youtu.be/dQw4w9WgXcQ", "dQw4w9WgXcQ")
                   else None)
    no_video.

(** A model of the aggregator, and no key for it. *)
Definition keyless_input : AgentInput := input_on "openai/gpt-4o" None.


(** A picture and a text file, attached to a turn on a native model. *)
Definition picture : FileBlob :=
  mkFile "image/png" (Ok "data:image/png;base64,iVBORw0KGgo=").

Definition notes : FileBlob :=
  mkFile "text/plain" (Ok "data:text/plain;base64,aGVsbG8=").

Definition unreadable : FileBlob :=
  mkFile "image/jpeg" (Err (new_Error "NotReadableError")).

Definition input_with (files : list FileBlob) : AgentInput :=
  {| in_prompt := "hello";
     in_files := Some files;
     in_apiKey := "google-key";
     in_project := Some "project-1";
     in_chat := Some "chat-1";
     in_history := [];
     in_user := Some "user-1";
     in_openrouter_api_key := None;
     in_preferred_image_model := None;
     in_has_sink := true;
     in_model := Some "gemini-2.5-flash" |}.

Definition context_with (files : list FileBlob) : Context :=
  Scenario.context_of Scenario.plain_env (input_with files).






(** The rows of a layer: a preference stored twice, and a row without key. *)
Definition preference_rows : list Memory.Row :=
  [Memory.mkRow (Some "theme") (JStr "light");
   Memory.mkRow None (JStr "orphan");
   Memory.mkRow (Some "language") (JStr "fr");
   Memory.mkRow (Some "theme") (JStr "dark")].

Definition preferences : Memory.Answer :=
  Memory.mkAnswer (Some preference_rows) false.

(** A store that knows one layer and fails on the others. *)
Definition one_layer (layer : string) : JsResult Memory.Answer :=
  if String.eqb layer "preferences" then Ok preferences
  else Ok (Memory.mkAnswer None true).


(** An SDK whose premium model is out of quota and whose second model
    answers with a picture; and one whose second model blocks the prompt. *)
Definition quota_rejection : Gemini.Caught :=
  Gemini.mkCaught
    {| err_is_Error := true; err_status := Some 429%Z;
       err_message := Some "got status: 429" |}
    (Some "Quota exceeded for imagen-4.0") None.

Definition picture_response : Gemini.ContentResponse :=
  Gemini.mkResponse
    (Some [Some (Gemini.mkCandidate
                   (Some (Gemini.mkContent
                            (Some [Gemini.mkPart None;
                                   Gemini.mkPart
                                     (Some (Gemini.mkInline (Some "iVBORw0KGgo=")))]))))]).

Definition busy_premium : Gemini.Models :=
  Gemini.mkModels (fun _ => Gemini.Rejected quota_rejection)
                  (fun _ => Gemini.Resolved (Some picture_response)).

Definition blocking : Gemini.Models :=
  Gemini.mkModels (fun _ => Gemini.Rejected quota_rejection)
                  (fun _ => Gemini.Resolved (Some (Gemini.mkResponse (Some [])))).

End Sample.

(** *** Words for an input without project or chat *)

(** A pass through the [switch] that never ends in a [return]. *)
Definition never_returns (m : M Step) : Prop :=
  forall w r, fst (m w) <> Ret (Return r).

(** A computation that never delivers a value. *)
Definition never_delivers {A} (m : M A) : Prop :=
  forall w a, fst (m w) <> Ret a.


(** *** Words for the SIMPLE branch *)

(** The locals once the chunks [chunks] of a native stream have been
    consumed; [grounded] is [isNative || usedFallback]. *)
Definition heard (grounded : bool) (chunks : list NativeChunk) (s : LoopState)
    : LoopState :=
  mkLoop (finalResponseText s ++ String.concat "" (spoken chunks))
         (if grounded then cited_by chunks (metadataPayload s)
          else metadataPayload s)
         (fallbackSearchContext s) (currentAction s) (currentPrompt s)
         (loopCount s) (routingPrompt s)
         (generatedThisLoop s ++ String.concat "" (spoken chunks)).

(** [systemPrompt] of the SIMPLE branch *)
Definition system_prompt (cx : Context) : string :=
  cx_instruction cx ++ JsString.nl ++ JsString.nl
  ++ "[MEMORY]" ++ JsString.nl ++ cx_memory cx
  ++ JsString.nl ++ JsString.nl ++ cx_dateTime cx.

(** The request a native SIMPLE hop sends when the input has no files. *)
Definition simple_request (cx : Context) (current : string) : NativeParams :=
  mkParams (cx_model cx)
    (native_contents
       (historyMessages cx ++ [mkTurn "user" current [PText current]])%list)
    (Some (system_prompt cx)) None None.

(** [!finalResponseText.trim() && fallbackSearchContext] *)
Definition falls_back (so_far context : string) : bool :=
  (String.eqb (JsString.trim so_far) "" && negb (String.eqb context ""))%bool.


(** The texts of the deltas of the aggregator, as [String(delta.text)]. *)
Definition delta_texts (deltas : list OpenRouter.Delta) : list string :=
  List.map (fun d => Js.to_string (OpenRouter.d_text d)) deltas.

(** The locals once the texts [texts] of the aggregator have been
    consumed. *)
Definition told (texts : list string) (s : LoopState) : LoopState :=
  mkLoop (finalResponseText s ++ String.concat "" texts)
         (metadataPayload s)
         (fallbackSearchContext s) (currentAction s) (currentPrompt s)
         (loopCount s) (routingPrompt s)
         (generatedThisLoop s ++ String.concat "" texts).

(** The request a SIMPLE hop sends to the aggregator. *)
Definition aggregator_request_of (cx : Context) (current : string)
    : OpenRouterRequest :=
  mkRequest (in_openrouter_api_key (cx_input cx)) (cx_model cx)
    (List.map (fun m => (role m, content m))
       (historyMessages cx ++ [mkTurn "user" current [PText current]])%list)
    (system_prompt cx).

(** The locals after a directive has been found. *)
Definition redirected (action : RouterAction) (nextPrompt : string)
    (s : LoopState) : LoopState :=
  match action with
  | IMAGE => set_routingPrompt (Some nextPrompt)
  | _ => fun s => s
  end (set_currentPrompt nextPrompt (set_currentAction action s)).


(** *** Words for the start of a turn *)

(** [!openRouterKey] *)
Definition key_missing (input : AgentInput) : bool :=
  match in_openrouter_api_key input with
  | Some k => String.eqb k ""
  | None => true
  end.

(** [!isNative && !openRouterKey] *)
Definition falls_to_gemini (input : AgentInput) (model : string) : bool :=
  (negb (isGoogleModel model) && key_missing input)%bool.

Definition key_notice : string :=
  JsString.nl ++ "*(OpenRouter key missing, falling back to Gemini...)*"
  ++ JsString.nl.

(** The video link of a prompt: its kind, its identifier and the whole
    match.  The pattern of the shorts is asked first. *)
Definition video_of (env : Env) (prompt : string)
    : option (string * string * string) :=
  match youtubeShortMatch env prompt, youtubeMatch env prompt with
  | Some (whole, videoId), _ => Some ("Short", videoId, whole)
  | None, Some (whole, videoId) => Some ("Video", videoId, whole)
  | None, None => None
  end.

Definition video_prompt (kind videoId whole : string) : string :=
  "Find details for YouTube " ++ kind ++ " ID: " ++ videoId
  ++ ". Title, Channel, and Summary. URL: " ++ whole.

(** [prompt], as the loop sees it. *)
Definition turn_prompt (env : Env) (input : AgentInput) : string :=
  match video_of env (in_prompt input) with
  | Some (kind, videoId, whole) => video_prompt kind videoId whole
  | None => in_prompt input
  end.

(** [files ? files.length : 0] *)
Definition file_count (input : AgentInput) : nat :=
  match in_files input with
  | Some files => List.length files
  | None => 0
  end.

(** [model], as the loop sees it. *)
Definition turn_model (input : AgentInput) (model : string) : string :=
  if falls_to_gemini input model then default_model else model.

(** What the turn has fixed when the loop starts, [memory] being what the
    memory layers answered. *)
Definition turn_context (env : Env) (input : AgentInput) (model memory : string)
    : Context :=
  mkContext input (turn_model input model) (isGoogleModel model)
    (turn_prompt env input) memory
    ("[CURRENT DATE & TIME]" ++ JsString.nl ++ timestamp env ++ JsString.nl)
    (baseSystemInstruction env (turn_model input model)).

(** The world at the first test of the loop condition, [routing] being what
    the router answered. *)
Definition turn_start (env : Env) (input : AgentInput) (model : string)
    (routing : RoutingDecision) (w : World) : World :=
  mkWorld (S (S (calls w)))
    (((trace w
       ++ sunk input (if falls_to_gemini input model then [key_notice] else []))
      ++ [EvRoute (turn_prompt env input) (file_count input)])
     ++ [EvGetContext])
    (mkLoop "" None ""
       (match video_of env (in_prompt input) with
        | Some _ => SEARCH
        | None => rt_action routing
        end)
       (turn_prompt env input) 0
       (match video_of env (in_prompt input) with
        | Some _ => None
        | None => rt_prompt routing
        end)
       "").


(** The trace of [w'] continues the trace of [w]. *)
Definition extends (w w' : World) : Prop :=
  exists t, trace w' = (trace w ++ t)%list.


(** A pass through the [switch] that never ends in a [continue]. *)
Definition never_continues (m : M Step) : Prop :=
  forall w, fst (m w) <> Ret Continue.


(** *** Words for attached files *)

Definition comma : ascii := ascii_of_nat 44.

Definition no_comma (s : string) : Prop :=
  all_chars (fun c => negb (Ascii.eqb c comma)) s = true.

(** [res.split(',')[1]] *)
Definition payload_of (res : string) : option string :=
  List.nth_error (JsString.split comma res) 1.

(** The reader of the file delivers a result. *)
Definition readable (file : FileBlob) : Prop :=
  exists res, file_dataURL file = Ok res.

(** [{ inlineData: { data: base64EncodedData, mimeType: file.type } }] *)
Definition inline_part (file : FileBlob) : Part :=
  PInline (match file_dataURL file with
           | Ok res => payload_of res
           | Err _ => None
           end)
          (file_type file).


(** *** Words for the budget of a turn *)

(** [m] adds at most [k] to the measure [mu] of the world, and returns
    values in [Q]. *)
Definition spends {A} (mu : World -> Z) (Q : A -> Prop) (k : Z) (m : M A)
    : Prop :=
  forall w,
    match m w with
    | (Ret a, w') => (mu w' <= mu w + k)%Z /\ Q a
    | (_, w') => (mu w' <= mu w + k)%Z
    end.

(** A generator whose suspended body, if it has one, spends at most [k]. *)
Definition frugal_generator (mu : World -> Z) (k : Z) (g : Generator * bool)
    : Prop :=
  match fst g with
  | NativeGen _ => True
  | OpenRouterGen body => spends mu any k body
  end.

(** The two measures: the milliseconds of back-off in the trace, and the
    calls of the collaborators. *)
Definition waited (w : World) : Z := sleep_total (trace w).

Definition called (w : World) : Z := Z.of_nat (calls w).

(** No [setTimeout] *)
Definition no_sleep (ev : Event) : Prop := forall ms, ev <> EvSleep ms.


(** *** Words for the memory layers *)


(** The query of the layer resolves. *)
Definition resolves (query : string -> JsResult Memory.Answer) (layer : string)
    : Prop :=
  exists answer, query layer = Ok answer.


(** *** Words for the image service *)

(** The model the service works with: [model = 'nano_banana'] by default. *)
Definition image_model (model : option string) : string :=
  match model with
  | Some m => m
  | None => "nano_banana"
  end.

(** The errors the second attempt raises itself. *)
Definition image_failures : list string :=
  [ "No response received from AI service.";
    "The AI service could not generate an image for this prompt. It may have been flagged by safety filters.";
    "Candidate content is missing.";
    "Content parts are missing.";
    "Nano Banana model did not return an image. The prompt might have been blocked or the service is busy." ].

(** The outcome of the second attempt, as [generateImage] reports it. *)
Definition second_attempt (ai : Gemini.Models) (prompt : string)
    (fallbackOccurred : bool) : JsResult (option string * bool) :=
  match Gemini.nano_banana ai prompt with
  | Gemini.Resolved d => Ok (Some d, fallbackOccurred)
  | Gemini.Rejected error =>
      Err (Gemini.handleGeminiError error "Error generating image")
  end.


(* ===================================================================== *)
(** * Part II. Properties *)
(* ===================================================================== *)

(** ** Running the monad *)

Lemma bind_run {A B} (m : M A) (k : A -> M B) (w : World) :
  bind m k w = match m w with
               | (Ret a, w') => k a w'
               | (Throw e, w') => (Throw e, w')
               | (OutOfFuel, w') => (OutOfFuel, w')
               end.
Proof. reflexivity. Qed.

Lemma bind_ret {A B} (m : M A) (k : A -> M B) (w w' : World) (a : A) :
  m w = (Ret a, w') -> bind m k w = k a w'.
Proof. intros H. unfold bind. now rewrite H. Qed.

Lemma bind_throw {A B} (m : M A) (k : A -> M B) (w w' : World) (e : JsError) :
  m w = (Throw e, w') -> bind m k w = (Throw e, w').
Proof. intros H. unfold bind. now rewrite H. Qed.

Lemma try_catch_ret {A} (m : M A) (h : JsError -> M A) (w w' : World) (a : A) :
  m w = (Ret a, w') -> try_catch m h w = (Ret a, w').
Proof. intros H. unfold try_catch. now rewrite H. Qed.

Lemma try_catch_throw {A} (m : M A) (h : JsError -> M A) (w w' : World) e :
  m w = (Throw e, w') -> try_catch m h w = h e w'.
Proof. intros H. unfold try_catch. now rewrite H. Qed.

(** ** Frames *)

Section Frame.

Variable I : World -> World -> Prop.
Hypothesis I_refl : forall w, I w w.
Hypothesis I_trans : forall a b c, I a b -> I b c -> I a c.

(** The events and the assignments that keep [I]. *)
Variable quiet : Event -> Prop.
Variable inert : (LoopState -> LoopState) -> Prop.
Hypothesis I_emit :
  forall ev w n, quiet ev -> I w (mkWorld n (trace w ++ [ev]) (vars w)).
Hypothesis I_update :
  forall f w, inert f -> I w (mkWorld (calls w) (trace w) (f (vars w))).

Lemma stable_ret {A} (Q : A -> Prop) (a : A) : Q a -> stable I Q (ret a).
Proof. intros H w. cbn. auto. Qed.

Lemma stable_throw {A} (Q : A -> Prop) (e : JsError) : stable I Q (throw e).
Proof. intros w. cbn. auto. Qed.

Lemma stable_weaken {A} (Q Q' : A -> Prop) (m : M A) :
  stable I Q m -> (forall a, Q a -> Q' a) -> stable I Q' m.
Proof.
  intros H HQ w. specialize (H w). destruct (m w) as [[a| |] w']; intuition.
Qed.

Lemma stable_bind {A B} (Q : A -> Prop) (R : B -> Prop) (m : M A)
    (k : A -> M B) :
  stable I Q m -> (forall a, Q a -> stable I R (k a)) ->
  stable I R (bind m k).
Proof.
  intros Hm Hk w. unfold bind. specialize (Hm w).
  destruct (m w) as [[a| |] w']; auto.
  destruct Hm as [Hw Ha]. specialize (Hk a Ha w').
  destruct (k a w') as [[b| |] w'']; intuition eauto.
Qed.

Lemma stable_seq {A B} (R : B -> Prop) (m : M A) (k : A -> M B) :
  stable I any m -> (forall a, stable I R (k a)) -> stable I R (bind m k).
Proof. intros Hm Hk. eapply stable_bind; eauto. Qed.

Lemma stable_try_catch {A} (Q : A -> Prop) (m : M A) (h : JsError -> M A) :
  stable I Q m -> (forall e, stable I Q (h e)) -> stable I Q (try_catch m h).
Proof.
  intros Hm Hh w. unfold try_catch. specialize (Hm w).
  destruct (m w) as [[a| |] w']; auto.
  specialize (Hh e w'). destruct (h e w') as [[b| |] w'']; intuition eauto.
Qed.

Lemma stable_lift {A} (r : JsResult A) : stable I any (lift r).
Proof. destruct r; intros w; cbn; unfold any; auto. Qed.

Lemma stable_emit (ev : Event) : quiet ev -> stable I any (emit ev).
Proof. intros H w. cbn. unfold any. auto. Qed.

Lemma stable_ask {A} (ev : Event) (answer : nat -> A) :
  quiet ev -> stable I any (ask ev answer).
Proof. intros H w. cbn. unfold any. auto. Qed.

Lemma stable_call {A} (ev : Event) (answer : nat -> JsResult A) :
  quiet ev -> stable I any (call ev answer).
Proof.
  intros H. unfold call. apply stable_seq.
  - now apply stable_ask.
  - intros r. apply stable_lift.
Qed.

Lemma stable_read {A} (f : LoopState -> A) : stable I any (read f).
Proof. intros w. cbn. unfold any. auto. Qed.

Lemma stable_update (f : LoopState -> LoopState) :
  inert f -> stable I any (update f).
Proof. intros H w. cbn. unfold any. auto. Qed.

Lemma stable_for_each {A} (xs : list A) (body : A -> M unit) :
  (forall x, stable I any (body x)) -> stable I any (for_each xs body).
Proof.
  intros H. induction xs as [|x xs IH]; cbn.
  - now apply stable_ret.
  - apply stable_seq; auto.
Qed.

Lemma stable_for_await {A} (s : Stream A) (body : A -> M unit) :
  (forall x, stable I any (body x)) -> stable I any (for_await s body).
Proof.
  intros H. unfold for_await. apply stable_seq.
  - now apply stable_for_each.
  - intros _. destruct (failure s).
    + apply stable_throw.
    + now apply stable_ret.
Qed.

(** *** The frame of the handler's own functions *)

(** Every event but the call of the usage counter keeps [I], and so does
    every assignment that leaves the hop counter alone. *)
Hypothesis quiet_other : forall ev, ev <> EvIncrementThinkingCount -> quiet ev.
Hypothesis inert_frame :
  forall f, (forall s, loopCount (f s) = loopCount s) -> inert f.

Ltac frame_step :=
  match goal with
  | |- stable _ _ (bind _ _) => apply stable_seq; [ | intros ? ]
  | |- stable _ _ (ret _) => apply stable_ret; exact Logic.I
  | |- stable _ _ (throw _) => apply stable_throw
  | |- stable _ _ (lift _) => apply stable_lift
  | |- stable _ _ (read _) => apply stable_read
  | |- stable _ _ (update _) =>
      apply stable_update; apply inert_frame; intros ?; reflexivity
  | |- stable _ _ (emit _) =>
      apply stable_emit; apply quiet_other; discriminate
  | |- stable _ _ (ask _ _) =>
      apply stable_ask; apply quiet_other; discriminate
  | |- stable _ _ (call _ _) =>
      apply stable_call; apply quiet_other; discriminate
  | |- stable _ _ (for_each _ _) => apply stable_for_each; intros ?
  | |- stable _ _ (for_await _ _) => apply stable_for_await; intros ?
  | |- stable _ _ (try_catch _ _) => apply stable_try_catch; [ | intros ? ]
  | |- stable _ _ (if ?b then _ else _) => destruct b
  | |- stable _ _ (match ?x with _ => _ end) => destruct x
  end.

Ltac frame := repeat frame_step.

Lemma stable_stream_chunk (input : AgentInput) (chunk : string) :
  stable I any (stream_chunk input chunk).
Proof. unfold stream_chunk. frame. Qed.

Lemma stable_retry_loop (env : Env) (params : NativeParams) (retries : Z)
    (notify : string -> M unit) (fuel : nat) :
  (forall msg, stable I any (notify msg)) ->
  forall attempt : Z,
    Z.to_nat (retries + 1 - attempt) < fuel ->
    stable I any (retry_loop env params retries (Some notify) fuel attempt).
Proof.
  intros Hn. induction fuel as [|fuel IH]; intros attempt Hfuel.
  - lia.
  - cbn [retry_loop].
    destruct (attempt <=? retries)%Z eqn:Hle; [ | apply stable_throw ].
    apply stable_try_catch; [ frame | intros error ].
    destruct (isQuotaError error && (attempt <? retries)%Z)%bool eqn:Hq;
      [ | apply stable_throw ].
    apply andb_prop in Hq. destruct Hq as [_ Hlt].
    apply Z.ltb_lt in Hlt.
    unfold console_warn, sleep.
    apply stable_seq; [ frame | intros _ ].
    apply stable_seq; [ apply Hn | intros _ ].
    apply stable_seq; [ frame | intros _ ].
    apply IH. lia.
Qed.

Lemma stable_generateContentStreamWithRetry (env : Env)
    (params : NativeParams) (retries : Z) (notify : string -> M unit) :
  (forall msg, stable I any (notify msg)) ->
  stable I any (generateContentStreamWithRetry env params retries (Some notify)).
Proof.
  intros Hn. unfold generateContentStreamWithRetry, console_warn.
  apply stable_seq; [ frame | intros _ ].
  apply stable_retry_loop; [ assumption | lia ].
Qed.

Lemma stable_streamOpenRouter (env : Env) key model msgs sys :
  stable I any (OpenRouter.streamOpenRouter env key model msgs sys).
Proof. unfold OpenRouter.streamOpenRouter. frame. Qed.

Section Hops.

Variable env : Env.
Variable cx : Context.

Lemma stable_onStreamChunk (chunk : string) :
  stable I any (onStreamChunk cx chunk).
Proof. apply stable_stream_chunk. Qed.

Lemma stable_native (params : NativeParams) :
  stable I any
    (generateContentStreamWithRetry env params 3 (notify_retry cx)).
Proof.
  apply stable_generateContentStreamWithRetry. apply stable_onStreamChunk.
Qed.

Lemma stable_result_message (image : option string) :
  stable I any (result_message cx image).
Proof. unfold result_message, id_of. frame. Qed.

Lemma stable_return_message : stable I any (return_message cx).
Proof.
  unfold return_message. apply stable_seq;
    [ apply stable_result_message | intros r; frame ].
Qed.

Lemma stable_append_response (t : string) : stable I any (append_response t).
Proof. unfold append_response. frame. Qed.

Lemma stable_continue_with (a : RouterAction) :
  stable I any (continue_with a).
Proof. unfold continue_with. frame. Qed.

Ltac hop_step :=
  first
    [ apply stable_onStreamChunk
    | apply stable_native
    | apply stable_return_message
    | apply stable_result_message
    | apply stable_append_response
    | apply stable_continue_with
    | frame_step ].

Ltac hops := repeat hop_step.

Lemma stable_hop_search : stable I any (hop_search env cx).
Proof. unfold hop_search. hops. Qed.

Lemma stable_stream_to_response (response : NativeStream) :
  stable I any (stream_to_response cx response).
Proof. unfold stream_to_response. hops. Qed.

(** The THINK branch keeps [I] when it does not reach the usage counter,
    or when the counter's call keeps [I] too. *)
Lemma stable_hop_think :
  qualifies (cx_model cx) = false \/ quiet EvIncrementThinkingCount ->
  stable I any (hop_think env cx).
Proof.
  intros H. unfold hop_think, qualifies in *.
  destruct (isGoogleModel (cx_model cx));
    destruct (JsString.includes "gemini-2.5" (cx_model cx)); cbn [negb orb];
    try apply stable_continue_with.
  destruct H as [H|H]; [ discriminate | ].
  apply stable_seq; [ hops | intros _ ].
  apply stable_seq; [ now apply stable_call | intros _ ].
  apply stable_seq; [ hops | intros task ].
  apply stable_seq; [ hops | intros response ].
  apply stable_seq; [ apply stable_stream_to_response | intros _ ].
  apply stable_return_message.
Qed.

Lemma stable_hop_image : stable I any (hop_image env cx).
Proof. unfold hop_image. hops. Qed.

Lemma stable_hop_canvas : stable I any (hop_canvas env cx).
Proof. unfold hop_canvas. hops. Qed.

Lemma stable_hop_project : stable I any (hop_project env cx).
Proof. unfold hop_project. hops. Qed.

Lemma stable_hop_study : stable I any (hop_study env cx).
Proof.
  unfold hop_study. hops. apply stable_stream_to_response.
Qed.

Lemma stable_read_files (files : list FileBlob) :
  forall userParts, stable I any (read_files files userParts).
Proof.
  induction files as [|file rest IH]; intros userParts; cbn [read_files].
  - hops.
  - apply stable_seq; [ hops | intros res; apply IH ].
Qed.

Lemma stable_turns_of_hop (current : string) :
  stable I any (turns_of_hop cx current).
Proof.
  unfold turns_of_hop.
  destruct (in_files (cx_input cx)) as [[|file files]|]; try solve [hops].
  destruct (cx_isNative cx); [ | hops ].
  apply stable_seq; [ apply stable_read_files | intros parts; hops ].
Qed.

(** The generator selected for a hop has a stable body. *)
Lemma stable_select_generator (systemPrompt : string) (turns : list Turn) :
  stable I (stable_generator I) (select_generator env cx systemPrompt turns).
Proof.
  unfold select_generator. destruct (cx_isNative cx).
  - apply stable_seq; [ apply stable_native | intros g ].
    apply stable_ret. exact Logic.I.
  - apply stable_try_catch.
    + apply stable_ret. unfold stable_generator. cbn [fst].
      apply stable_streamOpenRouter.
    + intros orError.
      destruct (message_includes "unavailable" orError
                || message_includes "404" orError)%bool;
        [ | apply stable_throw ].
      unfold console_warn.
      apply stable_seq; [ hops | intros _ ].
      apply stable_seq; [ hops | intros _ ].
      apply stable_seq; [ apply stable_native | intros g ].
      apply stable_ret. exact Logic.I.
Qed.

Lemma stable_take_text (t : string) : stable I any (take_text cx t).
Proof. unfold take_text. hops. Qed.

Lemma stable_push_grounding (chunks : list GroundingChunk) :
  stable I any (push_grounding chunks).
Proof. unfold push_grounding. hops. Qed.

Lemma stable_consume (g : Generator * bool) :
  stable_generator I g -> stable I any (consume cx (fst g) (snd g)).
Proof.
  destruct g as [[stream|body] usedFallback]; unfold stable_generator;
    cbn [fst snd consume]; intros Hg.
  - apply stable_for_await. intros chunk.
    destruct (c_text chunk) as [t|]; [ | hops ].
    destruct (String.eqb t ""); [ hops | ].
    apply stable_seq; [ apply stable_take_text | intros _ ].
    destruct (cx_isNative cx || usedFallback)%bool; [ | hops ].
    destruct (c_grounding chunk); [ apply stable_push_grounding | hops ].
  - apply stable_seq; [ exact Hg | intros stream ].
    apply stable_for_await. intros delta. apply stable_take_text.
Qed.

Lemma stable_hop_simple : stable I any (hop_simple env cx).
Proof.
  unfold hop_simple.
  apply stable_seq; [ hops | intros current ].
  apply stable_seq; [ apply stable_turns_of_hop | intros turns ].
  eapply stable_bind; [ apply stable_select_generator | intros g Hg ].
  apply stable_seq; [ hops | intros _ ].
  apply stable_seq; [ now apply stable_consume | intros _ ].
  apply stable_seq; [ hops | intros generated ].
  destruct (Directive.next_hop (cx_prompt cx) generated)
    as [[action nextPrompt]|].
  - apply stable_seq; [ hops | intros _ ].
    apply stable_seq; [ hops | intros _ ].
    apply stable_seq; [ destruct action; hops | intros _ ].
    hops.
  - hops.
Qed.

(** One pass through the [switch]. *)
Lemma stable_hop :
  qualifies (cx_model cx) = false \/ quiet EvIncrementThinkingCount ->
  stable I any (hop env cx).
Proof.
  intros H. unfold hop. apply stable_seq; [ hops | intros action ].
  destruct action.
  - apply stable_hop_simple.
  - apply stable_hop_search.
  - apply stable_hop_search.
  - now apply stable_hop_think.
  - apply stable_hop_image.
  - apply stable_hop_canvas.
  - apply stable_hop_project.
  - apply stable_hop_study.
Qed.

End Hops.

End Frame.

(** ** The hop counter *)

(** The frame of the [switch]: it never assigns [loopCount]. *)
Definition same_count (w w' : World) : Prop :=
  loopCount (vars w') = loopCount (vars w).

Lemma hop_keeps_count (env : Env) (cx : Context) :
  stable same_count any (hop env cx).
Proof.
  apply (stable_hop same_count) with
    (quiet := fun _ => True)
    (inert := fun f => forall s, loopCount (f s) = loopCount s);
    unfold same_count; cbn; auto; try congruence.
Qed.

Lemma iteration_counts (env : Env) (cx : Context) (w : World) :
  match iteration env cx w with
  | (OutOfFuel, _) => False
  | (_, w') => loopCount (vars w') = S (loopCount (vars w))
  end.
Proof.
  unfold iteration, bind, update.
  pose proof (hop_keeps_count env cx
    (mkWorld (calls w) (trace w)
       (set_loopCount (S (loopCount (vars w))) (vars w)))) as H.
  destruct (hop env cx _) as [[step| |] w']; unfold same_count in H; cbn in H;
    intuition.
Qed.

Lemma result_message_run (cx : Context) (image : option string) (w : World)
    (p c : string) :
  in_project (cx_input cx) = Some p -> in_chat (cx_input cx) = Some c ->
  result_message cx image w =
    (Ret (mkResult [mkMessage p c "ai" (finalResponseText (vars w)) image
                              (metadataPayload (vars w))]), w).
Proof.
  intros Hp Hc. unfold result_message, id_of. rewrite Hp, Hc. reflexivity.
Qed.

Lemma result_message_keeps_world (cx : Context) (image : option string)
    (w : World) :
  snd (result_message cx image w) = w /\
  fst (result_message cx image w) <> OutOfFuel.
Proof.
  unfold result_message, id_of.
  destruct (in_project (cx_input cx)), (in_chat (cx_input cx)); cbn;
    split; auto; discriminate.
Qed.

Lemma agent_loop_unfold (env : Env) (cx : Context) (fuel : nat) (w : World) :
  agent_loop env cx (S fuel) w =
    if Nat.ltb (loopCount (vars w)) MAX_LOOPS then
      match iteration env cx w with
      | (Ret Continue, w') => agent_loop env cx fuel w'
      | (Ret (Return r), w') => (Ret r, w')
      | (Throw e, w') => (Throw e, w')
      | (OutOfFuel, w') => (OutOfFuel, w')
      end
    else result_message cx None w.
Proof.
  cbn [agent_loop]. unfold bind at 1. unfold read at 1.
  destruct (Nat.ltb (loopCount (vars w)) MAX_LOOPS); [ | reflexivity ].
  unfold bind at 1. destruct (iteration env cx w) as [[[|r]| |] w']; reflexivity.
Qed.

(** The counter at the end of the loop is the counter at its start plus the
    number of iterations, and the iterations fit in what is left of the
    budget. *)
Lemma agent_loop_counts (env : Env) (cx : Context) (fuel : nat) :
  forall w,
    iterations env cx fuel w <= MAX_LOOPS - loopCount (vars w) /\
    loopCount (vars (snd (agent_loop env cx fuel w))) =
      loopCount (vars w) + iterations env cx fuel w.
Proof.
  induction fuel as [|fuel IH]; intros w.
  - cbn. lia.
  - rewrite agent_loop_unfold. cbn [iterations].
    destruct (Nat.ltb (loopCount (vars w)) MAX_LOOPS) eqn:Hlt.
    + apply Nat.ltb_lt in Hlt.
      pose proof (iteration_counts env cx w) as Hc.
      destruct (iteration env cx w) as [[[|r]| |] w']; cbn [fst snd];
        try (split; lia); try contradiction.
      specialize (IH w'). lia.
    + destruct (result_message_keeps_world cx None w) as [-> _]. lia.
Qed.

Lemma agent_loop_enough_fuel (env : Env) (cx : Context) (fuel : nat) :
  forall w,
    MAX_LOOPS - loopCount (vars w) < fuel ->
    fst (agent_loop env cx fuel w) <> OutOfFuel.
Proof.
  induction fuel as [|fuel IH]; intros w Hfuel; [ lia | ].
  rewrite agent_loop_unfold.
  destruct (Nat.ltb (loopCount (vars w)) MAX_LOOPS) eqn:Hlt.
  - apply Nat.ltb_lt in Hlt.
    pose proof (iteration_counts env cx w) as Hc.
    destruct (iteration env cx w) as [[[|r]| |] w']; cbn [fst];
      try discriminate; try contradiction.
    apply IH. lia.
  - apply result_message_keeps_world.
Qed.

Lemma continues_counts (env : Env) (cx : Context) (k : nat) :
  forall w w', continues env cx k w = Some w' ->
               loopCount (vars w') = loopCount (vars w) + k.
Proof.
  induction k as [|k IH]; intros w w' H; cbn [continues] in H.
  - injection H as <-. lia.
  - pose proof (iteration_counts env cx w) as Hc.
    destruct (iteration env cx w) as [[[|r]| |] w1]; try discriminate.
    apply IH in H. lia.
Qed.

Lemma agent_loop_continues (env : Env) (cx : Context) (k : nat) :
  forall fuel w w',
    continues env cx k w = Some w' ->
    loopCount (vars w) + k <= MAX_LOOPS ->
    agent_loop env cx (k + fuel) w = agent_loop env cx fuel w' /\
    iterations env cx (k + fuel) w = k + iterations env cx fuel w'.
Proof.
  induction k as [|k IH]; intros fuel w w' H Hk; cbn [continues] in H.
  - injection H as <-. auto.
  - cbn [Nat.add]. rewrite agent_loop_unfold. cbn [iterations].
    assert (Hlt : Nat.ltb (loopCount (vars w)) MAX_LOOPS = true)
      by (apply Nat.ltb_lt; lia).
    rewrite Hlt.
    pose proof (iteration_counts env cx w) as Hc.
    destruct (iteration env cx w) as [[[|r]| |] w1]; try discriminate.
    destruct (IH fuel w1 w' H) as [E1 E2]; [ lia | ].
    rewrite E1, E2. auto.
Qed.

(** C1.  The loop of [runAutonomousAgent] runs its body 6 times at most:
    each iteration adds exactly one to the hop counter; whatever fuel the
    loop is given it performs at most [MAX_LOOPS = 6] iterations, and the
    counter ends at its start plus their number; the 7 tests the handler
    allows are enough; and when six iterations in a row end in [continue],
    the handler returns after the sixth the one message that carries the
    accumulated text and payload (the project and the chat of the input
    being there to take their [id] from). *)
Theorem hop_budget (env : Env) (cx : Context) :
  MAX_LOOPS = 6 /\
  (forall w,
     loopCount (vars (snd (iteration env cx w))) = S (loopCount (vars w))) /\
  (forall fuel w,
     iterations env cx fuel w <= 6 - loopCount (vars w) /\
     loopCount (vars (snd (agent_loop env cx fuel w))) =
       loopCount (vars w) + iterations env cx fuel w) /\
  (forall w,
     loopCount (vars w) = 0 ->
     fst (agent_loop env cx (S MAX_LOOPS) w) <> OutOfFuel) /\
  (forall w w6 p c,
     loopCount (vars w) = 0 ->
     in_project (cx_input cx) = Some p ->
     in_chat (cx_input cx) = Some c ->
     continues env cx 6 w = Some w6 ->
     iterations env cx (S MAX_LOOPS) w = 6 /\
     loopCount (vars w6) = 6 /\
     agent_loop env cx (S MAX_LOOPS) w =
       (Ret (mkResult [mkMessage p c "ai" (finalResponseText (vars w6)) None
                                 (metadataPayload (vars w6))]), w6)).
Proof.
  split; [ reflexivity | ].
  split.
  { intros w. pose proof (iteration_counts env cx w) as H.
    destruct (iteration env cx w) as [[step| |] w']; cbn; tauto. }
  split.
  { intros fuel w. apply (agent_loop_counts env cx fuel w). }
  split.
  { intros w Hw. apply agent_loop_enough_fuel. rewrite Hw. unfold MAX_LOOPS. lia. }
  intros w w6 p c Hw Hp Hc H6.
  pose proof (continues_counts env cx 6 w w6 H6) as Hn. rewrite Hw in Hn.
  destruct (agent_loop_continues env cx 6 1 w w6 H6) as [E1 E2];
    [ rewrite Hw; unfold MAX_LOOPS; lia | ].
  change (S MAX_LOOPS) with (6 + 1).
  rewrite E1, E2. rewrite agent_loop_unfold. cbn [iterations].
  assert (Hge : Nat.ltb (loopCount (vars w6)) MAX_LOOPS = false)
    by (apply Nat.ltb_ge; rewrite Hn; unfold MAX_LOOPS; lia).
  rewrite Hge. rewrite (result_message_run cx None w6 p c Hp Hc).
  repeat split; auto.
Qed.

(** ** Frames of the whole loop *)

Section LoopFrame.

Variable I : World -> World -> Prop.
Hypothesis I_refl : forall w, I w w.
Hypothesis I_trans : forall a b c, I a b -> I b c -> I a c.

Variable env : Env.
Variable cx : Context.
Hypothesis iteration_stable : stable I any (iteration env cx).

Lemma agent_loop_frame (fuel : nat) :
  forall w,
    MAX_LOOPS - loopCount (vars w) < fuel ->
    match agent_loop env cx fuel w with
    | (OutOfFuel, _) => False
    | (_, w') => I w w'
    end.
Proof.
  induction fuel as [|fuel IH]; intros w Hfuel; [ lia | ].
  rewrite agent_loop_unfold.
  destruct (Nat.ltb (loopCount (vars w)) MAX_LOOPS) eqn:Hlt.
  - apply Nat.ltb_lt in Hlt.
    pose proof (iteration_counts env cx w) as Hc.
    pose proof (iteration_stable w) as Hs.
    destruct (iteration env cx w) as [[[|r]| |] w']; try tauto.
    destruct Hs as [Hs _].
    specialize (IH w'). 
    destruct (agent_loop env cx fuel w') as [[r| |] w''];
      try (eapply I_trans; [ exact Hs | apply IH; lia ]).
    apply IH. lia.
  - destruct (result_message_keeps_world cx None w) as [Hw Hf].
    destruct (result_message cx None w) as [[r| |] w']; cbn in Hw, Hf;
      subst; auto.
Qed.

End LoopFrame.

(** ** The usage counter *)

Definition same_thinking (w w' : World) : Prop :=
  thinking_calls (trace w') = thinking_calls (trace w).

Lemma thinking_calls_snoc (t : list Event) (ev : Event) :
  ev <> EvIncrementThinkingCount ->
  thinking_calls (t ++ [ev]) = thinking_calls t.
Proof.
  intros H. induction t as [|x t IH]; cbn.
  - destruct ev; congruence.
  - destruct x; cbn; rewrite ?IH; reflexivity.
Qed.

(** Instantiating a frame lemma at [same_thinking]: every event but the
    counter's call is quiet, every assignment is inert. *)
Ltac thinking_frame L :=
  apply (L same_thinking) with
    (quiet := fun ev => ev <> EvIncrementThinkingCount)
    (inert := fun _ : LoopState -> LoopState => True);
  unfold same_thinking; cbn; auto; try congruence;
  try (intros ? ? ? ?; now apply thinking_calls_snoc).

Lemma hop_keeps_thinking (env : Env) (cx : Context) :
  qualifies (cx_model cx) = false ->
  stable same_thinking any (hop env cx).
Proof. intros H. thinking_frame stable_hop. Qed.

(** A pass through the [switch] on an action other than THINK. *)
Lemma hop_other_keeps_thinking (env : Env) (cx : Context) (w : World) :
  currentAction (vars w) <> THINK ->
  match hop env cx w with
  | (OutOfFuel, _) => False
  | (_, w') => same_thinking w w'
  end.
Proof.
  intros Ha.
  assert (Hall : forall m : M Step,
             stable same_thinking any m ->
             match m w with
             | (OutOfFuel, _) => False
             | (_, w') => same_thinking w w'
             end).
  { intros m Hm. specialize (Hm w). destruct (m w) as [[s| |] w']; tauto. }
  unfold hop, bind, read.
  destruct (currentAction (vars w)); try congruence; apply Hall.
  - thinking_frame stable_hop_simple.
  - thinking_frame stable_hop_search.
  - thinking_frame stable_hop_search.
  - thinking_frame stable_hop_image.
  - thinking_frame stable_hop_canvas.
  - thinking_frame stable_hop_project.
  - thinking_frame stable_hop_study.
Qed.

Lemma iteration_keeps_thinking (env : Env) (cx : Context) (w : World) :
  qualifies (cx_model cx) = false \/ currentAction (vars w) <> THINK ->
  thinking_calls (trace (snd (iteration env cx w))) = thinking_calls (trace w).
Proof.
  intros H. unfold iteration, bind, update.
  set (w1 := mkWorld (calls w) (trace w)
               (set_loopCount (S (loopCount (vars w))) (vars w))).
  change (thinking_calls (trace w)) with (thinking_calls (trace w1)).
  destruct H as [H|H].
  - pose proof (hop_keeps_thinking env cx H w1) as Hs.
    destruct (hop env cx w1) as [[s| |] w']; unfold same_thinking in Hs;
      cbn [snd]; tauto.
  - pose proof (hop_other_keeps_thinking env cx w1 H) as Hs.
    destruct (hop env cx w1) as [[s| |] w']; unfold same_thinking in Hs;
      cbn [snd]; tauto.
Qed.

Lemma RouterAction_eq_dec (a b : RouterAction) : {a = b} + {a <> b}.
Proof. decide equality. Qed.

(** C8.  A THINK hop on a model that is not a native model with the
    [gemini-2.5] marker only switches the action to SIMPLE: the prompt, the
    trace and the call count are as before, so the usage counter is not
    called.  And an iteration whose trace gains a call of the usage counter
    is a THINK hop on a qualifying model. *)
Theorem think_downgrade (env : Env) (cx : Context) (w : World) :
  (qualifies (cx_model cx) = false ->
   currentAction (vars w) = THINK ->
   iteration env cx w =
     (Ret Continue,
      mkWorld (calls w) (trace w)
        (mkLoop (finalResponseText (vars w)) (metadataPayload (vars w))
                (fallbackSearchContext (vars w)) SIMPLE
                (currentPrompt (vars w)) (S (loopCount (vars w)))
                (routingPrompt (vars w)) (generatedThisLoop (vars w))))) /\
  (thinking_calls (trace (snd (iteration env cx w)))
     <> thinking_calls (trace w) ->
   currentAction (vars w) = THINK /\ qualifies (cx_model cx) = true).
Proof.
  split.
  - intros Hq Ha.
    unfold iteration, hop, hop_think, continue_with, bind, update, read, ret.
    cbn. rewrite Ha. unfold qualifies in Hq.
    destruct (isGoogleModel (cx_model cx));
      destruct (JsString.includes "gemini-2.5" (cx_model cx));
      try discriminate; reflexivity.
  - intros Hne.
    destruct (RouterAction_eq_dec (currentAction (vars w)) THINK) as [Ha|Ha].
    + split; [ assumption | ].
      destruct (qualifies (cx_model cx)) eqn:Hq; [ reflexivity | ].
      exfalso. apply Hne. apply iteration_keeps_thinking. now left.
    + exfalso. apply Hne. apply iteration_keeps_thinking. now right.
Qed.

(** ** The outer boundary *)

(** A computation that never uses up its fuel. *)
Definition total {A} (m : M A) : Prop := forall w, fst (m w) <> OutOfFuel.

Lemma total_bind {A B} (m : M A) (k : A -> M B) :
  total m -> (forall a, total (k a)) -> total (bind m k).
Proof.
  intros Hm Hk w. unfold bind. specialize (Hm w).
  destruct (m w) as [[a| |] w']; cbn [fst] in *;
    [ apply Hk | discriminate | congruence ].
Qed.

Lemma total_call {A} (ev : Event) (answer : nat -> JsResult A) :
  total (call ev answer).
Proof.
  intros w. unfold call, bind, ask, lift.
  destruct (answer (calls w)); cbn; discriminate.
Qed.

Lemma total_stream_chunk (input : AgentInput) (chunk : string) :
  total (stream_chunk input chunk).
Proof.
  intros w. unfold stream_chunk. destruct (in_has_sink input); cbn; discriminate.
Qed.

Lemma total_ret {A} (a : A) : total (ret a).
Proof. intros w. cbn. discriminate. Qed.

Lemma total_throw {A} (e : JsError) : total (@throw A e).
Proof. intros w. cbn. discriminate. Qed.

(** The loop, entered with the counter at zero, has fuel enough. *)
Lemma total_started_loop (env : Env) (cx : Context) (s0 : LoopState) :
  loopCount s0 = 0 ->
  total (bind (update (fun _ => s0))
              (fun _ => agent_loop env cx (S MAX_LOOPS))).
Proof.
  intros H0 w. unfold bind, update.
  apply agent_loop_enough_fuel. cbn [vars]. rewrite H0. unfold MAX_LOOPS. lia.
Qed.

Lemma agent_turn_total (env : Env) (input : AgentInput) (model : string) :
  total (agent_turn env input model).
Proof.
  unfold agent_turn. apply total_bind.
  - destruct (negb (isGoogleModel model) && _)%bool;
      [ apply total_stream_chunk | apply total_ret ].
  - intros _. destruct (in_user input); [ | apply total_throw ].
    apply total_bind; [ apply total_call | intros routing ].
    apply total_bind; [ apply total_call | intros memoryContext ].
    apply total_started_loop. reflexivity.
Qed.

(** What the [catch] block makes of an error when the project and the chat
    are there. *)
Lemma runAutonomousAgent_caught (env : Env) (input : AgentInput)
    (w w' : World) (e : JsError) (p c : string) :
  in_project input = Some p -> in_chat input = Some c ->
  agent_turn env input (initial_model input) w = (Throw e, w') ->
  runAutonomousAgent env input w =
    (Ret (mkResult [mkMessage p c "ai"
                      ("An error occurred: " ++ chosen_error_message env e)
                      None None]),
     mkWorld (calls w')
             (trace w' ++ [EvConsoleError "Error in runAutonomousAgent:"])
             (vars w')).
Proof.
  intros Hp Hc Hturn. unfold runAutonomousAgent.
  fold (initial_model input).
  rewrite (try_catch_throw _ _ _ _ _ Hturn).
  unfold bind, console_error, emit, id_of. rewrite Hp, Hc. reflexivity.
Qed.

Lemma runAutonomousAgent_returned (env : Env) (input : AgentInput)
    (w w' : World) (r : AgentExecutionResult) :
  agent_turn env input (initial_model input) w = (Ret r, w') ->
  runAutonomousAgent env input w = (Ret r, w').
Proof.
  intros Hturn. unfold runAutonomousAgent. fold (initial_model input).
  now rewrite (try_catch_ret _ _ _ _ _ Hturn).
Qed.

(** C2.  When the input has its project and its chat, the handler returns:
    it neither throws nor runs out of fuel.  When the [try] block threw, the
    result is one message, from ["ai"], whose text reports the error: the
    error's own message when that mentions OpenRouter, the user-friendly
    conversion otherwise. *)
Theorem never_throws (env : Env) (input : AgentInput) (w : World)
    (p c : string) :
  in_project input = Some p ->
  in_chat input = Some c ->
  exists r,
    fst (runAutonomousAgent env input w) = Ret r /\
    (forall e,
       fst (agent_turn env input (initial_model input) w) = Throw e ->
       exists m,
         messages r = [m] /\ sender m = "ai" /\
         text m = error_text env e /\
         (message_includes "OpenRouter" e = true ->
          err_message e = Some (chosen_error_message env e)) /\
         (message_includes "OpenRouter" e = false ->
          chosen_error_message env e = getUserFriendlyError env e)).
Proof.
  intros Hp Hc.
  pose proof (agent_turn_total env input (initial_model input) w) as Htot.
  destruct (agent_turn env input (initial_model input) w) as [[r|e|] w'] eqn:Hturn;
    cbn [fst] in *; [ | | congruence ].
  - exists r. rewrite (runAutonomousAgent_returned _ _ _ _ _ Hturn).
    split; [ reflexivity | discriminate ].
  - eexists. rewrite (runAutonomousAgent_caught _ _ _ _ _ _ _ Hp Hc Hturn).
    split; [ reflexivity | ].
    intros e' He'. injection He' as <-.
    eexists. split; [ reflexivity | ]. cbn.
    repeat split; unfold chosen_error_message, message_includes in *.
    + intros H. destruct (err_message e); [ now rewrite H | discriminate ].
    + intros H. destruct (err_message e); now rewrite ?H.
Qed.

(** C10.  On the fatal path the returned message is exactly the prefix
    ["An error occurred: "] and the chosen error message, with neither image
    nor grounding metadata, whatever text and payload the loop had
    accumulated in [w'] when the error was thrown. *)
Theorem fatal_message_drops_progress (env : Env) (input : AgentInput)
    (w w' : World) (e : JsError) (p c : string) :
  in_project input = Some p ->
  in_chat input = Some c ->
  agent_turn env input (initial_model input) w = (Throw e, w') ->
  fst (runAutonomousAgent env input w) =
    Ret (mkResult
           [{| project_id := p; chat_id := c; sender := "ai";
               text := "An error occurred: " ++ chosen_error_message env e;
               image_base64 := None;
               groundingMetadata := None |}]) /\
  vars (snd (runAutonomousAgent env input w)) = vars w'.
Proof.
  intros Hp Hc Hturn.
  rewrite (runAutonomousAgent_caught _ _ _ _ _ _ _ Hp Hc Hturn).
  split; reflexivity.
Qed.

(** ** Retrying the native call *)

Lemma retry_loop_unfold (env : Env) (params : NativeParams) (retries : Z)
    (onRetry : option (string -> M unit)) (fuel : nat) (attempt : Z)
    (w : World) :
  (attempt <=? retries)%Z = true ->
  retry_loop env params retries onRetry (S fuel) attempt w =
    let w1 := mkWorld (S (calls w))
                      (trace w ++ [EvGenerateContentStream params]) (vars w) in
    match generateContentStream env (calls w) params with
    | Ok s => (Ret s, w1)
    | Err error =>
        if (isQuotaError error && (attempt <? retries)%Z)%bool then
          (console_warn ("Quota limit hit. Retrying in "
                         ++ JsString.of_Z (backoff_delay attempt) ++ "ms...") ;;
           match onRetry with
           | Some notify => notify (retry_notice (backoff_delay attempt))
           | None => ret tt
           end ;;
           sleep (backoff_delay attempt) ;;
           retry_loop env params retries onRetry fuel (attempt + 1)%Z) w1
        else (Throw error, w1)
    end.
Proof.
  intros Hle. cbn [retry_loop]. rewrite Hle.
  unfold try_catch, call, ask, bind at 1, lift.
  destruct (generateContentStream env (calls w) params) as [s|error]; cbn.
  - reflexivity.
  - destruct (isQuotaError error && (attempt <? retries)%Z)%bool; reflexivity.
Qed.

Lemma start_retrying (env : Env) (params : NativeParams) (retries : Z)
    (onRetry : option (string -> M unit)) (w : World) :
  generateContentStreamWithRetry env params retries onRetry w =
    retry_loop env (with_default_model params) retries onRetry
      (Z.to_nat (retries + 1) + 1) 0%Z
      (mkWorld (calls w) (trace w ++ model_warning params) (vars w)).
Proof.
  unfold generateContentStreamWithRetry, model_warning, bind.
  destruct (String.eqb (np_model params) ""); cbn.
  - reflexivity.
  - rewrite app_nil_r. now destruct w.
Qed.

(** A failure that is no rate limit leaves the loop at once, at whatever
    attempt it happens. *)
Lemma other_failure_propagates (env : Env) (params : NativeParams)
    (retries : Z) (onRetry : option (string -> M unit)) (fuel : nat)
    (attempt : Z) (w : World) (e : JsError) :
  (attempt <= retries)%Z ->
  generateContentStream env (calls w) params = Err e ->
  isQuotaError e = false ->
  retry_loop env params retries onRetry (S fuel) attempt w =
    (Throw e,
     mkWorld (S (calls w)) (trace w ++ [EvGenerateContentStream params])
             (vars w)).
Proof.
  intros Hle He Hq. rewrite retry_loop_unfold by now apply Z.leb_le.
  cbn zeta. rewrite He, Hq. reflexivity.
Qed.

(** C4.  With [retries = 3], a rate limit on attempts 0 and 1 and a stream
    on attempt 2: the stream is returned after three calls; the notice goes
    to the callback exactly twice, announcing 3 s then 5 s, and the waits
    are 3000 ms then 5000 ms, the values of [2^attempt * 2000 + 1000].  And
    a failure that is no rate limit is rethrown after the one call that
    raised it, without notice and without wait: on the first attempt of the
    call, and at any attempt of its loop. *)
Theorem retry_twice_then_stream (env : Env) (params : NativeParams)
    (w : World) (e0 e1 : JsError) (s : NativeStream) :
  let sent := with_default_model params in
  generateContentStream env (calls w) sent = Err e0 ->
  isQuotaError e0 = true ->
  generateContentStream env (S (calls w)) sent = Err e1 ->
  isQuotaError e1 = true ->
  generateContentStream env (S (S (calls w))) sent = Ok s ->
  generateContentStreamWithRetry env params 3 (Some to_sink) w =
    (Ret s,
     mkWorld (S (S (S (calls w))))
       (trace w ++ model_warning params ++
        [ EvGenerateContentStream sent;
          EvConsoleWarn "Quota limit hit. Retrying in 3000ms...";
          EvSink "(Rate limit hit. Retrying in 3s...)";
          EvSleep (2 ^ 0 * 2000 + 1000);
          EvGenerateContentStream sent;
          EvConsoleWarn "Quota limit hit. Retrying in 5000ms...";
          EvSink "(Rate limit hit. Retrying in 5s...)";
          EvSleep (2 ^ 1 * 2000 + 1000);
          EvGenerateContentStream sent ])
       (vars w)) /\
  (2 ^ 0 * 2000 + 1000 = 3000 /\ 2 ^ 1 * 2000 + 1000 = 5000)%Z /\
  (forall (w0 : World) (e : JsError),
     generateContentStream env (calls w0) sent = Err e ->
     isQuotaError e = false ->
     generateContentStreamWithRetry env params 3 (Some to_sink) w0 =
       (Throw e,
        mkWorld (S (calls w0))
          (trace w0 ++ model_warning params ++ [EvGenerateContentStream sent])
          (vars w0))) /\
  (forall retries onRetry fuel attempt (w0 : World) (e : JsError),
     (attempt <= retries)%Z ->
     generateContentStream env (calls w0) sent = Err e ->
     isQuotaError e = false ->
     retry_loop env sent retries onRetry (S fuel) attempt w0 =
       (Throw e,
        mkWorld (S (calls w0)) (trace w0 ++ [EvGenerateContentStream sent])
                (vars w0))).
Proof.
  intros sent H0 Q0 H1 Q1 H2.
  split; [ | split; [ split; reflexivity | split ] ];
    [ | | intros; now apply other_failure_propagates ].
  - rewrite start_retrying. fold sent.
    change (Z.to_nat (3 + 1) + 1) with 5.
    rewrite retry_loop_unfold by reflexivity. cbn zeta. cbn [calls].
    rewrite H0, Q0. cbn [andb Z.ltb Z.compare].
    unfold bind at 1 2 3, console_warn, to_sink, sleep, emit.
    cbn [calls trace vars Z.add Pos.add].
    rewrite retry_loop_unfold by reflexivity. cbn zeta. cbn [calls].
    rewrite H1, Q1. cbn [andb Z.ltb Z.compare Pos.compare Pos.compare_cont].
    unfold bind at 1 2 3, console_warn, to_sink, sleep, emit.
    cbn [calls trace vars Z.add Pos.add Pos.succ].
    rewrite retry_loop_unfold by reflexivity. cbn zeta. cbn [calls].
    rewrite H2. cbn [trace vars].
    repeat rewrite <- app_assoc. reflexivity.
  - intros w0 e He Hq. rewrite start_retrying. fold sent.
    change (Z.to_nat (3 + 1) + 1) with 5.
    rewrite other_failure_propagates with (e := e); auto; [ | lia ].
    cbn [calls trace vars]. now rewrite <- app_assoc.
Qed.

Lemma max_retries_is_no_rate_limit : isQuotaError max_retries_error = false.
Proof. reflexivity. Qed.

(** From attempt [k] on, with every attempt up to [n] meeting a rate limit:
    the loop ends with the error of attempt [n], after [n - k + 1] calls. *)
Lemma retry_loop_exhausted (env : Env) (params : NativeParams) (n c0 : nat)
    (errors : nat -> JsError) :
  (forall i, i <= n ->
     generateContentStream env (c0 + i) params = Err (errors i) /\
     isQuotaError (errors i) = true) ->
  forall fuel k w,
    k <= n -> calls w = c0 + k -> n - k < fuel ->
    let r := retry_loop env params (Z.of_nat n) (Some to_sink) fuel
                        (Z.of_nat k) w in
    fst r = Throw (errors n) /\ calls (snd r) = c0 + S n.
Proof.
  intros Hall. induction fuel as [|fuel IH]; intros k w Hk Hc Hfuel; [ lia | ].
  cbn zeta. rewrite retry_loop_unfold by (apply Z.leb_le; lia).
  cbn zeta. rewrite Hc. destruct (Hall k Hk) as [He Hq]. rewrite He, Hq.
  cbn [andb].
  destruct (Z.of_nat k <? Z.of_nat n)%Z eqn:Hlt.
  - apply Z.ltb_lt in Hlt.
    unfold bind at 1 2 3, console_warn, to_sink, sleep, emit.
    cbn [calls trace vars].
    replace (Z.of_nat k + 1)%Z with (Z.of_nat (S k)) by lia.
    apply IH; cbn [calls]; lia.
  - apply Z.ltb_ge in Hlt. assert (k = n) by lia. subst k.
    cbn [fst snd calls]. split; [ reflexivity | lia ].
Qed.

(** C5, amended.  When every attempt, 0 to [retries], meets a rate limit,
    the call fails after [retries + 1] calls with the rate-limit error of
    the last attempt, which is not the "Max retries exceeded" error. *)
Theorem exhausted_retries_rethrow_last (env : Env) (params : NativeParams)
    (retries : nat) (w : World) (errors : nat -> JsError) :
  (forall i, i <= retries ->
     generateContentStream env (calls w + i) (with_default_model params)
       = Err (errors i) /\
     isQuotaError (errors i) = true) ->
  let r := generateContentStreamWithRetry env params (Z.of_nat retries)
             (Some to_sink) w in
  fst r = Throw (errors retries) /\
  errors retries <> max_retries_error /\
  calls (snd r) = calls w + S retries.
Proof.
  intros Hall. cbn zeta. rewrite start_retrying.
  destruct (retry_loop_exhausted env (with_default_model params) retries
              (calls w) errors Hall
              (Z.to_nat (Z.of_nat retries + 1) + 1) 0
              (mkWorld (calls w) (trace w ++ model_warning params) (vars w)))
    as [Hr Hc]; cbn [calls]; try lia.
  cbn zeta in Hr, Hc. change (Z.of_nat 0) with 0%Z in Hr, Hc.
  repeat split; try assumption.
  intros Heq. destruct (Hall retries (Nat.le_refl _)) as [_ Hq].
  rewrite Heq in Hq. discriminate.
Qed.

(** The "Max retries exceeded" error needs a loop that makes no attempt. *)
Lemma max_retries_without_attempt (env : Env) (params : NativeParams)
    (retries : Z) (onRetry : option (string -> M unit)) (w : World) :
  (retries < 0)%Z ->
  fst (generateContentStreamWithRetry env params retries onRetry w)
    = Throw max_retries_error /\
  calls (snd (generateContentStreamWithRetry env params retries onRetry w))
    = calls w.
Proof.
  intros Hneg. rewrite start_retrying.
  replace (Z.to_nat (retries + 1)) with 0 by lia.
  cbn [Nat.add].
  cbn [retry_loop].
  assert (H : (0 <=? retries)%Z = false) by (apply Z.leb_gt; lia).
  rewrite H. split; reflexivity.
Qed.

(** ** Regular expressions of the directive scan *)

Lemma append_assoc (a b c : string) : (a ++ b) ++ c = a ++ (b ++ c).
Proof. induction a as [|x a IH]; cbn; [ reflexivity | now rewrite IH ]. Qed.

Lemma same_char (ci : bool) (a b : ascii) :
  Directive.same ci a b = true <->
  same_text ci (String a EmptyString) (String b EmptyString).
Proof.
  unfold Directive.same, same_text. destruct ci; cbn.
  - rewrite Ascii.eqb_eq. split; congruence.
  - rewrite Ascii.eqb_eq. split; congruence.
Qed.

Lemma same_text_cons (ci : bool) (a b : ascii) (s t : string) :
  same_text ci (String a s) (String b t) <->
  Directive.same ci a b = true /\ same_text ci s t.
Proof.
  unfold Directive.same, same_text. destruct ci; cbn; rewrite Ascii.eqb_eq;
    split; try (intros [H1 H2]; congruence); intros H; injection H; auto.
Qed.

Lemma same_text_nil (ci : bool) (s : string) :
  same_text ci s EmptyString -> s = EmptyString.
Proof.
  unfold same_text. destruct ci; [ | auto ].
  destruct s; cbn; [ auto | discriminate ].
Qed.

(** A literal matches exactly the heads that are the same text. *)
Lemma literal_sound (ci : bool) (lit : string) :
  forall s rest,
    Directive.literal ci lit s = Some rest ->
    exists o, s = o ++ rest /\ same_text ci o lit.
Proof.
  induction lit as [|a lit IH]; intros s rest H; cbn in H.
  - injection H as <-. exists EmptyString. split; [ reflexivity | ].
    unfold same_text. now destruct ci.
  - destruct s as [|b s]; [ discriminate | ].
    destruct (Directive.same ci a b) eqn:Hab; [ | discriminate ].
    destruct (IH s rest H) as [o [-> Ho]].
    exists (String b o). split; [ reflexivity | ].
    apply same_text_cons. split; [ | assumption ].
    unfold Directive.same in *. destruct ci; rewrite Ascii.eqb_sym; assumption.
Qed.

Lemma literal_complete (ci : bool) (lit : string) :
  forall o rest,
    same_text ci o lit -> Directive.literal ci lit (o ++ rest) = Some rest.
Proof.
  induction lit as [|a lit IH]; intros o rest H.
  - apply same_text_nil in H. now subst.
  - destruct o as [|b o].
    + unfold same_text in H. destruct ci; discriminate.
    + apply same_text_cons in H. destruct H as [Hba Ho]. cbn.
      assert (Hab : Directive.same ci a b = true).
      { unfold Directive.same in *. destruct ci; rewrite Ascii.eqb_sym;
          assumption. }
      rewrite Hab. now apply IH.
Qed.

(** The lazy group stops at the first closing text it can reach. *)
Lemma lazy_until_sound (ci : bool) (close : string) :
  forall s p,
    Directive.lazy_until ci close s = Some p ->
    exists c post, s = p ++ c ++ post /\ same_text ci c close /\ one_line p.
Proof.
  induction s as [|x s IH]; intros p H; cbn in H.
  - destruct (Directive.literal ci close EmptyString) as [rest|] eqn:Hl;
      [ | discriminate ].
    injection H as <-. destruct (literal_sound _ _ _ _ Hl) as [o [Ho Hs]].
    exists o, rest. repeat split; auto.
  - destruct (Directive.literal ci close (String x s)) as [rest|] eqn:Hl.
    + injection H as <-. destruct (literal_sound _ _ _ _ Hl) as [o [Ho Hs]].
      exists o, rest. repeat split; auto.
    + destruct (JsString.is_line_terminator x) eqn:Hx; [ discriminate | ].
      destruct (Directive.lazy_until ci close s) as [q|] eqn:Hq;
        [ | discriminate ].
      injection H as <-. destruct (IH q eq_refl) as [c [post [-> [Hc Hp]]]].
      exists c, post. repeat split; auto.
      unfold one_line in *. cbn. now rewrite Hx.
Qed.

Lemma lazy_until_complete (ci : bool) (close : string) :
  forall p c post,
    one_line p -> same_text ci c close ->
    Directive.lazy_until ci close (p ++ c ++ post) <> None.
Proof.
  induction p as [|x p IH]; intros c post Hp Hc.
  - cbn [append].
    assert (Hl : Directive.literal ci close (c ++ post) = Some post)
      by now apply literal_complete.
    destruct (c ++ post); cbn; rewrite Hl; discriminate.
  - unfold one_line in Hp. cbn in Hp. apply andb_prop in Hp.
    destruct Hp as [Hx Hp]. apply negb_true_iff in Hx. cbn.
    destruct (Directive.literal ci close (String x (p ++ c ++ post)));
      [ discriminate | ].
    rewrite Hx. specialize (IH c post Hp Hc).
    destruct (Directive.lazy_until ci close (p ++ c ++ post));
      [ discriminate | contradiction ].
Qed.

(** White space, one character at least, then the continuation. *)
Lemma spaces_then_sound (k : string -> option string) :
  forall s p,
    Directive.spaces_then k s = Some p ->
    exists ws rest, s = ws ++ rest /\ blank_run ws /\ k rest = Some p.
Proof.
  induction s as [|x s IH]; intros p H; cbn in H; [ discriminate | ].
  destruct (JsString.is_space x) eqn:Hx; [ | discriminate ].
  destruct (Directive.spaces_then k s) as [q|] eqn:Hq.
  - injection H as <-. destruct (IH q eq_refl) as [ws [rest [-> [[_ Hws] Hk]]]].
    exists (String x ws), rest. repeat split; auto; [ discriminate | ].
    cbn. now rewrite Hx.
  - exists (String x EmptyString), s. repeat split; auto; [ discriminate | ].
    cbn. now rewrite Hx.
Qed.

Lemma spaces_then_complete (k : string -> option string) :
  forall ws rest,
    blank_run ws -> k rest <> None ->
    Directive.spaces_then k (ws ++ rest) <> None.
Proof.
  induction ws as [|x ws IH]; intros rest [Hne Hws] Hk; [ congruence | ].
  cbn in Hws. apply andb_prop in Hws. destruct Hws as [Hx Hws].
  cbn. rewrite Hx.
  destruct ws as [|y ws].
  - cbn [append]. destruct (Directive.spaces_then k rest); [ discriminate | ].
    assumption.
  - assert (Hrun : blank_run (String y ws)) by (split; [ discriminate | exact Hws ]).
    specialize (IH rest Hrun Hk).
    destruct (Directive.spaces_then k (String y ws ++ rest));
      [ discriminate | contradiction ].
Qed.

(** An unanchored pattern matches where it matches at some position. *)
Lemma leftmost_sound (at_head : string -> option string) :
  forall s p,
    Directive.leftmost at_head s = Some p ->
    exists pre suffix, s = pre ++ suffix /\ at_head suffix = Some p.
Proof.
  induction s as [|x s IH]; intros p H; cbn in H.
  - destruct (at_head EmptyString) eqn:Hh; [ | discriminate ].
    injection H as <-. exists EmptyString, EmptyString. auto.
  - destruct (at_head (String x s)) eqn:Hh.
    + injection H as <-. exists EmptyString, (String x s). auto.
    + destruct (IH p H) as [pre [suffix [-> Hs]]].
      exists (String x pre), suffix. auto.
Qed.

Lemma leftmost_complete (at_head : string -> option string) :
  forall pre suffix,
    at_head suffix <> None ->
    Directive.leftmost at_head (pre ++ suffix) <> None.
Proof.
  induction pre as [|x pre IH]; intros suffix H.
  - cbn [append]. destruct suffix; cbn; destruct (at_head _); congruence.
  - cbn. destruct (at_head (String x (pre ++ suffix))); [ discriminate | ].
    now apply IH.
Qed.

(** The pair of tags of a directive. *)
Lemma tag_complete (name g payload : string) :
  has_tag name g payload -> Directive.tag name g <> None.
Proof.
  intros [pre [post [-> Hp]]]. unfold Directive.tag.
  apply leftmost_complete. unfold Directive.tag_at_head.
  rewrite (literal_complete false) by reflexivity.
  apply lazy_until_complete; [ assumption | reflexivity ].
Qed.

Lemma tag_sound (name g p : string) :
  Directive.tag name g = Some p -> has_tag name g p.
Proof.
  unfold Directive.tag, Directive.tag_at_head. intros H.
  apply leftmost_sound in H. destruct H as [pre [suffix [-> H]]].
  destruct (Directive.literal false ("<" ++ name ++ ">") suffix) as [rest|] eqn:Hl;
    [ | discriminate ].
  apply literal_sound in Hl. destruct Hl as [o [-> Ho]].
  apply lazy_until_sound in H. destruct H as [c [post [-> [Hc Hp]]]].
  unfold same_text in Ho, Hc. subst o c.
  exists pre, post. split; [ | assumption ].
  now rewrite !append_assoc.
Qed.

(** The SEARCH tag that asks for a deep search. *)
Lemma deep_search_complete (g payload : string) :
  has_deep_search g payload -> Directive.deep_search g <> None.
Proof.
  intros [pre [o [ws [c [post [-> [Ho [Hws [Hp Hc]]]]]]]]].
  unfold Directive.deep_search. apply leftmost_complete.
  unfold Directive.deep_search_at_head.
  rewrite (literal_complete true) by assumption.
  apply spaces_then_complete; [ assumption | ].
  now apply lazy_until_complete.
Qed.

Lemma deep_search_sound (g p : string) :
  Directive.deep_search g = Some p -> has_deep_search g p.
Proof.
  unfold Directive.deep_search, Directive.deep_search_at_head. intros H.
  apply leftmost_sound in H. destruct H as [pre [suffix [-> H]]].
  destruct (Directive.literal true "<SEARCH>deep" suffix) as [rest|] eqn:Hl;
    [ | discriminate ].
  apply literal_sound in Hl. destruct Hl as [o [-> Ho]].
  apply spaces_then_sound in H. destruct H as [ws [rest' [-> [Hws H]]]].
  apply lazy_until_sound in H. destruct H as [c [post [-> [Hc Hp]]]].
  exists pre, o, ws, c, post. repeat split; auto; apply Hws.
Qed.

(** ** The directive scan *)

Lemma next_hop_as_list (prompt g : string) :
  Directive.next_hop prompt g = first_match (directives_in_priority prompt) g.
Proof.
  unfold Directive.next_hop, directives_in_priority, first_match,
    deep_extractor, first_match, think_extractor, on_tag,
    Directive.deepMatch, Directive.searchMatch, Directive.thinkMatch,
    Directive.imageMatch, Directive.projectMatch, Directive.canvasMatch,
    Directive.studyMatch.
  destruct (Directive.tag "DEEP" g); cbn [option_map]; [ reflexivity | ].
  destruct (Directive.deep_search g); cbn [option_map]; [ reflexivity | ].
  destruct (Directive.tag "SEARCH" g); cbn [option_map]; [ reflexivity | ].
  destruct (Directive.tag "THINK" g); [ reflexivity | ].
  destruct (JsString.includes "<THINK>" g); [ reflexivity | ].
  destruct (Directive.tag "IMAGE" g); cbn [option_map]; [ reflexivity | ].
  destruct (Directive.tag "PROJECT" g); cbn [option_map]; [ reflexivity | ].
  destruct (Directive.tag "CANVAS" g); cbn [option_map]; [ reflexivity | ].
  destruct (Directive.tag "STUDY" g); reflexivity.
Qed.

(** C6, amended.  The next hop is the proposal of the first extractor, in
    the order DEEP, SEARCH, THINK, IMAGE, PROJECT, CANVAS, STUDY, that
    matches the text of the hop; DEEP is a DEEP tag or else a SEARCH tag
    that starts with "deep", the prompt is the captured payload, trimmed for
    THINK, and the prompt of the turn for a THINK without payload.  In
    particular a text with a DEEP tag leads to DEEP_SEARCH on the payload of
    a DEEP tag, whatever other tags it has. *)
Theorem directive_priority (prompt g : string) :
  Directive.next_hop prompt g = first_match (directives_in_priority prompt) g /\
  (forall payload,
     has_tag "DEEP" g payload ->
     exists p,
       Directive.next_hop prompt g = Some (DEEP_SEARCH, p) /\
       has_tag "DEEP" g p).
Proof.
  split; [ apply next_hop_as_list | ].
  intros payload H. apply tag_complete in H.
  destruct (Directive.tag "DEEP" g) as [p|] eqn:Hp; [ | congruence ].
  exists p. split; [ | now apply tag_sound ].
  unfold Directive.next_hop, Directive.deepMatch. now rewrite Hp.
Qed.

(** C6 as worded fails on a THINK payload with white space around it, and
    on a SEARCH tag that starts with "deep". *)
Lemma directive_priority_as_specified_fails :
  (Directive.next_hop "P" "<THINK> plan </THINK><IMAGE>cat</IMAGE>"
     = Some (THINK, "plan") /\
   next_hop_as_specified "P" "<THINK> plan </THINK><IMAGE>cat</IMAGE>"
     = Some (THINK, " plan ")) /\
  (Directive.next_hop "P" "<SEARCH>deep sea</SEARCH><IMAGE>cat</IMAGE>"
     = Some (DEEP_SEARCH, "sea") /\
   next_hop_as_specified "P" "<SEARCH>deep sea</SEARCH><IMAGE>cat</IMAGE>"
     = Some (SEARCH, "deep sea")) /\
  ~ (forall prompt g,
       Directive.next_hop prompt g = next_hop_as_specified prompt g).
Proof.
  split; [ split; reflexivity | ].
  split; [ split; reflexivity | ].
  intros H.
  specialize (H "P" "<THINK> plan </THINK><IMAGE>cat</IMAGE>").
  vm_compute in H. discriminate.
Qed.

(** C9.  A text that contains a SEARCH tag whose content starts with the
    word "deep" and white space, in any letter case, leads to DEEP_SEARCH.
    When the text has no DEEP tag, the prompt of that hop is what such a tag
    holds after "deep" and the white space. *)
Theorem deep_search_prefix (prompt g payload : string) :
  has_deep_search g payload ->
  exists p,
    Directive.next_hop prompt g = Some (DEEP_SEARCH, p) /\
    ((forall q, ~ has_tag "DEEP" g q) -> has_deep_search g p).
Proof.
  intros H. apply deep_search_complete in H.
  unfold Directive.next_hop, Directive.deepMatch.
  destruct (Directive.tag "DEEP" g) as [d|] eqn:Hd.
  - exists d. split; [ reflexivity | ].
    intros Hno. exfalso. apply (Hno d). now apply tag_sound.
  - destruct (Directive.deep_search g) as [p|] eqn:Hp; [ | congruence ].
    exists p. split; [ reflexivity | ].
    intros _. now apply deep_search_sound.
Qed.

(** ** The event stream of the aggregator *)

Lemma split_not_nil (sep : ascii) (s : string) : JsString.split sep s <> [].
Proof.
  destruct s as [|c s]; cbn; [ discriminate | ].
  destruct (Ascii.eqb c sep); [ discriminate | ].
  destruct (JsString.split sep s); discriminate.
Qed.

Lemma removelast_cons {A} (x : A) (l : list A) :
  l <> [] -> List.removelast (x :: l) = x :: List.removelast l.
Proof. destruct l; [ congruence | reflexivity ]. Qed.

Lemma last_cons {A} (x d : A) (l : list A) :
  l <> [] -> List.last (x :: l) d = List.last l d.
Proof. destruct l; [ congruence | reflexivity ]. Qed.

(** Splitting a text that arrives in two parts: the complete lines of the
    first part, then the split of its unterminated tail with the second. *)
Lemma split_append (sep : ascii) (x y : string) :
  JsString.split sep (x ++ y) =
    (List.removelast (JsString.split sep x)
     ++ JsString.split sep (List.last (JsString.split sep x) "" ++ y))%list.
Proof.
  induction x as [|c x IH]; [ reflexivity | ].
  cbn [append JsString.split].
  destruct (Ascii.eqb c sep) eqn:Hc.
  - rewrite removelast_cons, last_cons by apply split_not_nil.
    rewrite IH. reflexivity.
  - rewrite IH. pose proof (split_not_nil sep x) as Hx.
    destruct (JsString.split sep x) as [|f [|f2 fs]]; [ congruence | | ].
    + cbn [List.removelast List.last app append JsString.split].
      rewrite Hc. reflexivity.
    + cbn [List.removelast List.last app]. reflexivity.
Qed.

Lemma split_one_line (sep : ascii) (s : string) :
  JsString.split sep (List.last (JsString.split sep s) "")
    = [List.last (JsString.split sep s) ""].
Proof.
  induction s as [|c s IH]; [ reflexivity | ].
  cbn [JsString.split]. destruct (Ascii.eqb c sep) eqn:Hc.
  - rewrite last_cons by apply split_not_nil. exact IH.
  - pose proof (split_not_nil sep s) as Hs.
    destruct (JsString.split sep s) as [|f [|f2 fs]]; [ congruence | | ].
    + cbn [List.last] in *. cbn [JsString.split]. rewrite Hc, IH. reflexivity.
    + exact IH.
Qed.

Lemma append_nil_r (s : string) : s ++ "" = s.
Proof. induction s as [|c s IH]; cbn; [ reflexivity | now rewrite IH ]. Qed.

Lemma concat_cons (x : string) (xs : list string) :
  String.concat "" (x :: xs) = x ++ String.concat "" xs.
Proof. destruct xs; cbn; [ now rewrite append_nil_r | reflexivity ]. Qed.

(** The deltas of a body do not depend on how the network cut it: they are
    those of its complete lines, in order. *)
Lemma read_events_lines (env : Env) (chunks : list string) :
  forall buffer,
    JsString.split JsString.LF buffer = [buffer] ->
    OpenRouter.read_events env chunks buffer =
      List.flat_map (OpenRouter.deltas_of_line env)
        (complete_lines (buffer ++ String.concat "" chunks)).
Proof.
  unfold complete_lines.
  induction chunks as [|value rest IH]; intros buffer Hb.
  - cbn [OpenRouter.read_events String.concat]. rewrite append_nil_r, Hb.
    reflexivity.
  - cbn [OpenRouter.read_events]. rewrite concat_cons.
    rewrite IH by apply split_one_line.
    rewrite <- append_assoc.
    rewrite (split_append JsString.LF (buffer ++ value)).
    rewrite List.removelast_app by apply split_not_nil.
    now rewrite List.flat_map_app.
Qed.

Lemma skipped_line (env : Env) (line : string) :
  JSON_parse env (JsString.drop 6 line) = None ->
  OpenRouter.deltas_of_line env line = [].
Proof.
  intros H. unfold OpenRouter.deltas_of_line. rewrite H.
  now destruct (_ && _)%bool.
Qed.

(** C7.  Whatever the cut of the sample body into chunks, the adapter
    delivers one delta, with text "Hi", and ends without failure.  In general
    the deltas of a stream are those of its complete lines in order, and a
    [data: ] line whose fragment [JSON.parse] refuses gives none, so that
    the lines after it are still read. *)
Theorem sse_sample (env : Env) (chunks : list string) :
  String.concat "" chunks = sample_body ->
  JSON_parse env hi_json = Some hi_value ->
  OpenRouter.read_events env chunks "" = [OpenRouter.mkDelta (JStr "Hi")] /\
  (forall w key model msgs sys response,
     fetch env (calls w) (mkRequest key model msgs sys) = Ok response ->
     resp_ok response = true ->
     resp_body response = Some (mkStream chunks None) ->
     fst (OpenRouter.streamOpenRouter env key model msgs sys w) =
       Ret (mkStream [OpenRouter.mkDelta (JStr "Hi")] None)) /\
  (forall line,
     JsString.startsWith "data: " line = true ->
     JSON_parse env (JsString.drop 6 line) = None ->
     OpenRouter.deltas_of_line env line = []) /\
  (forall body_chunks,
     OpenRouter.read_events env body_chunks "" =
       List.flat_map (OpenRouter.deltas_of_line env)
         (complete_lines (String.concat "" body_chunks))).
Proof.
  intros Hbody Hparse.
  assert (Hone : OpenRouter.read_events env chunks ""
                 = [OpenRouter.mkDelta (JStr "Hi")]).
  { rewrite read_events_lines by reflexivity. cbn [append]. rewrite Hbody.
    vm_compute in Hparse. vm_compute. rewrite Hparse. reflexivity. }
  split; [ exact Hone | ].
  split; [ | split ].
  - intros w key model msgs sys response Hf Hok Hb.
    unfold OpenRouter.streamOpenRouter, call, ask, bind, lift.
    rewrite Hf. cbn. rewrite Hok, Hb. cbn. now rewrite Hone.
  - intros line _ H. now apply skipped_line.
  - intros body_chunks. now rewrite read_events_lines by reflexivity.
Qed.

(** ** The aggregator that reports an unavailable model *)

(** On the aggregator path the [try] block around the call of the generator
    function has nothing to catch: the selected generator is the suspended
    body, [usedFallback] stays false, and nothing has happened yet. *)
Lemma aggregator_generator_as_is (env : Env) (cx : Context)
    (systemPrompt : string) (turns : list Turn) (w : World) :
  cx_isNative cx = false ->
  select_generator env cx systemPrompt turns w =
    (Ret (OpenRouterGen
            (OpenRouter.streamOpenRouter env
               (in_openrouter_api_key (cx_input cx)) (cx_model cx)
               (List.map (fun m => (role m, content m)) turns) systemPrompt),
          false), w).
Proof. intros H. unfold select_generator. rewrite H. reflexivity. Qed.

(** C3, on the code.  The aggregator answers 404 "No allowed providers" to a
    SIMPLE hop: the adapter raises the "unavailable" error, which the test
    of the fallback branch would accept; yet the turn ends on the fatal
    path, with the error as its message, and its trace has neither the
    notice of a switch to Gemini nor a native call. *)
Theorem unavailable_model_is_fatal :
  let run := runAutonomousAgent Scenario.unavailable_env
               Scenario.aggregator_input Fixture.fresh in
  let unavailable :=
    OpenRouter.failure_of_response Scenario.aggregator_model
      Scenario.unavailable_response in
  unavailable =
    new_Error (OpenRouter.unavailable_message Scenario.aggregator_model) /\
  (message_includes "unavailable" unavailable
   || message_includes "404" unavailable)%bool = true /\
  fst run =
    Ret (mkResult
           [mkMessage "project-1" "chat-1" "ai"
              ("An error occurred: "
               ++ OpenRouter.unavailable_message Scenario.aggregator_model)
              None None]) /\
  trace (snd run) =
    [ EvRoute "hello" 0; EvGetContext;
      EvFetch Scenario.aggregator_request;
      EvConsoleError "Error in runAutonomousAgent:" ].
Proof. vm_compute. repeat split. Qed.

(** ** The theorems at concrete inputs *)

(** A model that answers every hop with a SEARCH directive: six hops, then
    the text of the three SIMPLE hops and the citation of the searches. *)
Lemma hop_budget_witness :
  iterations Scenario.searching_env Scenario.searching_context (S MAX_LOOPS)
    (Scenario.started SIMPLE "hello") = 6 /\
  loopCount (vars Scenario.after_six_hops) = 6 /\
  agent_loop Scenario.searching_env Scenario.searching_context (S MAX_LOOPS)
    (Scenario.started SIMPLE "hello") =
    (Ret (mkResult
            [mkMessage "project-1" "chat-1" "ai"
               (finalResponseText (vars Scenario.after_six_hops)) None
               (metadataPayload (vars Scenario.after_six_hops))]),
     Scenario.after_six_hops).
Proof.
  apply (proj2 (proj2 (proj2 (proj2
           (hop_budget Scenario.searching_env Scenario.searching_context))))).
  - reflexivity.
  - reflexivity.
  - reflexivity.
  - vm_compute. reflexivity.
Defined.

(** A search that fails after the model has spoken. *)
Lemma never_throws_witness :
  exists r,
    fst (runAutonomousAgent Scenario.failing_search_env Scenario.native_input
           Fixture.fresh) = Ret r /\
    (forall e,
       fst (agent_turn Scenario.failing_search_env Scenario.native_input
              (initial_model Scenario.native_input) Fixture.fresh) = Throw e ->
       exists m,
         messages r = [m] /\ sender m = "ai" /\
         text m = error_text Scenario.failing_search_env e /\
         (message_includes "OpenRouter" e = true ->
          err_message e
            = Some (chosen_error_message Scenario.failing_search_env e)) /\
         (message_includes "OpenRouter" e = false ->
          chosen_error_message Scenario.failing_search_env e
            = getUserFriendlyError Scenario.failing_search_env e)).
Proof.
  apply (never_throws Scenario.failing_search_env Scenario.native_input
           Fixture.fresh "project-1" "chat-1"); reflexivity.
Defined.

(** The same turn: the words of the model went to the sink and its
    citation was collected, and the message has neither. *)
Lemma fatal_message_drops_progress_witness :
  let w' := snd Scenario.failed_turn in
  finalResponseText (vars w') = Scenario.first_words /\
  metadataPayload (vars w') = Some [Scenario.cited] /\
  In (EvSink Scenario.first_words) (trace w') /\
  fst (runAutonomousAgent Scenario.failing_search_env Scenario.native_input
         Fixture.fresh) =
    Ret (mkResult
           [{| project_id := "project-1"; chat_id := "chat-1"; sender := "ai";
               text := "An error occurred: "
                       ++ chosen_error_message Scenario.failing_search_env
                            (new_Error "Network request failed");
               image_base64 := None;
               groundingMetadata := None |}]) /\
  vars (snd (runAutonomousAgent Scenario.failing_search_env
               Scenario.native_input Fixture.fresh)) = vars w'.
Proof.
  cbn zeta.
  split; [ vm_compute; reflexivity | ].
  split; [ vm_compute; reflexivity | ].
  split; [ vm_compute; tauto | ].
  apply (fatal_message_drops_progress Scenario.failing_search_env
           Scenario.native_input Fixture.fresh (snd Scenario.failed_turn)
           (new_Error "Network request failed") "project-1" "chat-1").
  - reflexivity.
  - reflexivity.
  - vm_compute. reflexivity.
Defined.

(** THINK on [openai/gpt-4o] becomes SIMPLE; THINK on [gemini-2.5-flash]
    calls the usage counter. *)
Lemma think_downgrade_witness :
  iteration Scenario.plain_env Scenario.aggregator_context
    (Scenario.started THINK "hello") =
    (Ret Continue,
     mkWorld 2 [EvRoute "hello" 0; EvGetContext]
       (mkLoop "" None "" SIMPLE "hello" 1 None "")) /\
  (currentAction (vars (Scenario.started THINK "hello")) = THINK /\
   qualifies (cx_model Scenario.native_context) = true).
Proof.
  split.
  - apply (proj1 (think_downgrade Scenario.plain_env
                    Scenario.aggregator_context
                    (Scenario.started THINK "hello"))); reflexivity.
  - apply (proj2 (think_downgrade Scenario.plain_env Scenario.native_context
                    (Scenario.started THINK "hello"))).
    vm_compute. discriminate.
Defined.

(** Two rate limits, then a stream. *)
Lemma retry_twice_then_stream_witness :
  generateContentStreamWithRetry (Scenario.limited_env 2) Fixture.plain_params
    3 (Some to_sink) Fixture.fresh =
    (Ret (mkStream [mkChunk (Some "Hello.") None] None),
     mkWorld 3
       [ EvGenerateContentStream Fixture.plain_params;
         EvConsoleWarn "Quota limit hit. Retrying in 3000ms...";
         EvSink "(Rate limit hit. Retrying in 3s...)";
         EvSleep 3000;
         EvGenerateContentStream Fixture.plain_params;
         EvConsoleWarn "Quota limit hit. Retrying in 5000ms...";
         EvSink "(Rate limit hit. Retrying in 5s...)";
         EvSleep 5000;
         EvGenerateContentStream Fixture.plain_params ]
       Fixture.fresh_vars).
Proof.
  apply (proj1 (retry_twice_then_stream (Scenario.limited_env 2)
                  Fixture.plain_params Fixture.fresh
                  Fixture.quota_error Fixture.quota_error
                  (mkStream [mkChunk (Some "Hello.") None] None)
                  eq_refl eq_refl eq_refl eq_refl eq_refl)).
Defined.

(** A rate limit on each of the four attempts that [retries = 3] allows:
    the error of the fourth comes out. *)
Lemma exhausted_retries_rethrow_last_witness :
  let r := generateContentStreamWithRetry Scenario.always_limited_env
             Fixture.plain_params 3 (Some to_sink) Fixture.fresh in
  fst r = Throw Fixture.quota_error /\
  Fixture.quota_error <> max_retries_error /\
  calls (snd r) = 4.
Proof.
  apply (exhausted_retries_rethrow_last Scenario.always_limited_env
           Fixture.plain_params 3 Fixture.fresh (fun _ => Fixture.quota_error)).
  intros i _. split; reflexivity.
Defined.

(** C5 as worded fails there: the error is the provider's, not "Max retries
    exceeded". *)
Lemma exhaustion_as_specified_fails :
  ~ exhaustion_as_specified Scenario.always_limited_env Fixture.plain_params 3
      Fixture.fresh.
Proof.
  unfold exhaustion_as_specified. intros H.
  assert (Hall : forall i, i <= 3 ->
            exists e,
              generateContentStream Scenario.always_limited_env
                (calls Fixture.fresh + i)
                (with_default_model Fixture.plain_params) = Err e /\
              isQuotaError e = true).
  { intros i _. exists Fixture.quota_error. split; reflexivity. }
  specialize (H Hall). vm_compute in H. discriminate.
Qed.

(** A SEARCH tag before a DEEP tag. *)
Lemma directive_priority_witness :
  has_tag "DEEP" Scenario.search_and_deep "fusion energy" /\
  Directive.next_hop "hello" Scenario.search_and_deep
    = Some (DEEP_SEARCH, "fusion energy") /\
  exists p,
    Directive.next_hop "hello" Scenario.search_and_deep
      = Some (DEEP_SEARCH, p) /\
    has_tag "DEEP" Scenario.search_and_deep p.
Proof.
  assert (H : has_tag "DEEP" Scenario.search_and_deep "fusion energy").
  { exists "<SEARCH>weather in Paris</SEARCH> and ", "".
    split; reflexivity. }
  split; [ exact H | ].
  split; [ reflexivity | ].
  exact (proj2 (directive_priority "hello" Scenario.search_and_deep)
           "fusion energy" H).
Defined.

(** The sample body in two chunks, read with the parser of the fixtures. *)
Lemma sse_sample_witness :
  OpenRouter.read_events Scenario.streaming_env Scenario.two_chunks ""
    = [OpenRouter.mkDelta (JStr "Hi")] /\
  fst (OpenRouter.streamOpenRouter Scenario.streaming_env
         (Some "sk-or-v1-key") Scenario.aggregator_model [("user", "hello")]
         "You are Bubble." Fixture.fresh)
    = Ret (mkStream [OpenRouter.mkDelta (JStr "Hi")] None).
Proof.
  destruct (sse_sample Scenario.streaming_env Scenario.two_chunks
              eq_refl eq_refl) as [Hread [Hstream _]].
  split; [ exact Hread | ].
  apply Hstream with (response := Scenario.streaming_response); reflexivity.
Defined.

(** A SEARCH tag in mixed case that starts with "Deep". *)
Lemma deep_search_prefix_witness :
  has_deep_search Scenario.deep_in_search "sea creatures" /\
  Directive.next_hop "hello" Scenario.deep_in_search
    = Some (DEEP_SEARCH, "sea creatures") /\
  exists p,
    Directive.next_hop "hello" Scenario.deep_in_search
      = Some (DEEP_SEARCH, p) /\
    ((forall q, ~ has_tag "DEEP" Scenario.deep_in_search q) ->
     has_deep_search Scenario.deep_in_search p).
Proof.
  assert (H : has_deep_search Scenario.deep_in_search "sea creatures").
  { exists "Let me look. ", "<search>Deep", "   ", "</SEARCH>", "".
    repeat split; try reflexivity. discriminate. }
  split; [ exact H | ].
  split; [ reflexivity | ].
  exact (deep_search_prefix "hello" Scenario.deep_in_search "sea creatures" H).
Defined.

(* ===================================================================== *)
(** * Part III. Further properties of the code *)
(* ===================================================================== *)

(** ** What a retried call can cost *)

Lemma sleep_total_app (a b : list Event) :
  sleep_total (a ++ b) = (sleep_total a + sleep_total b)%Z.
Proof.
  induction a as [|x a IH]; cbn [app sleep_total]; [ lia | ].
  destruct x; rewrite ?IH; lia.
Qed.

Lemma backoff_run {A} (line msg : string) (ms : Z) (k : M A) (w : World) :
  (console_warn line ;; to_sink msg ;; sleep ms ;; k)%agent w =
    k (mkWorld (calls w)
         (((trace w ++ [EvConsoleWarn line]) ++ [EvSink msg]) ++ [EvSleep ms])
         (vars w)).
Proof. reflexivity. Qed.

Lemma backoff_budget_mono (k n : nat) :
  k <= n -> (backoff_budget k <= backoff_budget n)%Z.
Proof.
  intros H. unfold backoff_budget.
  assert (2 ^ Z.of_nat k <= 2 ^ Z.of_nat n)%Z by (apply Z.pow_le_mono_r; lia).
  lia.
Qed.

(** From attempt [k] on: the calls and the waits that are left. *)
Lemma retry_loop_budget (env : Env) (params : NativeParams) (n : nat) :
  forall fuel k w,
    k <= n ->
    let r := retry_loop env params (Z.of_nat n) (Some to_sink) fuel
                        (Z.of_nat k) w in
    calls (snd r) <= calls w + (S n - k) /\
    (sleep_total (trace (snd r))
       <= sleep_total (trace w) + (backoff_budget n - backoff_budget k))%Z.
Proof.
  induction fuel as [|fuel IH]; intros k w Hk; cbn zeta;
    pose proof (backoff_budget_mono k n Hk) as Hmono.
  - cbn [retry_loop out_of_fuel snd]. split; lia.
  - rewrite retry_loop_unfold by (apply Z.leb_le; lia). cbn zeta.
    destruct (generateContentStream env (calls w) params) as [s|error].
    + cbn [snd calls trace]. rewrite sleep_total_app. cbn [sleep_total].
      split; lia.
    + destruct (isQuotaError error && (Z.of_nat k <? Z.of_nat n)%Z)%bool eqn:Hq.
      * apply andb_prop in Hq. destruct Hq as [_ Hlt]. apply Z.ltb_lt in Hlt.
        cbv beta iota. rewrite backoff_run. cbn [calls trace vars].
        replace (Z.of_nat k + 1)%Z with (Z.of_nat (S k)) by lia.
        match goal with
        | |- context [retry_loop _ _ _ _ fuel _ ?W] => specialize (IH (S k) W)
        end.
        cbn zeta in IH. destruct IH as [IHc IHs]; [ lia | ].
        cbn [calls trace] in IHc, IHs.
        rewrite !sleep_total_app in IHs. cbn [sleep_total] in IHs.
        assert (Hstep : (backoff_budget (S k)
                         = backoff_budget k + backoff_delay (Z.of_nat k))%Z).
        { unfold backoff_budget, backoff_delay.
          rewrite Nat2Z.inj_succ, Z.pow_succ_r by lia. lia. }
        split; lia.
      * cbn [snd calls trace]. rewrite sleep_total_app. cbn [sleep_total].
        split; lia.
Qed.

(** X1.  Whatever the provider answers, a call with [retries = n] makes at
    most [n + 1] requests and waits at most [2000 * (2^n - 1) + 1000 * n]
    milliseconds in all: 17 seconds for the [retries = 3] of the handler.
    It never runs out of the tests its loop is given. *)
Theorem retry_budget (env : Env) (params : NativeParams) (n : nat) (w : World) :
  let r := generateContentStreamWithRetry env params (Z.of_nat n)
             (Some to_sink) w in
  fst r <> OutOfFuel /\
  calls (snd r) <= calls w + S n /\
  (sleep_total (trace (snd r)) <= sleep_total (trace w) + backoff_budget n)%Z /\
  backoff_budget 3 = 17000%Z.
Proof.
  cbn zeta. split.
  { assert (Hst : stable (fun _ _ => True) any
                     (generateContentStreamWithRetry env params (Z.of_nat n)
                        (Some to_sink))).
    { apply (stable_generateContentStreamWithRetry (fun _ _ => True))
        with (quiet := fun _ => True); auto.
      intros msg w0. cbn. unfold any. auto. }
    specialize (Hst w).
    destruct (generateContentStreamWithRetry _ _ _ _ w) as [[s|e|] w'];
      cbn; [ discriminate | discriminate | contradiction ]. }
  rewrite start_retrying.
  pose proof (retry_loop_budget env (with_default_model params) n
                (Z.to_nat (Z.of_nat n + 1) + 1) 0
                (mkWorld (calls w) (trace w ++ model_warning params) (vars w))
                (Nat.le_0_l n)) as H.
  cbn zeta in H. change (Z.of_nat 0) with 0%Z in H.
  destruct H as [Hc Hs]. cbn [calls trace] in Hc, Hs.
  rewrite sleep_total_app in Hs.
  assert (Hw : sleep_total (model_warning params) = 0%Z)
    by (unfold model_warning; destruct (String.eqb _ _); reflexivity).
  change (backoff_budget 0) with 0%Z in Hs.
  repeat split; try lia. 
Qed.

(** ** The errors of the aggregator *)

Lemma prefix_append (p b : string) : String.prefix p (p ++ b) = true.
Proof.
  induction p as [|a p IH]; cbn.
  - now destruct b.
  - destruct (ascii_dec a a); [ exact IH | congruence ].
Qed.


Lemma includes_skip (p x y : string) :
  JsString.includes p y = true -> JsString.includes p (x ++ y) = true.
Proof.
  intros H. induction x as [|c x IH]; [ exact H | ].
  cbn [append JsString.includes]. now destruct (String.prefix p _).
Qed.

Lemma unavailable_message_marks (model : string) :
  JsString.includes "currently unavailable"
    (OpenRouter.unavailable_message model) = true /\
  JsString.includes "unavailable" (OpenRouter.unavailable_message model) = true /\
  JsString.includes "OpenRouter" (OpenRouter.unavailable_message model) = true.
Proof.
  unfold OpenRouter.unavailable_message.
  repeat split; do 4 apply includes_skip; reflexivity.
Qed.

(** X2.  A 404 whose body reports "No allowed providers", or carries the
    error code 404, raises the "unavailable" error for the model asked for,
    whatever its name: an error the fallback test of the SIMPLE branch
    accepts, and whose message the outer [catch] hands to the user word for
    word. *)
Theorem unavailable_error_reaches_user (env : Env) (model : string)
    (response : HttpResponse) (errorData : json)
    (fields : list (string * json)) :
  resp_status response = 404%Z ->
  resp_json response = Ok errorData ->
  Js.get errorData "error" = Ok (Some (JObj fields)) ->
  reports_no_providers fields ->
  let e := OpenRouter.failure_of_response model response in
  e = new_Error (OpenRouter.unavailable_message model) /\
  message_includes "unavailable" e = true /\
  error_text env e
    = "An error occurred: " ++ OpenRouter.unavailable_message model.
Proof.
  intros Hs Hj Hg Hr. cbn zeta.
  destruct (unavailable_message_marks model) as [Hcu [Hu Ho]].
  assert (He : OpenRouter.failure_of_response model response
               = new_Error (OpenRouter.unavailable_message model)).
  { unfold OpenRouter.failure_of_response, OpenRouter.inspect_error_body.
    rewrite Hj, Hg, Hs. cbn [Js.get_opt Z.eqb Pos.eqb].
    assert (Hthrown :
      match OpenRouter.message_has_no_providers (Js.field "message" fields) with
      | Err e => Err e
      | Ok true => Err (new_Error (OpenRouter.unavailable_message model))
      | Ok false =>
          if match Js.field "code" fields with
             | Some (JNum 404) => true
             | _ => false
             end
          then Err (new_Error (OpenRouter.unavailable_message model))
          else
            match Js.field "message" fields with
            | Some v =>
                if Js.truthy (Js.field "message" fields)
                then Ok (Js.to_string v)
                else Ok ("OpenRouter Error ("
                         ++ JsString.of_Z (resp_status response) ++ ")")
            | None => Ok ("OpenRouter Error ("
                          ++ JsString.of_Z (resp_status response) ++ ")")
            end
      end = @Err string (new_Error (OpenRouter.unavailable_message model))).
    { destruct Hr as [[s [Hm Hi]] | [Hc [Hm | [s Hm]]]]; rewrite Hm;
        cbn [OpenRouter.message_has_no_providers]; rewrite ?Hi, ?Hc;
        try reflexivity.
      destruct (JsString.includes "No allowed providers" s); reflexivity. }
    rewrite Hs in Hthrown. rewrite Hthrown.
    cbn [err_is_Error err_message new_Error]. now rewrite Hcu. }
  rewrite He. unfold error_text, chosen_error_message, message_includes.
  cbn [err_message new_Error]. rewrite Hu, Ho. auto.
Qed.


(** ** Line framing of the event stream *)

Lemma split_terminated (x : string) :
  JsString.split JsString.LF (x ++ JsString.nl)
    = (JsString.split JsString.LF x ++ [""])%list.
Proof.
  induction x as [|c x IH]; [ reflexivity | ].
  cbn [append JsString.split]. rewrite IH.
  destruct (Ascii.eqb c JsString.LF); [ reflexivity | ].
  pose proof (split_not_nil JsString.LF x) as Hx.
  destruct (JsString.split JsString.LF x); [ congruence | reflexivity ].
Qed.

Lemma split_one (s : string) :
  no_line_feed s -> JsString.split JsString.LF s = [s].
Proof.
  unfold no_line_feed. induction s as [|c s IH]; intros H; [ reflexivity | ].
  cbn [all_chars] in H. apply andb_prop in H. destruct H as [Hc Hs].
  apply negb_true_iff in Hc. cbn [JsString.split]. rewrite Hc, (IH Hs).
  reflexivity.
Qed.

(** A line feed between two texts separates their lines. *)
Lemma split_join (a b : string) :
  JsString.split JsString.LF (a ++ JsString.nl ++ b)
    = (JsString.split JsString.LF a ++ JsString.split JsString.LF b)%list.
Proof.
  rewrite <- append_assoc. rewrite split_append, split_terminated.
  rewrite List.removelast_last, List.last_last. reflexivity.
Qed.

Lemma complete_lines_terminated (x tail : string) :
  no_line_feed tail ->
  complete_lines (x ++ JsString.nl ++ tail) = JsString.split JsString.LF x.
Proof.
  intros H. unfold complete_lines. rewrite split_join, (split_one tail H).
  apply List.removelast_last.
Qed.

(** X4.  Only lines that a line feed has ended are parsed: the deltas of a
    body are those of the lines before its last line feed, and what comes
    after that line feed is dropped when the body ends, however the body was
    cut into chunks.  A body without line feed yields nothing. *)
Theorem unterminated_tail_is_dropped (env : Env) (chunks : list string)
    (body tail : string) :
  String.concat "" chunks = body ++ JsString.nl ++ tail ->
  no_line_feed tail ->
  OpenRouter.read_events env chunks ""
    = List.flat_map (OpenRouter.deltas_of_line env)
        (JsString.split JsString.LF body) /\
  (forall alone,
     String.concat "" alone = tail ->
     OpenRouter.read_events env alone "" = []).
Proof.
  intros Hc Ht. split.
  - rewrite read_events_lines by reflexivity. cbn [append]. rewrite Hc.
    now rewrite complete_lines_terminated.
  - intros alone Ha. rewrite read_events_lines by reflexivity. cbn [append].
    rewrite Ha. unfold complete_lines. now rewrite (split_one tail Ht).
Qed.

(** X5.  The sentinel line does not end the reading: it yields nothing
    itself, and the lines that follow it are parsed like those before
    it. *)
Theorem sentinel_does_not_stop (env : Env) (chunks : list string)
    (before after : string) :
  String.concat "" chunks
    = before ++ JsString.nl ++ "data: [DONE]" ++ JsString.nl
      ++ after ++ JsString.nl ->
  OpenRouter.read_events env chunks ""
    = (List.flat_map (OpenRouter.deltas_of_line env)
         (JsString.split JsString.LF before)
       ++ List.flat_map (OpenRouter.deltas_of_line env)
            (JsString.split JsString.LF after))%list.
Proof.
  intros Hc. rewrite read_events_lines by reflexivity. cbn [append].
  rewrite Hc.
  replace (before ++ JsString.nl ++ "data: [DONE]" ++ JsString.nl
           ++ after ++ JsString.nl)
    with ((before ++ JsString.nl ++ "data: [DONE]" ++ JsString.nl ++ after)
          ++ JsString.nl ++ "")
    by (rewrite !append_assoc; reflexivity).
  rewrite complete_lines_terminated by reflexivity.
  rewrite split_join.
  change ("data: [DONE]" ++ JsString.nl ++ after)
    with ("data: [DONE]" ++ (JsString.nl ++ after)).
  rewrite (split_join "data: [DONE]" after).
  rewrite !List.flat_map_app. reflexivity.
Qed.

(** ** The branches of the loop *)

Lemma stream_chunk_run (input : AgentInput) (chunk : string) (w : World) :
  stream_chunk input chunk w =
    (Ret tt, mkWorld (calls w) (trace w ++ sunk input [chunk]) (vars w)).
Proof.
  unfold stream_chunk, sunk. destruct (in_has_sink input); cbn.
  - reflexivity.
  - rewrite app_nil_r. now destruct w.
Qed.

Lemma return_message_run (cx : Context) (w : World) (p c : string) :
  in_project (cx_input cx) = Some p -> in_chat (cx_input cx) = Some c ->
  return_message cx w =
    (Ret (Return (mkResult [mkMessage p c "ai" (finalResponseText (vars w))
                                      None (metadataPayload (vars w))])), w).
Proof.
  intros Hp Hc. unfold return_message, bind.
  now rewrite (result_message_run cx None w p c Hp Hc).
Qed.

(** X6.  The IMAGE branch always ends the turn, with the project and the
    chat at hand: with the image and the text so far when the image service
    answers, and, when it fails, with no image and the text so far followed
    by a note that names the failure.  Grounding metadata is kept in both
    cases. *)
Theorem image_hop_is_terminal (env : Env) (cx : Context) (w : World)
    (p c : string) :
  in_project (cx_input cx) = Some p ->
  in_chat (cx_input cx) = Some c ->
  let so_far := finalResponseText (vars w) in
  fst (hop_image env cx w) =
    Ret (Return (mkResult
      [ match generateImage env (calls w) (image_prompt (vars w))
                (in_preferred_image_model (cx_input cx)) with
        | Ok imageBase64 =>
            mkMessage p c "ai" so_far (Some imageBase64)
                      (metadataPayload (vars w))
        | Err e =>
            mkMessage p c "ai" (so_far ++ image_failure_note e) None
                      (metadataPayload (vars w))
        end ])).
Proof.
  intros Hp Hc. cbn zeta.
  unfold hop_image, onStreamChunk.
  unfold bind at 1. unfold read at 1.
  unfold bind at 1. rewrite stream_chunk_run.
  unfold bind at 1. unfold read at 1. cbn [vars].
  unfold bind at 1. unfold read at 1. cbn [vars].
  fold (image_prompt (vars w)).
  unfold try_catch, bind at 1, call, bind at 1, ask, lift. cbn [calls].
  destruct (generateImage env (calls w) (image_prompt (vars w))
              (in_preferred_image_model (cx_input cx))) as [img|e].
  - unfold ret at 1. unfold bind at 1.
    rewrite (result_message_run cx (Some img) _ p c Hp Hc). reflexivity.
  - unfold throw at 1. fold (image_failure_note e).
    unfold bind at 1, append_response, update.
    unfold bind at 1. rewrite stream_chunk_run.
    unfold return_message, bind at 1.
    rewrite (result_message_run cx None _ p c Hp Hc). reflexivity.
Qed.

(** X7.  The CANVAS branch ends the turn with the text of the first message
    of the sub-agent in place of whatever text the turn had accumulated; the
    grounding metadata stays.  A sub-agent that returns no message makes the
    branch throw. *)
Theorem canvas_replaces_text (env : Env) (cx : Context) (w : World)
    (p c : string) :
  in_project (cx_input cx) = Some p ->
  in_chat (cx_input cx) = Some c ->
  (forall first others,
     runCanvasAgent env (calls w) (currentPrompt (vars w))
       = Ok (first :: others) ->
     fst (hop_canvas env cx w) =
       Ret (Return (mkResult
              [mkMessage p c "ai" (text first) None
                         (metadataPayload (vars w))]))) /\
  (runCanvasAgent env (calls w) (currentPrompt (vars w)) = Ok [] ->
   fst (hop_canvas env cx w) = Throw (TypeError_read "text")).
Proof.
  intros Hp Hc. split.
  - intros first others Hr.
    unfold hop_canvas. unfold bind at 1, read.
    unfold bind at 1, call, bind at 1, ask, lift. cbn [calls vars].
    rewrite Hr. unfold ret at 1. unfold bind at 1, update.
    rewrite (return_message_run cx _ p c Hp Hc). reflexivity.
  - intros Hr.
    unfold hop_canvas. unfold bind at 1, read.
    unfold bind at 1, call, bind at 1, ask, lift. cbn [calls vars].
    rewrite Hr. reflexivity.
Qed.

(** X8.  PROJECT and STUDY on a model that is not native only switch the
    action to SIMPLE: nothing is called, nothing is streamed, the prompt and
    the text are as before. *)
Theorem scaffold_downgrade (env : Env) (cx : Context) (w : World) :
  isGoogleModel (cx_model cx) = false ->
  currentAction (vars w) = PROJECT \/ currentAction (vars w) = STUDY ->
  iteration env cx w =
    (Ret Continue,
     mkWorld (calls w) (trace w)
       (mkLoop (finalResponseText (vars w)) (metadataPayload (vars w))
               (fallbackSearchContext (vars w)) SIMPLE
               (currentPrompt (vars w)) (S (loopCount (vars w)))
               (routingPrompt (vars w)) (generatedThisLoop (vars w)))).
Proof.
  intros Hn [Ha|Ha];
    unfold iteration, hop, hop_project, hop_study, continue_with, bind,
      update, read, ret; cbn; rewrite Ha, Hn; reflexivity.
Qed.

(** ** Part III at concrete inputs *)

Lemma unavailable_error_reaches_user_witness :
  OpenRouter.failure_of_response Scenario.aggregator_model
      Scenario.unavailable_response
    = new_Error (OpenRouter.unavailable_message Scenario.aggregator_model) /\
  message_includes "unavailable"
    (OpenRouter.failure_of_response Scenario.aggregator_model
       Scenario.unavailable_response) = true /\
  error_text Scenario.unavailable_env
    (OpenRouter.failure_of_response Scenario.aggregator_model
       Scenario.unavailable_response)
    = "An error occurred: "
      ++ OpenRouter.unavailable_message Scenario.aggregator_model.
Proof.
  apply (unavailable_error_reaches_user Scenario.unavailable_env
           Scenario.aggregator_model Scenario.unavailable_response
           (JObj [("error", JObj Sample.no_providers_fields)])
           Sample.no_providers_fields); try reflexivity.
  left. eexists. split; reflexivity.
Defined.


(** Two events were sent; the one without line feed is lost. *)
Lemma unterminated_tail_is_dropped_witness :
  OpenRouter.read_events Scenario.streaming_env Sample.cut_short ""
    = List.flat_map (OpenRouter.deltas_of_line Scenario.streaming_env)
        (JsString.split JsString.LF ("data: " ++ hi_json)) /\
  (forall alone,
     String.concat "" alone = "data: " ++ hi_json ->
     OpenRouter.read_events Scenario.streaming_env alone "" = []).
Proof.
  apply (unterminated_tail_is_dropped Scenario.streaming_env Sample.cut_short
           ("data: " ++ hi_json) ("data: " ++ hi_json)); reflexivity.
Defined.

Lemma sentinel_does_not_stop_witness :
  OpenRouter.read_events Scenario.streaming_env Sample.after_sentinel ""
    = (List.flat_map (OpenRouter.deltas_of_line Scenario.streaming_env)
         (JsString.split JsString.LF "")
       ++ List.flat_map (OpenRouter.deltas_of_line Scenario.streaming_env)
            (JsString.split JsString.LF ("data: " ++ hi_json)))%list.
Proof.
  apply (sentinel_does_not_stop Scenario.streaming_env Sample.after_sentinel
           "" ("data: " ++ hi_json)).
  reflexivity.
Defined.

Lemma image_hop_is_terminal_witness :
  fst (hop_image Sample.studio_env Scenario.native_context
         (Sample.midway IMAGE)) =
    Ret (Return (mkResult
      [ mkMessage "project-1" "chat-1" "ai"
          ("Working on it."
           ++ image_failure_note
                (new_Error "You've exceeded your API quota. Please try again later."))
          None (Some [Scenario.cited]) ])).
Proof.
  apply (image_hop_is_terminal Sample.studio_env Scenario.native_context
           (Sample.midway IMAGE) "project-1" "chat-1"); reflexivity.
Defined.

Lemma canvas_replaces_text_witness :
  fst (hop_canvas Sample.studio_env Scenario.native_context
         (Sample.midway CANVAS)) =
    Ret (Return (mkResult
           [mkMessage "project-1" "chat-1" "ai" "Here is your canvas." None
                      (Some [Scenario.cited])])).
Proof.
  apply (proj1 (canvas_replaces_text Sample.studio_env Scenario.native_context
                  (Sample.midway CANVAS) "project-1" "chat-1"
                  eq_refl eq_refl)
           Sample.canvas_answer []).
  reflexivity.
Defined.

Lemma scaffold_downgrade_witness :
  iteration Scenario.plain_env Scenario.aggregator_context
    (Sample.midway STUDY) =
    (Ret Continue,
     mkWorld 3 [EvRoute "hello" 0; EvGetContext]
       (mkLoop "Working on it." (Some [Scenario.cited]) "" SIMPLE
               "a red bicycle" 2 None "")).
Proof.
  apply (scaffold_downgrade Scenario.plain_env Scenario.aggregator_context
           (Sample.midway STUDY)).
  - reflexivity.
  - right. reflexivity.
Defined.

(** ** Searching, then speaking *)

Lemma onStreamChunk_run (cx : Context) (chunk : string) (w : World) :
  onStreamChunk cx chunk w =
    (Ret tt,
     mkWorld (calls w) (trace w ++ sunk (cx_input cx) [chunk]) (vars w)).
Proof. apply stream_chunk_run. Qed.

Lemma sink_each_run (cx : Context) (f : string -> string) (xs : list string) :
  forall w,
    for_each xs (fun msg => onStreamChunk cx (f msg)) w =
      (Ret tt,
       mkWorld (calls w) (trace w ++ sunk (cx_input cx) (List.map f xs))
               (vars w)).
Proof.
  induction xs as [|x xs IH]; intros w; cbn [for_each List.map].
  - unfold sunk. destruct (in_has_sink (cx_input cx)); cbn [List.map];
      rewrite app_nil_r; now destruct w.
  - unfold bind. rewrite onStreamChunk_run, IH.
    cbn [calls trace vars]. rewrite <- app_assoc.
    unfold sunk. now destruct (in_has_sink (cx_input cx)).
Qed.

Lemma search_hop_run (env : Env) (cx : Context) (w : World)
    (progress : list string) (result : ResearchResult) :
  currentAction (vars w) = SEARCH \/ currentAction (vars w) = DEEP_SEARCH ->
  deepResearch env (calls w) (currentPrompt (vars w)) = (progress, Ok result) ->
  iteration env cx w =
    (Ret Continue,
     mkWorld (S (calls w))
       (((trace w
          ++ sunk (cx_input cx)
               [JsString.nl ++ "Searching sources... " ++ JsString.nl])
         ++ [EvDeepResearch (currentPrompt (vars w))])
        ++ sunk (cx_input cx)
             (List.map (fun msg => JsString.nl ++ "*" ++ msg ++ "*") progress))
       (mkLoop (finalResponseText (vars w))
          (match r_sources result with
           | Some (url :: urls) => Some (List.map (citation env) (url :: urls))
           | _ => metadataPayload (vars w)
           end)
          (r_answer result) SIMPLE
          (synthesis_prompt (currentPrompt (vars w)) (r_answer result))
          (S (loopCount (vars w))) (routingPrompt (vars w))
          (generatedThisLoop (vars w)))).
Proof.
  intros Ha Hr.
  assert (Hhop : iteration env cx w =
                 hop_search env cx
                   (mkWorld (calls w) (trace w)
                      (set_loopCount (S (loopCount (vars w))) (vars w)))).
  { unfold iteration, hop, bind, update, read. cbn [vars].
    destruct Ha as [Ha|Ha]; cbn [currentAction set_loopCount];
      rewrite Ha; reflexivity. }
  rewrite Hhop. unfold hop_search.
  unfold bind at 1. rewrite onStreamChunk_run.
  unfold bind at 1, read. cbn [vars currentPrompt set_loopCount].
  unfold bind at 1, ask. cbn [calls]. rewrite Hr.
  unfold bind at 1. cbn [fst snd].
  rewrite (sink_each_run cx
             (fun msg => JsString.nl ++ "*" ++ msg ++ "*") progress).
  unfold bind at 1, lift, ret.
  fold (synthesis_prompt (currentPrompt (vars w)) (r_answer result)).
  destruct (r_sources result) as [[|url urls]|];
    unfold continue_with, bind, update, ret; reflexivity.
Qed.

(** X9.  SEARCH and DEEP_SEARCH run the same branch.  When the research
    service answers, the hop makes that one call and continues with SIMPLE:
    the answer becomes both the cached fallback context and the context of
    the synthesis prompt; the citations of a non-empty source list replace
    the grounding metadata, one per source and in order, an empty or missing
    list leaves it as it was; the accumulated text is untouched. *)
Theorem search_hop_feeds_simple (env : Env) (cx : Context) (w : World)
    (progress : list string) (result : ResearchResult) :
  currentAction (vars w) = SEARCH \/ currentAction (vars w) = DEEP_SEARCH ->
  deepResearch env (calls w) (currentPrompt (vars w)) = (progress, Ok result) ->
  let r := iteration env cx w in
  fst r = Ret Continue /\
  calls (snd r) = S (calls w) /\
  vars (snd r) =
    mkLoop (finalResponseText (vars w))
      (match r_sources result with
       | Some (url :: urls) => Some (List.map (citation env) (url :: urls))
       | _ => metadataPayload (vars w)
       end)
      (r_answer result) SIMPLE
      (synthesis_prompt (currentPrompt (vars w)) (r_answer result))
      (S (loopCount (vars w))) (routingPrompt (vars w))
      (generatedThisLoop (vars w)).
Proof.
  intros Ha Hr. cbn zeta. rewrite (search_hop_run env cx w progress result Ha Hr).
  repeat split.
Qed.

(** A search for the weather: one source, no progress message. *)
Lemma search_hop_feeds_simple_witness :
  let r := iteration Scenario.searching_env Scenario.searching_context
             (Scenario.started SEARCH "weather in Paris") in
  fst r = Ret Continue /\
  calls (snd r) = 3 /\
  vars (snd r) =
    mkLoop ""
      (Some [citation Scenario.searching_env "https://www.meteo.example/paris"])
      "Light rain, 12 degrees." SIMPLE
      (synthesis_prompt "weather in Paris" "Light rain, 12 degrees.")
      1 None "".
Proof.
  apply (search_hop_feeds_simple Scenario.searching_env
           Scenario.searching_context
           (Scenario.started SEARCH "weather in Paris") []
           (mkResearch "Light rain, 12 degrees."
                       (Some ["https://www.meteo.example/paris"]))).
  - left. reflexivity.
  - reflexivity.
Defined.

(** ** An input without project or chat *)

Lemma never_returns_bind {A} (m : M A) (k : A -> M Step) :
  (forall a, never_returns (k a)) -> never_returns (bind m k).
Proof.
  intros Hk w r. unfold bind.
  destruct (m w) as [[a| |] w']; cbn [fst]; [ apply Hk | | ]; discriminate.
Qed.

Lemma never_returns_after {A} (m : M A) (k : A -> M Step) :
  never_delivers m -> never_returns (bind m k).
Proof.
  intros Hm w r. unfold bind. specialize (Hm w).
  destruct (m w) as [[a| |] w']; cbn [fst] in *;
    [ now destruct (Hm a) | | ]; discriminate.
Qed.

Lemma never_returns_try_catch (m : M Step) (h : JsError -> M Step) :
  never_returns m -> (forall e, never_returns (h e)) ->
  never_returns (try_catch m h).
Proof.
  intros Hm Hh w r. unfold try_catch. specialize (Hm w r).
  destruct (m w) as [[a| |] w']; cbn [fst] in *;
    [ assumption | apply Hh | discriminate ].
Qed.

Lemma never_returns_throw (e : JsError) : never_returns (throw e).
Proof. intros w r. cbn. discriminate. Qed.

Lemma never_returns_continue : never_returns (ret Continue).
Proof. intros w r. cbn. discriminate. Qed.

Section Orphan.

Variable env : Env.
Variable cx : Context.
Hypothesis orphan :
  in_project (cx_input cx) = None \/ in_chat (cx_input cx) = None.

Lemma result_message_orphan (image : option string) (w : World) :
  result_message cx image w = (Throw (TypeError_read "id"), w).
Proof.
  unfold result_message, id_of, bind.
  destruct orphan as [H|H]; rewrite H;
    [ | destruct (in_project (cx_input cx)) ]; reflexivity.
Qed.

Lemma result_message_never (image : option string) :
  never_delivers (result_message cx image).
Proof. intros w a. rewrite result_message_orphan. cbn. discriminate. Qed.

Lemma never_returns_message : never_returns (return_message cx).
Proof. apply never_returns_after, result_message_never. Qed.

Lemma never_returns_continue_with (a : RouterAction) :
  never_returns (continue_with a).
Proof. apply never_returns_bind. intros _. apply never_returns_continue. Qed.

Ltac orphan_step :=
  first [ apply never_returns_message
        | apply never_returns_continue_with
        | apply never_returns_continue
        | apply never_returns_throw
        | apply never_returns_after, result_message_never
        | apply never_returns_try_catch; [ | intros ? ]
        | apply never_returns_bind; intros ? ].

Lemma never_returns_hop : never_returns (hop env cx).
Proof.
  unfold hop. apply never_returns_bind. intros [ | | | | | | | ].
  - unfold hop_simple. cbv zeta. do 6 orphan_step.
    destruct (Directive.next_hop _ _) as [[action nextPrompt]|];
      repeat orphan_step.
  - unfold hop_search. cbv zeta. repeat orphan_step.
  - unfold hop_search. cbv zeta. repeat orphan_step.
  - unfold hop_think. cbv zeta.
    destruct (_ || _)%bool; repeat orphan_step.
  - unfold hop_image. cbv zeta. repeat orphan_step.
  - unfold hop_canvas. cbv zeta. do 2 orphan_step.
    match goal with
    | |- never_returns (match ?l with _ => _ end) => destruct l
    end; repeat orphan_step.
  - unfold hop_project. cbv zeta.
    destruct (negb _); repeat orphan_step.
  - unfold hop_study. cbv zeta.
    destruct (negb _); repeat orphan_step.
Qed.

Lemma agent_loop_orphan (fuel : nat) :
  never_delivers (agent_loop env cx fuel).
Proof.
  induction fuel as [|fuel IH]; intros w a.
  - cbn. discriminate.
  - rewrite agent_loop_unfold.
    destruct (Nat.ltb (loopCount (vars w)) MAX_LOOPS).
    + pose proof (never_returns_bind
                    (update (fun s => set_loopCount (S (loopCount s)) s))
                    (fun _ => hop env cx)
                    (fun _ => never_returns_hop) w) as Hit.
      fold (iteration env cx) in Hit.
      destruct (iteration env cx w) as [[[|r]| |] w']; cbn [fst] in *;
        [ apply IH | now destruct (Hit r) | discriminate | discriminate ].
    + apply result_message_never.
Qed.

End Orphan.

Lemma never_delivers_bind {A B} (m : M A) (k : A -> M B) :
  (forall a, never_delivers (k a)) -> never_delivers (bind m k).
Proof.
  intros Hk w b. unfold bind.
  destruct (m w) as [[a| |] w']; cbn [fst]; [ apply Hk | | ]; discriminate.
Qed.

Lemma agent_turn_orphan (env : Env) (input : AgentInput) (model : string) :
  in_project input = None \/ in_chat input = None ->
  never_delivers (agent_turn env input model).
Proof.
  intros Horphan. unfold agent_turn. cbv zeta.
  apply never_delivers_bind. intros _.
  destruct (in_user input); [ | intros w a; cbn; discriminate ].
  do 3 (apply never_delivers_bind; intros ?).
  apply agent_loop_orphan. exact Horphan.
Qed.

(** X10.  The handler needs the project and the chat of its input to build
    any message, the one of its [catch] block included.  When either is
    absent the promise is rejected, whatever the collaborators answer: the
    [try] block cannot return, the error it throws is logged, and the
    [catch] block itself throws the TypeError of reading [id]. *)
Theorem missing_project_rejects (env : Env) (input : AgentInput) (w : World) :
  in_project input = None \/ in_chat input = None ->
  let r := runAutonomousAgent env input w in
  fst r = Throw (TypeError_read "id") /\
  (exists e, fst (agent_turn env input (initial_model input) w) = Throw e) /\
  exists t,
    trace (snd r) = (t ++ [EvConsoleError "Error in runAutonomousAgent:"])%list.
Proof.
  intros Horphan. cbv zeta.
  pose proof (agent_turn_total env input (initial_model input) w) as Htot.
  pose proof (agent_turn_orphan env input (initial_model input) Horphan w)
    as Hnever.
  unfold runAutonomousAgent. fold (initial_model input).
  destruct (agent_turn env input (initial_model input) w) as [[r|e|] w']
    eqn:Hturn; cbn [fst] in *;
    [ now destruct (Hnever r) | | congruence ].
  rewrite (try_catch_throw _ _ _ _ _ Hturn).
  unfold bind, console_error, emit, id_of.
  destruct Horphan as [H|H]; rewrite H;
    [ | destruct (in_project input) ]; cbn;
    (split; [ reflexivity | split; [ now exists e | now exists (trace w') ] ]).
Qed.

Lemma missing_project_rejects_witness :
  let r := runAutonomousAgent Scenario.plain_env Sample.orphan_input
             Fixture.fresh in
  fst r = Throw (TypeError_read "id") /\
  (exists e,
     fst (agent_turn Scenario.plain_env Sample.orphan_input
            (initial_model Sample.orphan_input) Fixture.fresh) = Throw e) /\
  exists t,
    trace (snd r) = (t ++ [EvConsoleError "Error in runAutonomousAgent:"])%list.
Proof.
  apply (missing_project_rejects Scenario.plain_env Sample.orphan_input
           Fixture.fresh).
  right. reflexivity.
Defined.

(** ** The SIMPLE branch on a native model *)

Lemma take_text_run (cx : Context) (t : string) (w : World) :
  take_text cx t w =
    (Ret tt,
     mkWorld (calls w) (trace w ++ sunk (cx_input cx) [t])
       (set_finalResponseText (finalResponseText (vars w) ++ t)
          (set_generatedThisLoop (generatedThisLoop (vars w) ++ t) (vars w)))).
Proof.
  unfold take_text, append_response. unfold bind at 1, update at 1.
  unfold bind at 1, update at 1. cbn [calls trace vars].
  rewrite onStreamChunk_run. reflexivity.
Qed.

Lemma heard_nil (grounded : bool) (s : LoopState) : heard grounded [] s = s.
Proof.
  unfold heard. cbn [spoken cited_by String.concat].
  rewrite !append_nil_r. destruct grounded; now destruct s.
Qed.

Lemma sunk_nil (input : AgentInput) : sunk input [] = [].
Proof. unfold sunk. now destruct (in_has_sink input). Qed.

Lemma sunk_cons (input : AgentInput) (t : string) (ts : list string) :
  sunk input (t :: ts) = (sunk input [t] ++ sunk input ts)%list.
Proof. unfold sunk. now destruct (in_has_sink input). Qed.

(** The loop over a native stream, in closed form. *)
Lemma consume_chunks_run (cx : Context) (used : bool)
    (chunks : list NativeChunk) :
  forall w,
    for_each chunks
      (fun chunk =>
         match c_text chunk with
         | Some t =>
             if String.eqb t "" then ret tt
             else
               take_text cx t ;;
               if (cx_isNative cx || used)%bool then
                 match c_grounding chunk with
                 | Some chunks => push_grounding chunks
                 | None => ret tt
                 end
               else ret tt
         | None => ret tt
         end) w =
      (Ret tt,
       mkWorld (calls w)
         (trace w ++ sunk (cx_input cx) (spoken chunks))
         (heard (cx_isNative cx || used) chunks (vars w))).
Proof.
  induction chunks as [|chunk rest IH]; intros w; cbn [for_each].
  - rewrite heard_nil. cbn [spoken]. rewrite sunk_nil, app_nil_r.
    now destruct w.
  - unfold bind at 1. unfold heard at 1. cbn [spoken cited_by].
    destruct (c_text chunk) as [t|] eqn:Ht;
      [ destruct (String.eqb t "") eqn:Hempty | ];
      try (cbn [ret]; rewrite IH; unfold heard;
           destruct (c_grounding chunk); reflexivity).
    unfold bind at 1. rewrite take_text_run.
    rewrite (sunk_cons (cx_input cx) t (spoken rest)), app_assoc, !concat_cons.
    destruct (cx_isNative cx || used)%bool;
      [ destruct (c_grounding chunk) as [g|] | ];
      unfold push_grounding, update, ret; rewrite IH; unfold heard;
      cbn [calls trace vars finalResponseText metadataPayload
           fallbackSearchContext currentAction currentPrompt loopCount
           routingPrompt generatedThisLoop set_finalResponseText
           set_generatedThisLoop set_metadataPayload];
      rewrite !append_assoc; reflexivity.
Qed.

Lemma native_first_answer (env : Env) (params : NativeParams)
    (onRetry : option (string -> M unit)) (w : World) (s : NativeStream) :
  generateContentStream env (calls w) (with_default_model params) = Ok s ->
  generateContentStreamWithRetry env params 3 onRetry w =
    (Ret s,
     mkWorld (S (calls w))
       ((trace w ++ model_warning params)
        ++ [EvGenerateContentStream (with_default_model params)])
       (vars w)).
Proof.
  intros Hs. rewrite start_retrying.
  change (Z.to_nat (3 + 1) + 1) with 5.
  rewrite retry_loop_unfold by reflexivity. cbn zeta. cbn [calls].
  rewrite Hs. reflexivity.
Qed.

Lemma turns_of_hop_plain (cx : Context) (current : string) (w : World) :
  in_files (cx_input cx) = None \/ in_files (cx_input cx) = Some [] ->
  turns_of_hop cx current w =
    (Ret (historyMessages cx ++ [mkTurn "user" current [PText current]])%list,
     w).
Proof. intros [H|H]; unfold turns_of_hop; rewrite H; reflexivity. Qed.

(** The world a native SIMPLE hop leaves once its stream is consumed. *)
Lemma native_simple_run (env : Env) (cx : Context) (w : World)
    (chunks : list NativeChunk) (failed : option JsError) :
  cx_isNative cx = true ->
  in_files (cx_input cx) = None \/ in_files (cx_input cx) = Some [] ->
  let request := simple_request cx (currentPrompt (vars w)) in
  generateContentStream env (calls w) (with_default_model request)
    = Ok (mkStream chunks failed) ->
  let generated := String.concat "" (spoken chunks) in
  let w1 :=
    mkWorld (S (calls w))
      (((trace w ++ model_warning request)
        ++ [EvGenerateContentStream (with_default_model request)])
       ++ sunk (cx_input cx) (spoken chunks))
      (heard true chunks (set_generatedThisLoop "" (vars w))) in
  hop_simple env cx w =
    match failed with
    | Some e => (Throw e, w1)
    | None =>
        match Directive.next_hop (cx_prompt cx) generated with
        | Some (action, nextPrompt) =>
            (Ret Continue,
             mkWorld (calls w1) (trace w1)
               (match action with
                | IMAGE => set_routingPrompt (Some nextPrompt)
                | _ => fun s => s
                end
                  (set_currentPrompt nextPrompt
                     (set_currentAction action (vars w1)))))
        | None =>
            ((if falls_back (finalResponseText (vars w1))
                            (fallbackSearchContext (vars w1))
              then update (set_finalResponseText
                             (fallbackSearchContext (vars w1))) ;;
                   onStreamChunk cx (fallbackSearchContext (vars w1))
              else ret tt) ;;
             return_message cx) w1
        end
    end.
Proof.
  intros Hnative Hfiles request Hanswer generated w1.
  unfold hop_simple. cbv zeta. fold (system_prompt cx).
  unfold bind at 1, read at 1.
  unfold bind at 1. rewrite (turns_of_hop_plain cx _ w Hfiles).
  unfold bind at 1. unfold select_generator. rewrite Hnative.
  fold (simple_request cx (currentPrompt (vars w))). fold request.
  unfold bind at 1.
  rewrite (native_first_answer env request _ w _ Hanswer).
  cbn [ret fst snd].
  unfold bind at 1, update at 1. cbn [calls trace vars].
  unfold bind at 1, consume, for_await. cbn [items failure].
  unfold bind at 1.
  rewrite (consume_chunks_run cx false chunks).
  rewrite Hnative. cbn [orb].
  cbn [calls trace vars]. fold w1.
  destruct failed as [e|]; [ reflexivity | ].
  cbn [ret]. unfold bind at 1, read at 1.
  assert (Hg : generatedThisLoop (vars w1) = generated) by reflexivity.
  rewrite Hg.
  destruct (Directive.next_hop (cx_prompt cx) generated)
    as [[action nextPrompt]|].
  - unfold bind, update, ret. cbn [calls trace vars].
    destruct action; reflexivity.
  - unfold bind at 1, read at 1. unfold bind at 1, read at 1.
    unfold falls_back. reflexivity.
Qed.

Lemma sunk_app (input : AgentInput) (a b : list string) :
  sunk input (a ++ b) = (sunk input a ++ sunk input b)%list.
Proof.
  unfold sunk. destruct (in_has_sink input); [ apply List.map_app | reflexivity ].
Qed.

(** X11.  A directive in the text of a native SIMPLE hop sends the loop to
    the branch it names, with the payload as the next prompt, after the one
    request that answered.  The generated text, directive included, has gone
    to the sink and stays in the accumulated response; the citations of the
    chunks are added to the grounding metadata; and [routing.parameters] is
    assigned for IMAGE alone. *)
Theorem directive_stays_in_text (env : Env) (cx : Context) (w : World)
    (chunks : list NativeChunk) (action : RouterAction) (nextPrompt : string) :
  cx_isNative cx = true ->
  in_files (cx_input cx) = None \/ in_files (cx_input cx) = Some [] ->
  generateContentStream env (calls w)
    (with_default_model (simple_request cx (currentPrompt (vars w))))
    = Ok (mkStream chunks None) ->
  Directive.next_hop (cx_prompt cx) (String.concat "" (spoken chunks))
    = Some (action, nextPrompt) ->
  let r := hop_simple env cx w in
  fst r = Ret Continue /\
  calls (snd r) = S (calls w) /\
  currentAction (vars (snd r)) = action /\
  currentPrompt (vars (snd r)) = nextPrompt /\
  finalResponseText (vars (snd r)) =
    finalResponseText (vars w) ++ String.concat "" (spoken chunks) /\
  metadataPayload (vars (snd r)) = cited_by chunks (metadataPayload (vars w)) /\
  routingPrompt (vars (snd r)) =
    match action with
    | IMAGE => Some nextPrompt
    | _ => routingPrompt (vars w)
    end /\
  exists t,
    trace (snd r) = (t ++ sunk (cx_input cx) (spoken chunks))%list.
Proof.
  intros Hnative Hfiles Hanswer Hnext. cbv zeta.
  rewrite (native_simple_run env cx w chunks None Hnative Hfiles Hanswer).
  cbv zeta. rewrite Hnext. cbn [fst snd calls trace vars].
  repeat split; try (destruct action; reflexivity).
  eexists. reflexivity.
Qed.

(** The end of the SIMPLE branch, from the test of the accumulated text on. *)
Lemma simple_finish_run (cx : Context) (w : World) (p c : string) :
  in_project (cx_input cx) = Some p ->
  in_chat (cx_input cx) = Some c ->
  let said := finalResponseText (vars w) in
  let context := fallbackSearchContext (vars w) in
  ((if falls_back said context
    then update (set_finalResponseText context) ;; onStreamChunk cx context
    else ret tt) ;;
   return_message cx) w =
    (Ret (Return (mkResult
       [mkMessage p c "ai" (if falls_back said context then context else said)
                  None (metadataPayload (vars w))])),
     mkWorld (calls w)
       (trace w ++ sunk (cx_input cx)
                     (if falls_back said context then [context] else []))
       (if falls_back said context
        then set_finalResponseText context (vars w) else vars w)).
Proof.
  intros Hp Hc. cbv zeta.
  destruct (falls_back _ _).
  - unfold bind at 1. unfold bind at 1, update at 1.
    rewrite onStreamChunk_run. cbn [calls trace vars].
    now rewrite (return_message_run cx _ p c Hp Hc).
  - unfold bind at 1. cbn [ret].
    rewrite (return_message_run cx _ p c Hp Hc).
    rewrite sunk_nil, app_nil_r. now destruct w.
Qed.

(** X12.  A native SIMPLE hop without directive ends the turn with one
    message.  Its text is the accumulated response, unless that is blank and
    a search has left a context: then the context takes its place and is
    sent to the sink after the chunks.  The grounding metadata is what the
    turn had, with the citations of the chunks added. *)
Theorem blank_answer_shows_search_context (env : Env) (cx : Context)
    (w : World) (chunks : list NativeChunk) (p c : string) :
  cx_isNative cx = true ->
  in_files (cx_input cx) = None \/ in_files (cx_input cx) = Some [] ->
  in_project (cx_input cx) = Some p ->
  in_chat (cx_input cx) = Some c ->
  generateContentStream env (calls w)
    (with_default_model (simple_request cx (currentPrompt (vars w))))
    = Ok (mkStream chunks None) ->
  Directive.next_hop (cx_prompt cx) (String.concat "" (spoken chunks)) = None ->
  let said := finalResponseText (vars w) ++ String.concat "" (spoken chunks) in
  let context := fallbackSearchContext (vars w) in
  let blank := (String.eqb (JsString.trim said) ""
                && negb (String.eqb context ""))%bool in
  let r := hop_simple env cx w in
  fst r =
    Ret (Return (mkResult
      [mkMessage p c "ai" (if blank then context else said) None
                 (cited_by chunks (metadataPayload (vars w)))])) /\
  exists t,
    trace (snd r) =
      (t ++ sunk (cx_input cx)
              (spoken chunks ++ if blank then [context] else []))%list.
Proof.
  intros Hnative Hfiles Hp Hc Hanswer Hnext. cbv zeta.
  rewrite (native_simple_run env cx w chunks None Hnative Hfiles Hanswer).
  cbv zeta. rewrite Hnext.
  rewrite (simple_finish_run cx _ p c Hp Hc). cbv zeta.
  cbn [fst snd calls trace vars heard finalResponseText fallbackSearchContext
       metadataPayload set_generatedThisLoop].
  unfold falls_back. split; [ reflexivity | ].
  eexists. rewrite sunk_app, app_assoc. reflexivity.
Qed.

(** X13.  A native stream that breaks off fails the hop with the error of
    the stream, after the text of the chunks before it has gone to the sink
    and into the accumulated response; a directive in that text is not acted
    on: action and prompt stay as they were. *)
Theorem broken_stream_keeps_text (env : Env) (cx : Context) (w : World)
    (chunks : list NativeChunk) (e : JsError) :
  cx_isNative cx = true ->
  in_files (cx_input cx) = None \/ in_files (cx_input cx) = Some [] ->
  generateContentStream env (calls w)
    (with_default_model (simple_request cx (currentPrompt (vars w))))
    = Ok (mkStream chunks (Some e)) ->
  let r := hop_simple env cx w in
  fst r = Throw e /\
  finalResponseText (vars (snd r)) =
    finalResponseText (vars w) ++ String.concat "" (spoken chunks) /\
  currentAction (vars (snd r)) = currentAction (vars w) /\
  currentPrompt (vars (snd r)) = currentPrompt (vars w) /\
  exists t,
    trace (snd r) = (t ++ sunk (cx_input cx) (spoken chunks))%list.
Proof.
  intros Hnative Hfiles Hanswer. cbv zeta.
  rewrite (native_simple_run env cx w chunks (Some e) Hnative Hfiles Hanswer).
  cbn [fst snd calls trace vars].
  repeat split. eexists. reflexivity.
Qed.

Lemma directive_stays_in_text_witness :
  let r := hop_simple Scenario.searching_env Scenario.searching_context
             (Scenario.started SIMPLE "hello") in
  fst r = Ret Continue /\
  calls (snd r) = 3 /\
  currentAction (vars (snd r)) = SEARCH /\
  currentPrompt (vars (snd r)) = "weather in Paris" /\
  finalResponseText (vars (snd r)) = "<SEARCH>weather in Paris</SEARCH>" /\
  metadataPayload (vars (snd r)) = None /\
  routingPrompt (vars (snd r)) = None /\
  exists t,
    trace (snd r) =
      (t ++ sunk Scenario.native_input ["<SEARCH>weather in Paris</SEARCH>"])%list.
Proof.
  apply (directive_stays_in_text Scenario.searching_env
           Scenario.searching_context (Scenario.started SIMPLE "hello")
           [mkChunk (Some "<SEARCH>weather in Paris</SEARCH>") None]
           SEARCH "weather in Paris").
  - reflexivity.
  - left. reflexivity.
  - reflexivity.
  - reflexivity.
Defined.

Lemma blank_answer_shows_search_context_witness :
  let r := hop_simple Sample.silent_env Sample.silent_context
             Sample.after_search in
  fst r =
    Ret (Return (mkResult
      [mkMessage "project-1" "chat-1" "ai" "Light rain, 12 degrees." None
                 (Some [Scenario.cited])])) /\
  exists t,
    trace (snd r) =
      (t ++ sunk Scenario.native_input ["  "; "Light rain, 12 degrees."])%list.
Proof.
  apply (blank_answer_shows_search_context Sample.silent_env
           Sample.silent_context Sample.after_search Sample.silent_chunks
           "project-1" "chat-1").
  - reflexivity.
  - left. reflexivity.
  - reflexivity.
  - reflexivity.
  - reflexivity.
  - reflexivity.
Defined.

Lemma broken_stream_keeps_text_witness :
  let r := hop_simple Sample.breaking_env Sample.breaking_context
             (Scenario.started SIMPLE "hello") in
  fst r = Throw Sample.connection_lost /\
  finalResponseText (vars (snd r)) = "One moment. <SEARCH>rain</SEARCH>" /\
  currentAction (vars (snd r)) = SIMPLE /\
  currentPrompt (vars (snd r)) = "hello" /\
  exists t,
    trace (snd r) =
      (t ++ sunk Scenario.native_input ["One moment. <SEARCH>rain</SEARCH>"])%list.
Proof.
  apply (broken_stream_keeps_text Sample.breaking_env Sample.breaking_context
           (Scenario.started SIMPLE "hello") Sample.broken_chunks
           Sample.connection_lost).
  - reflexivity.
  - left. reflexivity.
  - reflexivity.
Defined.

(** ** The SIMPLE branch on an aggregator model *)

Lemma told_nil (s : LoopState) : told [] s = s.
Proof.
  unfold told. cbn [String.concat]. rewrite !append_nil_r. now destruct s.
Qed.

Lemma deltas_run (cx : Context) (deltas : list OpenRouter.Delta) :
  forall w,
    for_each deltas
      (fun delta => take_text cx (Js.to_string (OpenRouter.d_text delta))) w =
      (Ret tt,
       mkWorld (calls w)
         (trace w ++ sunk (cx_input cx) (delta_texts deltas))
         (told (delta_texts deltas) (vars w))).
Proof.
  induction deltas as [|delta rest IH]; intros w;
    cbn [for_each delta_texts List.map].
  - rewrite told_nil, sunk_nil, app_nil_r. now destruct w.
  - unfold bind at 1. rewrite take_text_run, IH.
    fold (delta_texts rest).
    rewrite (sunk_cons (cx_input cx) _ (delta_texts rest)), app_assoc.
    unfold told.
    cbn [calls trace vars finalResponseText metadataPayload
         fallbackSearchContext currentAction currentPrompt loopCount
         routingPrompt generatedThisLoop set_finalResponseText
         set_generatedThisLoop].
    rewrite !concat_cons, !append_assoc. reflexivity.
Qed.

Lemma turns_of_hop_aggregator (cx : Context) (current : string) (w : World) :
  cx_isNative cx = false ->
  turns_of_hop cx current w =
    (Ret (historyMessages cx ++ [mkTurn "user" current [PText current]])%list,
     w).
Proof.
  intros H. unfold turns_of_hop.
  destruct (in_files (cx_input cx)) as [[|file files]|]; rewrite ?H;
    reflexivity.
Qed.

(** The directive test and what follows it, in closed form. *)
Lemma simple_tail_run (cx : Context) (w : World) :
  (generated <- read generatedThisLoop ;;
   match Directive.next_hop (cx_prompt cx) generated with
   | Some (action, nextPrompt) =>
       update (set_currentAction action) ;;
       update (set_currentPrompt nextPrompt) ;;
       match action with
       | IMAGE => update (set_routingPrompt (Some nextPrompt))
       | _ => ret tt
       end ;;
       ret Continue
   | None =>
       so_far <- read finalResponseText ;;
       context <- read fallbackSearchContext ;;
       (if (String.eqb (JsString.trim so_far) ""
            && negb (String.eqb context ""))%bool
        then update (set_finalResponseText context) ;; onStreamChunk cx context
        else ret tt) ;;
       return_message cx
   end) w =
    match Directive.next_hop (cx_prompt cx) (generatedThisLoop (vars w)) with
    | Some (action, nextPrompt) =>
        (Ret Continue,
         mkWorld (calls w) (trace w) (redirected action nextPrompt (vars w)))
    | None =>
        ((if falls_back (finalResponseText (vars w))
                        (fallbackSearchContext (vars w))
          then update (set_finalResponseText (fallbackSearchContext (vars w))) ;;
               onStreamChunk cx (fallbackSearchContext (vars w))
          else ret tt) ;;
         return_message cx) w
    end.
Proof.
  unfold bind at 1, read at 1.
  destruct (Directive.next_hop (cx_prompt cx) (generatedThisLoop (vars w)))
    as [[action nextPrompt]|].
  - unfold bind, update, ret, redirected. cbn [calls trace vars].
    destruct action; reflexivity.
  - unfold bind at 1, read at 1. unfold bind at 1, read at 1.
    reflexivity.
Qed.

Lemma aggregator_simple_run (env : Env) (cx : Context) (w : World) :
  cx_isNative cx = false ->
  let request := aggregator_request_of cx (currentPrompt (vars w)) in
  let w0 := mkWorld (S (calls w)) (trace w ++ [EvFetch request])
                    (set_generatedThisLoop "" (vars w)) in
  hop_simple env cx w =
    match fetch env (calls w) request with
    | Err e => (Throw e, w0)
    | Ok response =>
        if negb (resp_ok response) then
          (Throw (OpenRouter.failure_of_response (cx_model cx) response), w0)
        else
          match resp_body response with
          | None => (Throw (new_Error "No response body from OpenRouter"), w0)
          | Some body =>
              let texts :=
                delta_texts (OpenRouter.read_events env (items body) "") in
              let w1 := mkWorld (calls w0)
                          (trace w0 ++ sunk (cx_input cx) texts)
                          (told texts (vars w0)) in
              match failure body with
              | Some e => (Throw e, w1)
              | None =>
                  match Directive.next_hop (cx_prompt cx)
                          (String.concat "" texts) with
                  | Some (action, nextPrompt) =>
                      (Ret Continue,
                       mkWorld (calls w1) (trace w1)
                         (redirected action nextPrompt (vars w1)))
                  | None =>
                      ((if falls_back (finalResponseText (vars w1))
                                      (fallbackSearchContext (vars w1))
                        then update (set_finalResponseText
                                       (fallbackSearchContext (vars w1))) ;;
                             onStreamChunk cx (fallbackSearchContext (vars w1))
                        else ret tt) ;;
                       return_message cx) w1
                  end
              end
          end
    end.
Proof.
  intros Hagg request w0.
  unfold hop_simple. cbv zeta. fold (system_prompt cx).
  unfold bind at 1, read at 1.
  unfold bind at 1. rewrite (turns_of_hop_aggregator cx _ w Hagg).
  unfold bind at 1. rewrite (aggregator_generator_as_is env cx _ _ w Hagg).
  cbn [fst snd].
  fold (aggregator_request_of cx (currentPrompt (vars w))). fold request.
  unfold bind at 1, update at 1.
  unfold bind at 1, consume.
  unfold bind at 1, OpenRouter.streamOpenRouter. cbv zeta.
  fold (aggregator_request_of cx (currentPrompt (vars w))). fold request.
  unfold bind at 1, call. unfold bind at 1, ask at 1.
  cbn [calls trace vars]. fold w0.
  destruct (fetch env (calls w) request) as [response|e]; cbn [lift ret throw];
    [ | reflexivity ].
  destruct (negb (resp_ok response)); [ reflexivity | ].
  destruct (resp_body response) as [body|]; [ | reflexivity ].
  cbn [ret]. unfold for_await. cbn [items failure].
  unfold bind at 1. rewrite deltas_run. cbv zeta.
  destruct (failure body) as [e|]; [ reflexivity | ].
  cbn [ret]. rewrite simple_tail_run.
  cbn [vars told generatedThisLoop set_generatedThisLoop calls trace].
  reflexivity.
Qed.

(** X14.  On an aggregator model a SIMPLE hop whose request fails is fatal
    for the hop, whatever the failure: a rejected [fetch], a response that
    is not [ok], or one without body.  The hop throws that error after the
    one request, and the request is all it has done: no notice of a switch
    to Gemini was sent and no native call was made. *)
Theorem aggregator_failure_is_fatal (env : Env) (cx : Context) (w : World) :
  cx_isNative cx = false ->
  let request := aggregator_request_of cx (currentPrompt (vars w)) in
  (forall response,
     fetch env (calls w) request = Ok response ->
     resp_ok response = false \/ resp_body response = None) ->
  let r := hop_simple env cx w in
  fst r =
    Throw (match fetch env (calls w) request with
           | Err e => e
           | Ok response =>
               if negb (resp_ok response)
               then OpenRouter.failure_of_response (cx_model cx) response
               else new_Error "No response body from OpenRouter"
           end) /\
  calls (snd r) = S (calls w) /\
  trace (snd r) = (trace w ++ [EvFetch request])%list.
Proof.
  intros Hagg request Hfails. cbv zeta.
  rewrite (aggregator_simple_run env cx w Hagg). cbv zeta. fold request.
  destruct (fetch env (calls w) request) as [response|e];
    [ | repeat split ].
  destruct (Hfails response eq_refl) as [Hok|Hbody].
  - rewrite Hok. repeat split.
  - rewrite Hbody. destruct (negb (resp_ok response)); repeat split.
Qed.

(** X15.  On an aggregator model a SIMPLE hop sends one request, built from
    the history and the text of the prompt alone: attached files are not
    read.  When the body streams to its end, the texts of its deltas go to
    the sink and into the accumulated response; the grounding metadata is
    not touched; a directive in the text continues the loop, and without
    one the turn ends with the message of the accumulated response (or of
    the cached search context, when the response is blank). *)
Theorem aggregator_answer_accumulates (env : Env) (cx : Context) (w : World)
    (response : HttpResponse) (chunks : list string) (p c : string) :
  cx_isNative cx = false ->
  in_project (cx_input cx) = Some p ->
  in_chat (cx_input cx) = Some c ->
  let request := aggregator_request_of cx (currentPrompt (vars w)) in
  fetch env (calls w) request = Ok response ->
  resp_ok response = true ->
  resp_body response = Some (mkStream chunks None) ->
  let texts := delta_texts (OpenRouter.read_events env chunks "") in
  let said := finalResponseText (vars w) ++ String.concat "" texts in
  let context := fallbackSearchContext (vars w) in
  let blank := (String.eqb (JsString.trim said) ""
                && negb (String.eqb context ""))%bool in
  let r := hop_simple env cx w in
  fst r =
    match Directive.next_hop (cx_prompt cx) (String.concat "" texts) with
    | Some _ => Ret Continue
    | None =>
        Ret (Return (mkResult
          [mkMessage p c "ai" (if blank then context else said) None
                     (metadataPayload (vars w))]))
    end /\
  calls (snd r) = S (calls w) /\
  metadataPayload (vars (snd r)) = metadataPayload (vars w) /\
  trace (snd r) =
    ((trace w ++ [EvFetch request])
     ++ sunk (cx_input cx)
          (texts ++
           match Directive.next_hop (cx_prompt cx) (String.concat "" texts) with
           | Some _ => []
           | None => if blank then [context] else []
           end))%list.
Proof.
  intros Hagg Hp Hc request Hfetch Hok Hbody. cbv zeta.
  rewrite (aggregator_simple_run env cx w Hagg). cbv zeta. fold request.
  rewrite Hfetch, Hok, Hbody. cbn [negb items failure].
  destruct (Directive.next_hop (cx_prompt cx) _) as [[action nextPrompt]|].
  - cbn [fst snd calls trace vars]. rewrite app_nil_r.
    repeat split. unfold redirected. destruct action; reflexivity.
  - rewrite (simple_finish_run cx _ p c Hp Hc). cbv zeta.
    cbn [fst snd calls trace vars told finalResponseText
         fallbackSearchContext metadataPayload set_generatedThisLoop].
    unfold falls_back. rewrite sunk_app, app_assoc.
    repeat split.
    destruct (String.eqb (JsString.trim _) "" && negb _)%bool; reflexivity.
Qed.

Lemma aggregator_failure_is_fatal_witness :
  let r := hop_simple Scenario.unavailable_env Sample.unavailable_context
             (Scenario.started SIMPLE "hello") in
  fst r =
    Throw (new_Error (OpenRouter.unavailable_message Scenario.aggregator_model)) /\
  calls (snd r) = 3 /\
  trace (snd r) =
    [EvRoute "hello" 0; EvGetContext; EvFetch Scenario.aggregator_request].
Proof.
  apply (aggregator_failure_is_fatal Scenario.unavailable_env
           Sample.unavailable_context (Scenario.started SIMPLE "hello")).
  - reflexivity.
  - intros response H. injection H as <-. left. reflexivity.
Defined.

Lemma aggregator_answer_accumulates_witness :
  let r := hop_simple Scenario.streaming_env Sample.streaming_context
             (Scenario.started SIMPLE "hello") in
  fst r =
    Ret (Return (mkResult
           [mkMessage "project-1" "chat-1" "ai" "Hi" None None])) /\
  calls (snd r) = 3 /\
  metadataPayload (vars (snd r)) = None /\
  trace (snd r) =
    [EvRoute "hello" 0; EvGetContext;
     EvFetch (aggregator_request_of Sample.streaming_context "hello");
     EvSink "Hi"].
Proof.
  apply (aggregator_answer_accumulates Scenario.streaming_env
           Sample.streaming_context (Scenario.started SIMPLE "hello")
           Scenario.streaming_response Scenario.two_chunks
           "project-1" "chat-1"); reflexivity.
Defined.

(** ** The start of a turn *)

Lemma agent_turn_run (env : Env) (input : AgentInput) (model : string)
    (w : World) (u memory : string) (routing : RoutingDecision) :
  in_user input = Some u ->
  route env
    (calls w) (turn_prompt env input) (file_count input) = Ok routing ->
  getContext env (S (calls w)) = Ok memory ->
  agent_turn env input model w =
    agent_loop env (turn_context env input model memory) (S MAX_LOOPS)
      (turn_start env input model routing w).
Proof.
  intros Hu Hroute Hmemory. unfold agent_turn. cbv zeta. rewrite Hu.
  fold (key_missing input). fold (falls_to_gemini input model).
  fold (video_of env (in_prompt input)).
  unfold bind at 1.
  assert (Hnotice :
    (if falls_to_gemini input model
     then stream_chunk input
            (JsString.nl ++ "*(OpenRouter key missing, falling back to Gemini...)*"
             ++ JsString.nl)
     else ret tt) w =
    (Ret tt,
     mkWorld (calls w)
       (trace w ++ sunk input
                     (if falls_to_gemini input model then [key_notice] else []))
       (vars w))).
  { destruct (falls_to_gemini input model).
    - apply stream_chunk_run.
    - rewrite sunk_nil, app_nil_r. now destruct w. }
  rewrite Hnotice.
  unfold turn_start, turn_context, turn_model.
  unfold turn_prompt, video_prompt, file_count in *.
  unfold bind at 1, call. unfold bind at 1, ask at 1. cbn [calls trace vars].
  rewrite Hroute. cbn [lift ret].
  unfold bind at 1, call. unfold bind at 1, ask at 1. cbn [calls trace vars].
  rewrite Hmemory. cbn [lift ret].
  unfold bind at 1, update at 1. cbn [calls trace vars].
  destruct (video_of env (in_prompt input)) as [[[kind videoId] whole]|];
    reflexivity.
Qed.

Lemma extends_refl (w : World) : extends w w.
Proof. exists []. now rewrite app_nil_r. Qed.

Lemma extends_trans (a b c : World) : extends a b -> extends b c -> extends a c.
Proof.
  intros [t Ht] [t' Ht']. exists (t ++ t')%list.
  now rewrite Ht', Ht, app_assoc.
Qed.

Lemma iteration_extends (env : Env) (cx : Context) :
  stable extends any (iteration env cx).
Proof.
  unfold iteration.
  apply (stable_seq extends extends_trans).
  - intros w. cbn. split; [ | exact Logic.I ].
    exists []. cbn. now rewrite app_nil_r.
  - intros _.
    apply (stable_hop extends extends_refl extends_trans)
      with (quiet := fun _ => True)
           (inert := fun _ : LoopState -> LoopState => True); auto.
    + intros ev w n _. now exists [ev].
    + intros f w _. exists []. cbn. now rewrite app_nil_r.
Qed.

Lemma agent_loop_extends (env : Env) (cx : Context) (fuel : nat) (w : World) :
  MAX_LOOPS - loopCount (vars w) < fuel ->
  extends w (snd (agent_loop env cx fuel w)).
Proof.
  intros Hfuel.
  pose proof (agent_loop_frame extends extends_refl extends_trans env cx
                (iteration_extends env cx) fuel w Hfuel) as H.
  destruct (agent_loop env cx fuel w) as [[r|e|] w']; cbn [snd];
    [ exact H | exact H | contradiction ].
Qed.

Lemma iteration_on (env : Env) (cx : Context) (w : World) :
  iteration env cx w =
    hop env cx (mkWorld (calls w) (trace w)
                  (set_loopCount (S (loopCount (vars w))) (vars w))).
Proof. reflexivity. Qed.

Lemma started_loop_unfold (env : Env) (cx : Context) (w : World) :
  loopCount (vars w) = 0 ->
  agent_loop env cx (S MAX_LOOPS) w =
    match iteration env cx w with
    | (Ret Continue, w') => agent_loop env cx MAX_LOOPS w'
    | (Ret (Return r), w') => (Ret r, w')
    | (Throw e, w') => (Throw e, w')
    | (OutOfFuel, w') => (OutOfFuel, w')
    end.
Proof. intros H. rewrite agent_loop_unfold, H. reflexivity. Qed.

(** X16.  A video link in the prompt overrides the router.  The router is
    still asked, about the rewritten prompt, but its decision is discarded:
    the first hop is a search for the details of the video, and the loop
    goes on from what that search found, with five hops left.  The pattern
    of the shorts is tried first. *)
Theorem video_link_forces_search (env : Env) (input : AgentInput)
    (model : string) (w : World) (u memory : string)
    (routing : RoutingDecision) (kind videoId whole : string)
    (progress : list string) (result : ResearchResult) :
  in_user input = Some u ->
  video_of env (in_prompt input) = Some (kind, videoId, whole) ->
  let prompt := video_prompt kind videoId whole in
  route env (calls w) prompt (file_count input) = Ok routing ->
  getContext env (S (calls w)) = Ok memory ->
  deepResearch env (S (S (calls w))) prompt = (progress, Ok result) ->
  (forall short,
     youtubeShortMatch env (in_prompt input) = Some short ->
     (kind, videoId, whole) = ("Short", snd short, fst short)) /\
  exists w1,
    agent_turn env input model w =
      agent_loop env (turn_context env input model memory) MAX_LOOPS w1 /\
    calls w1 = S (S (S (calls w))) /\
    vars w1 =
      mkLoop ""
        (match r_sources result with
         | Some (url :: urls) => Some (List.map (citation env) (url :: urls))
         | _ => None
         end)
        (r_answer result) SIMPLE
        (synthesis_prompt prompt (r_answer result)) 1 None "".
Proof.
  intros Hu Hvideo prompt Hroute Hmemory Hresearch.
  assert (Hprompt : turn_prompt env input = prompt)
    by (unfold turn_prompt; now rewrite Hvideo).
  split.
  - intros [whole' videoId'] Hshort. unfold video_of in Hvideo.
    rewrite Hshort in Hvideo. now injection Hvideo as <- <- <-.
  - rewrite <- Hprompt in Hroute, Hresearch.
    rewrite (agent_turn_run env input model w u memory routing
               Hu Hroute Hmemory).
    rewrite started_loop_unfold by reflexivity.
    rewrite (search_hop_run env _ _ progress result);
      [ | left; unfold turn_start; cbn [vars currentAction];
          now rewrite Hvideo
        | exact Hresearch ].
    eexists. split; [ reflexivity | ]. split; [ reflexivity | ].
    unfold turn_start.
    cbn [vars finalResponseText metadataPayload currentPrompt loopCount
         routingPrompt generatedThisLoop].
    rewrite Hvideo, Hprompt. reflexivity.
Qed.

(** The end of the SIMPLE branch adds what it sends to the sink, and
    nothing else, to the trace. *)
Lemma simple_finish_extends (cx : Context) (w : World) :
  extends w
    (snd (((if falls_back (finalResponseText (vars w))
                          (fallbackSearchContext (vars w))
            then update (set_finalResponseText (fallbackSearchContext (vars w))) ;;
                 onStreamChunk cx (fallbackSearchContext (vars w))
            else ret tt) ;;
           return_message cx) w)).
Proof.
  assert (Hreturn : forall w0, extends w w0 ->
                    extends w (snd (return_message cx w0))).
  { intros w0 H0. unfold return_message, bind.
    pose proof (result_message_keeps_world cx None w0) as [Hw _].
    destruct (result_message cx None w0) as [[r| |] w']; cbn [snd] in *;
      now subst. }
  destruct (falls_back _ _).
  - unfold bind at 1. unfold bind at 1, update at 1.
    rewrite onStreamChunk_run. apply Hreturn. eexists. reflexivity.
  - unfold bind at 1. cbn [ret]. apply Hreturn, extends_refl.
Qed.

(** An aggregator SIMPLE hop starts with its request. *)
Lemma aggregator_simple_fetches (env : Env) (cx : Context) (w : World) :
  cx_isNative cx = false ->
  exists t,
    trace (snd (hop_simple env cx w)) =
      ((trace w
        ++ [EvFetch (aggregator_request_of cx (currentPrompt (vars w)))])
       ++ t)%list.
Proof.
  intros Hagg. rewrite (aggregator_simple_run env cx w Hagg). cbv zeta.
  set (request := aggregator_request_of cx (currentPrompt (vars w))).
  destruct (fetch env (calls w) request) as [response|e];
    [ | exists []; cbn; now rewrite app_nil_r ].
  destruct (negb (resp_ok response));
    [ exists []; cbn; now rewrite app_nil_r | ].
  destruct (resp_body response) as [body|];
    [ | exists []; cbn; now rewrite app_nil_r ].
  destruct (failure body) as [e|]; [ eexists; reflexivity | ].
  destruct (Directive.next_hop (cx_prompt cx) _) as [[action nextPrompt]|];
    [ eexists; reflexivity | ].
  match goal with
  | |- context [snd (_ ?w1)] =>
      destruct (simple_finish_extends cx w1) as [t Ht]
  end.
  cbn [calls trace vars] in Ht |- *. rewrite Ht.
  eexists. rewrite <- app_assoc. reflexivity.
Qed.

(** X17.  A model the aggregator serves, and no key for the aggregator: the
    sink is told that the turn falls back to Gemini and the model becomes
    gemini-2.5-flash, but the turn stays on the aggregator path.  When the
    router chooses SIMPLE, the first request of the loop goes to the
    aggregator, for gemini-2.5-flash and without key. *)
Theorem missing_key_still_asks_aggregator (env : Env) (input : AgentInput)
    (model : string) (w : World) (u memory : string)
    (routing : RoutingDecision) :
  in_user input = Some u ->
  isGoogleModel model = false ->
  key_missing input = true ->
  video_of env (in_prompt input) = None ->
  route env (calls w) (in_prompt input) (file_count input) = Ok routing ->
  rt_action routing = SIMPLE ->
  getContext env (S (calls w)) = Ok memory ->
  let cx := turn_context env input model memory in
  let request := aggregator_request_of cx (in_prompt input) in
  cx_model cx = "gemini-2.5-flash" /\
  cx_isNative cx = false /\
  or_model request = "gemini-2.5-flash" /\
  (or_apiKey request = None \/ or_apiKey request = Some "") /\
  exists t,
    trace (snd (agent_turn env input model w)) =
      (trace w ++ sunk input [key_notice]
       ++ [EvRoute (in_prompt input) (file_count input); EvGetContext;
           EvFetch request] ++ t)%list.
Proof.
  intros Hu Hmodel Hkey Hvideo Hroute Haction Hmemory cx request.
  assert (Hfalls : falls_to_gemini input model = true)
    by (unfold falls_to_gemini; now rewrite Hmodel, Hkey).
  assert (Hprompt : turn_prompt env input = in_prompt input)
    by (unfold turn_prompt; now rewrite Hvideo).
  assert (Hcx : cx_model cx = "gemini-2.5-flash")
    by (unfold cx, turn_context, turn_model; cbn [cx_model];
        now rewrite Hfalls).
  split; [ exact Hcx | ]. split; [ exact Hmodel | ].
  split; [ exact Hcx | ].
  split.
  { unfold request, aggregator_request_of. cbn [or_apiKey cx cx_input turn_context].
    unfold key_missing in Hkey.
    destruct (in_openrouter_api_key input) as [k|]; [ right | now left ].
    apply String.eqb_eq in Hkey. now subst. }
  rewrite <- Hprompt in Hroute.
  rewrite (agent_turn_run env input model w u memory routing Hu Hroute Hmemory).
  fold cx. set (w0 := turn_start env input model routing w).
  assert (Hstart : trace w0 =
            ((trace w ++ sunk input [key_notice])
             ++ [EvRoute (in_prompt input) (file_count input); EvGetContext])%list).
  { unfold w0, turn_start. cbn [trace]. rewrite Hfalls, Hprompt.
    now rewrite <- !app_assoc. }
  rewrite started_loop_unfold by reflexivity.
  assert (Hhop : iteration env cx w0 =
                 hop_simple env cx
                   (mkWorld (calls w0) (trace w0)
                      (set_loopCount (S (loopCount (vars w0))) (vars w0)))).
  { rewrite iteration_on. unfold hop, bind, read. cbn [vars].
    unfold w0, turn_start. cbn [vars currentAction set_loopCount].
    now rewrite Hvideo, Haction. }
  pose proof (aggregator_simple_fetches env cx
                (mkWorld (calls w0) (trace w0)
                   (set_loopCount (S (loopCount (vars w0))) (vars w0)))
                Hmodel) as [t Ht].
  rewrite <- Hhop in Ht.
  assert (Hreq : aggregator_request_of cx
                   (currentPrompt
                      (vars (mkWorld (calls w0) (trace w0)
                               (set_loopCount (S (loopCount (vars w0)))
                                  (vars w0))))) = request).
  { unfold request, w0, turn_start.
    cbn [vars currentPrompt set_loopCount]. now rewrite Hprompt. }
  rewrite Hreq in Ht. cbn [trace] in Ht. rewrite Hstart in Ht.
  pose proof (iteration_counts env cx w0) as Hcount.
  destruct (iteration env cx w0) as [[[|r]|e|] w1] eqn:Hit;
    cbn [snd] in Ht |- *; [ | | | contradiction ];
    try (exists t; rewrite Ht; now rewrite <- !app_assoc).
  destruct (agent_loop_extends env cx MAX_LOOPS w1) as [t' Ht'].
  { rewrite Hcount. unfold w0, turn_start, MAX_LOOPS. cbn. lia. }
  exists (t ++ t')%list. rewrite Ht', Ht. now rewrite <- !app_assoc.
Qed.

Lemma video_link_forces_search_witness :
  (forall short,
     youtubeShortMatch Sample.video_env (in_prompt Sample.video_input)
       = Some short ->
     ("Video", "dQw4w9WgXcQ", "youtu.be/dQw4w9WgXcQ")
       = ("Short", snd short, fst short)) /\
  exists w1,
    agent_turn Sample.video_env Sample.video_input "gemini-2.5-flash"
      Fixture.fresh =
      agent_loop Sample.video_env
        (turn_context Sample.video_env Sample.video_input "gemini-2.5-flash"
           "{}")
        MAX_LOOPS w1 /\
    calls w1 = 3 /\
    vars w1 =
      mkLoop ""
        (Some [citation Sample.video_env "https://www.meteo.example/paris"])
        "Light rain, 12 degrees." SIMPLE
        (synthesis_prompt
           (video_prompt "Video" "dQw4w9WgXcQ" "youtu.be/dQw4w9WgXcQ")
           "Light rain, 12 degrees.")
        1 None "".
Proof.
  apply (video_link_forces_search Sample.video_env Sample.video_input
           "gemini-2.5-flash" Fixture.fresh "user-1" "{}"
           (mkRouting SIMPLE None) "Video" "dQw4w9WgXcQ"
           "youtu.be/dQw4w9WgXcQ" []
           (mkResearch "Light rain, 12 degrees."
                       (Some ["https://www.meteo.example/paris"])));
    reflexivity.
Defined.

Lemma missing_key_still_asks_aggregator_witness :
  let cx := turn_context Scenario.unavailable_env Sample.keyless_input
              "openai/gpt-4o" "{}" in
  let request := aggregator_request_of cx "hello" in
  cx_model cx = "gemini-2.5-flash" /\
  cx_isNative cx = false /\
  or_model request = "gemini-2.5-flash" /\
  (or_apiKey request = None \/ or_apiKey request = Some "") /\
  exists t,
    trace (snd (agent_turn Scenario.unavailable_env Sample.keyless_input
                  "openai/gpt-4o" Fixture.fresh)) =
      ([] ++ sunk Sample.keyless_input [key_notice]
       ++ [EvRoute "hello" 0; EvGetContext; EvFetch request] ++ t)%list.
Proof.
  apply (missing_key_still_asks_aggregator Scenario.unavailable_env
           Sample.keyless_input "openai/gpt-4o" Fixture.fresh "user-1" "{}"
           (mkRouting SIMPLE None)); reflexivity.
Defined.

(** ** The usage counter, over a whole turn *)

Lemma thinking_calls_app (a b : list Event) :
  thinking_calls (a ++ b) = thinking_calls a + thinking_calls b.
Proof.
  induction a as [|ev a IH]; [ reflexivity | ].
  cbn [app]. destruct ev; cbn [thinking_calls]; rewrite IH; reflexivity.
Qed.

Lemma thinking_calls_sunk (input : AgentInput) (chunks : list string) :
  thinking_calls (sunk input chunks) = 0.
Proof.
  unfold sunk. destruct (in_has_sink input); [ | reflexivity ].
  induction chunks as [|chunk rest IH]; [ reflexivity | exact IH ].
Qed.

Lemma same_thinking_refl (w : World) : same_thinking w w.
Proof. reflexivity. Qed.

Lemma same_thinking_trans (a b c : World) :
  same_thinking a b -> same_thinking b c -> same_thinking a c.
Proof. unfold same_thinking. congruence. Qed.

Lemma same_thinking_emit (ev : Event) (w : World) (n : nat) :
  ev <> EvIncrementThinkingCount ->
  same_thinking w (mkWorld n (trace w ++ [ev]) (vars w)).
Proof. intros H. unfold same_thinking. cbn. now apply thinking_calls_snoc. Qed.

Lemma same_thinking_update (f : LoopState -> LoopState) (w : World) :
  True -> same_thinking w (mkWorld (calls w) (trace w) (f (vars w))).
Proof. reflexivity. Qed.

Lemma never_continues_bind {A} (m : M A) (k : A -> M Step) :
  (forall a, never_continues (k a)) -> never_continues (bind m k).
Proof.
  intros Hk w. unfold bind.
  destruct (m w) as [[a| |] w']; cbn [fst]; [ apply Hk | | ]; discriminate.
Qed.

Lemma never_continues_message (cx : Context) :
  never_continues (return_message cx).
Proof.
  apply never_continues_bind. intros r w. cbn. discriminate.
Qed.

(** The THINK branch on a qualifying model: the counter is called once and
    the hop ends the turn. *)
Lemma qualifying_think_counts (env : Env) (cx : Context) (w : World) :
  qualifies (cx_model cx) = true ->
  fst (hop_think env cx w) <> Ret Continue /\
  thinking_calls (trace (snd (hop_think env cx w)))
    = S (thinking_calls (trace w)).
Proof.
  intros Hq. unfold qualifies in Hq. apply andb_prop in Hq as [Hg Hm].
  unfold hop_think. rewrite Hg, Hm. cbn [negb orb]. cbv zeta.
  match goal with
  | |- context [bind (onStreamChunk cx ?notice)
                  (fun _ => bind (call ?ev ?answer) (fun _ => ?K))] =>
      set (k := K);
      assert (Hrun :
        bind (onStreamChunk cx notice)
          (fun _ => bind (call ev answer) (fun _ => k)) w =
        let w2 := mkWorld (S (calls w))
                    ((trace w ++ sunk (cx_input cx) [notice]) ++ [ev])
                    (vars w) in
        match answer (calls w) with
        | Ok _ => k w2
        | Err e => (Throw e, w2)
        end)
  end.
  { unfold bind at 1. rewrite onStreamChunk_run.
    unfold bind at 1, call. unfold bind at 1, ask at 1.
    cbn [calls trace vars].
    destruct (incrementThinkingCount env (calls w)); reflexivity. }
  rewrite Hrun. cbv zeta.
  assert (Hcount : forall t,
            thinking_calls
              ((trace w ++ sunk (cx_input cx) t) ++ [EvIncrementThinkingCount])
            = S (thinking_calls (trace w))).
  { intros t. rewrite !thinking_calls_app, thinking_calls_sunk. cbn. lia. }
  destruct (incrementThinkingCount env (calls w)) as [[]|e];
    [ | split; [ discriminate | apply Hcount ] ].
  assert (Hs : stable same_thinking any k).
  { unfold k.
    apply (stable_seq same_thinking same_thinking_trans);
      [ apply (stable_read same_thinking same_thinking_refl) | intros task ].
    apply (stable_seq same_thinking same_thinking_trans);
      [ | intros response ].
    { apply (stable_generateContentStreamWithRetry same_thinking
               same_thinking_refl same_thinking_trans
               (fun ev => ev <> EvIncrementThinkingCount)
               same_thinking_emit (fun ev H => H)).
      intros msg.
      apply (stable_onStreamChunk same_thinking same_thinking_refl
               (fun ev => ev <> EvIncrementThinkingCount)
               same_thinking_emit (fun ev H => H)). }
    apply (stable_seq same_thinking same_thinking_trans);
      [ | intros _ ].
    { apply (stable_stream_to_response same_thinking
               same_thinking_refl same_thinking_trans
               (fun ev => ev <> EvIncrementThinkingCount)
               (fun _ => True)
               same_thinking_emit same_thinking_update (fun ev H => H)
               (fun f H => Logic.I)). }
    apply (stable_return_message same_thinking
             same_thinking_refl same_thinking_trans). }
  assert (Hn : never_continues k).
  { unfold k. do 3 (apply never_continues_bind; intros ?).
    apply never_continues_message. }
  match goal with
  | |- context [k ?w2] =>
      specialize (Hs w2); specialize (Hn w2);
      destruct (k w2) as [[step|e|] w3]
  end; cbn [fst snd] in *; unfold same_thinking in Hs; cbn [trace] in Hs.
  - destruct Hs as [Hs _]. rewrite Hs. split; [ exact Hn | apply Hcount ].
  - rewrite Hs. split; [ discriminate | apply Hcount ].
  - contradiction.
Qed.

Lemma agent_loop_counts_once (env : Env) (cx : Context) (fuel : nat) :
  forall w,
    thinking_calls (trace (snd (agent_loop env cx fuel w)))
      <= S (thinking_calls (trace w)).
Proof.
  induction fuel as [|fuel IH]; intros w; [ cbn; lia | ].
  rewrite agent_loop_unfold.
  destruct (Nat.ltb (loopCount (vars w)) MAX_LOOPS).
  - destruct (RouterAction_eq_dec (currentAction (vars w)) THINK) as [Ha|Ha];
      [ destruct (qualifies (cx_model cx)) eqn:Hq | ].
    + assert (Hhop : iteration env cx w =
                     hop_think env cx
                       (mkWorld (calls w) (trace w)
                          (set_loopCount (S (loopCount (vars w))) (vars w)))).
      { rewrite iteration_on. unfold hop, bind, read.
        cbn [vars currentAction set_loopCount]. now rewrite Ha. }
      pose proof (qualifying_think_counts env cx
                    (mkWorld (calls w) (trace w)
                       (set_loopCount (S (loopCount (vars w))) (vars w)))
                    Hq) as [Hend Hcount].
      rewrite <- Hhop in Hend, Hcount. cbn [trace] in Hcount.
      destruct (iteration env cx w) as [[[|r]|e|] w']; cbn [fst snd] in *;
        [ congruence | lia | lia | lia ].
    + pose proof (iteration_keeps_thinking env cx w (or_introl Hq)) as Hkeep.
      destruct (iteration env cx w) as [[[|r]|e|] w']; cbn [snd] in *;
        [ specialize (IH w') | | | ]; lia.
    + pose proof (iteration_keeps_thinking env cx w (or_intror Ha)) as Hkeep.
      destruct (iteration env cx w) as [[[|r]|e|] w']; cbn [snd] in *;
        [ specialize (IH w') | | | ]; lia.
  - destruct (result_message_keeps_world cx None w) as [-> _]. lia.
Qed.

Lemma agent_turn_counts_once (env : Env) (input : AgentInput)
    (model : string) (w : World) :
  thinking_calls (trace (snd (agent_turn env input model w)))
    <= S (thinking_calls (trace w)).
Proof.
  unfold agent_turn. cbv zeta.
  unfold bind at 1.
  match goal with
  | |- context [(if ?c then stream_chunk input ?notice else ret tt) w] =>
      assert (Hnotice :
        exists t, (if c then stream_chunk input notice else ret tt) w =
                  (Ret tt, mkWorld (calls w) (trace w ++ sunk input t) (vars w)))
  end.
  { destruct (negb _ && _)%bool.
    - eexists. apply stream_chunk_run.
    - exists []. rewrite sunk_nil, app_nil_r. now destruct w. }
  destruct Hnotice as [t ->].
  destruct (in_user input) as [u|];
    [ | cbn; rewrite thinking_calls_app, thinking_calls_sunk; lia ].
  unfold bind at 1, call. unfold bind at 1, ask at 1. cbn [calls trace vars].
  destruct (route env _ _ _) as [routing|e]; cbn [lift ret throw];
    [ | cbn; rewrite !thinking_calls_app, thinking_calls_sunk; cbn; lia ].
  unfold bind at 1, call. unfold bind at 1, ask at 1. cbn [calls trace vars].
  destruct (getContext env _) as [memory|e]; cbn [lift ret throw];
    [ | cbn; rewrite !thinking_calls_app, thinking_calls_sunk; cbn; lia ].
  unfold bind at 1, update at 1. cbn [calls trace vars].
  match goal with
  | |- context [agent_loop env ?cx ?fuel ?w0] =>
      pose proof (agent_loop_counts_once env cx fuel w0) as H
  end.
  cbn [trace] in H.
  rewrite !thinking_calls_app, thinking_calls_sunk in H.
  cbn [thinking_calls] in H. lia.
Qed.

(** X18.  The usage counter of the THINK branch is called at most once in a
    turn, whatever the router, the models and the services answer and
    however the hops follow each other: the hop that calls it ends the
    turn. *)
Theorem usage_counted_once (env : Env) (input : AgentInput) (w : World) :
  thinking_calls (trace (snd (runAutonomousAgent env input w)))
    <= S (thinking_calls (trace w)) /\
  forall cx fuel w0,
    thinking_calls (trace (snd (agent_loop env cx fuel w0)))
      <= S (thinking_calls (trace w0)).
Proof.
  split; [ | intros cx fuel w0; apply agent_loop_counts_once ].
  unfold runAutonomousAgent. fold (initial_model input).
  pose proof (agent_turn_counts_once env input (initial_model input) w) as H.
  unfold try_catch.
  destruct (agent_turn env input (initial_model input) w) as [[r|e|] w'];
    cbn [snd] in *; try exact H.
  unfold bind at 1, console_error, emit. cbn [calls trace vars].
  assert (Hlog : thinking_calls
                   (trace w' ++ [EvConsoleError "Error in runAutonomousAgent:"])
                 = thinking_calls (trace w'))
    by (apply thinking_calls_snoc; discriminate).
  unfold bind, id_of.
  destruct (in_project input), (in_chat input); cbn [snd trace throw ret];
    rewrite Hlog; exact H.
Qed.

(** ** Attached files *)

Lemma split_free (sep : ascii) (s : string) :
  all_chars (fun c => negb (Ascii.eqb c sep)) s = true ->
  JsString.split sep s = [s].
Proof.
  induction s as [|c s IH]; intros H; [ reflexivity | ].
  cbn [all_chars] in H. apply andb_prop in H. destruct H as [Hc Hs].
  apply negb_true_iff in Hc. cbn [JsString.split]. rewrite Hc, (IH Hs).
  reflexivity.
Qed.

Lemma split_at (sep : ascii) (a b : string) :
  all_chars (fun c => negb (Ascii.eqb c sep)) a = true ->
  JsString.split sep (a ++ String sep b) = a :: JsString.split sep b.
Proof.
  induction a as [|c a IH]; intros H.
  - cbn [append JsString.split]. now rewrite Ascii.eqb_refl.
  - cbn [all_chars] in H. apply andb_prop in H. destruct H as [Hc Ha].
    apply negb_true_iff in Hc. cbn [append JsString.split].
    rewrite Hc, (IH Ha). reflexivity.
Qed.

Lemma read_files_run (files : list FileBlob) :
  Forall readable files ->
  forall parts w,
    read_files files parts w =
      (Ret (List.rev (List.map inline_part files) ++ parts)%list, w).
Proof.
  induction 1 as [|file rest [res Hres] _ IH]; intros parts w;
    cbn [read_files List.map List.rev app]; [ reflexivity | ].
  unfold bind at 1. rewrite Hres. cbn [lift ret]. rewrite IH.
  unfold inline_part, payload_of, comma. rewrite Hres.
  now rewrite <- app_assoc.
Qed.

Lemma read_files_fails (good : list FileBlob) (bad : FileBlob)
    (rest : list FileBlob) (e : JsError) :
  Forall readable good ->
  file_dataURL bad = Err e ->
  forall parts w, read_files (good ++ bad :: rest) parts w = (Throw e, w).
Proof.
  intros Hgood Hbad.
  induction Hgood as [|file good [res Hres] _ IH]; intros parts w;
    cbn [read_files app]; unfold bind at 1.
  - rewrite Hbad. reflexivity.
  - rewrite Hres. cbn [lift ret]. apply IH.
Qed.

(** X19.  On a native model the attached files go into the user turn of a
    SIMPLE hop in front of the text of the prompt, the file attached last
    first; the data of a part is what stands between the first comma of the
    reader's result and the next one.  A file that cannot be read fails the
    hop before anything is requested. *)
Theorem attached_files_reversed (env : Env) (cx : Context) (w : World)
    (files : list FileBlob) :
  cx_isNative cx = true ->
  in_files (cx_input cx) = Some files ->
  files <> [] ->
  (Forall readable files ->
   forall current,
     turns_of_hop cx current w =
       (Ret (historyMessages cx
             ++ [mkTurn "user" current
                   (List.rev (List.map inline_part files) ++ [PText current])])%list,
        w)) /\
  (forall good bad rest e,
     files = (good ++ bad :: rest)%list ->
     Forall readable good ->
     file_dataURL bad = Err e ->
     hop_simple env cx w = (Throw e, w)) /\
  (forall head payload tail,
     no_comma head -> no_comma payload ->
     payload_of (head ++ String comma payload) = Some payload /\
     payload_of (head ++ String comma (payload ++ String comma tail))
       = Some payload).
Proof.
  intros Hnative Hfiles Hsome.
  assert (Hturns : forall current,
            turns_of_hop cx current w =
              match read_files files [PText current] w with
              | (Ret userParts, w') =>
                  (Ret (historyMessages cx
                        ++ [mkTurn "user" current userParts])%list, w')
              | (Throw e, w') => (Throw e, w')
              | (OutOfFuel, w') => (OutOfFuel, w')
              end).
  { intros current. unfold turns_of_hop. rewrite Hfiles, Hnative.
    destruct files as [|file rest]; [ congruence | ].
    unfold bind at 1.
    destruct (read_files (file :: rest) [PText current] w) as [[parts|e|] w'];
      reflexivity. }
  split; [ | split ].
  - intros Hread current. rewrite Hturns, (read_files_run files Hread).
    reflexivity.
  - intros good bad rest e -> Hgood Hbad.
    unfold hop_simple. cbv zeta. unfold bind at 1, read at 1.
    unfold bind at 1. rewrite Hturns.
    rewrite (read_files_fails good bad rest e Hgood Hbad). reflexivity.
  - intros head payload tail Hhead Hpayload. unfold payload_of.
    rewrite !(split_at comma head) by exact Hhead.
    rewrite (split_at comma payload) by exact Hpayload.
    rewrite (split_free comma payload) by exact Hpayload.
    split; reflexivity.
Qed.

Lemma attached_files_reversed_witness :
  (Forall readable [Sample.picture; Sample.notes] ->
   forall current,
     turns_of_hop (Sample.context_with [Sample.picture; Sample.notes]) current
       Fixture.fresh =
       (Ret [mkTurn "user" current
               [PInline (Some "aGVsbG8=") "text/plain";
                PInline (Some "iVBORw0KGgo=") "image/png";
                PText current]],
        Fixture.fresh)) /\
  (forall good bad rest e,
     [Sample.picture; Sample.unreadable] = (good ++ bad :: rest)%list ->
     Forall readable good ->
     file_dataURL bad = Err e ->
     hop_simple Scenario.plain_env
       (Sample.context_with [Sample.picture; Sample.unreadable])
       Fixture.fresh = (Throw e, Fixture.fresh)) /\
  Forall readable [Sample.picture; Sample.notes].
Proof.
  split; [ | split ].
  - apply (attached_files_reversed Scenario.plain_env
             (Sample.context_with [Sample.picture; Sample.notes])
             Fixture.fresh [Sample.picture; Sample.notes]);
      [ reflexivity | reflexivity | discriminate ].
  - apply (attached_files_reversed Scenario.plain_env
             (Sample.context_with [Sample.picture; Sample.unreadable])
             Fixture.fresh [Sample.picture; Sample.unreadable]);
      [ reflexivity | reflexivity | discriminate ].
  - repeat constructor; eexists; reflexivity.
Defined.

(** ** The history sent to the model *)

Lemma removelast_length {A} (l : list A) :
  List.length (List.removelast l) = List.length l - 1.
Proof.
  induction l as [|x [|y l] IH]; [ reflexivity | reflexivity | ].
  change (List.removelast (x :: y :: l)) with (x :: List.removelast (y :: l)).
  cbn [List.length] in *. rewrite IH. lia.
Qed.




(** ** The budget of a turn *)

Section Budget.

Variable mu : World -> Z.
Variables T R : Z.
Hypothesis T_nonneg : (0 <= T)%Z.
Hypothesis R_nonneg : (0 <= R)%Z.

(** What an effect adds to the measure: nothing for an assignment and for an
    event that is no wait, at most [T] for a call, at most [R] for a native
    request with its retries. *)
Hypothesis mu_emit :
  forall ev w, no_sleep ev ->
    (mu (mkWorld (calls w) (trace w ++ [ev]) (vars w)) <= mu w)%Z.
Hypothesis mu_ask :
  forall ev w, no_sleep ev ->
    (mu (mkWorld (S (calls w)) (trace w ++ [ev]) (vars w)) <= mu w + T)%Z.
Hypothesis mu_update :
  forall f w, mu (mkWorld (calls w) (trace w) (f (vars w))) = mu w.
Hypothesis retry_spends :
  forall env params (notify : string -> M unit),
    (forall msg, spends mu any 0 (notify msg)) ->
    spends mu any R
      (generateContentStreamWithRetry env params 3 (Some notify)).

Lemma spends_ret {A} (Q : A -> Prop) (a : A) : Q a -> spends mu Q 0 (ret a).
Proof. intros H w. cbn. split; [ lia | exact H ]. Qed.

Lemma spends_throw {A} (Q : A -> Prop) (e : JsError) :
  spends mu Q 0 (throw e).
Proof. intros w. cbn. lia. Qed.

Lemma spends_weaken {A} (Q Q' : A -> Prop) (a b : Z) (m : M A) :
  spends mu Q a m -> (a <= b)%Z -> (forall x, Q x -> Q' x) ->
  spends mu Q' b m.
Proof.
  intros H Hab HQ w. specialize (H w).
  destruct (m w) as [[x| |] w']; [ destruct H; split; auto; lia | lia | lia ].
Qed.

Lemma spends_bind {A B} (Q : A -> Prop) (Q' : B -> Prop) (a b : Z)
    (m : M A) (k : A -> M B) :
  (0 <= b)%Z ->
  spends mu Q a m -> (forall x, Q x -> spends mu Q' b (k x)) ->
  spends mu Q' (a + b) (bind m k).
Proof.
  intros Hb Hm Hk w. unfold bind. specialize (Hm w).
  destruct (m w) as [[x| |] w']; [ | lia | lia ].
  destruct Hm as [Hw Hx]. specialize (Hk x Hx w').
  destruct (k x w') as [[y| |] w'']; [ destruct Hk; split; auto; lia | lia | lia ].
Qed.

(** A free step, then [k]. *)
Lemma spends_after {A B} (Q' : B -> Prop) (b : Z) (m : M A) (k : A -> M B) :
  (0 <= b)%Z ->
  spends mu any 0 m -> (forall x, spends mu Q' b (k x)) ->
  spends mu Q' b (bind m k).
Proof.
  intros Hb Hm Hk.
  apply (spends_weaken Q' Q' (0 + b) b); [ | lia | auto ].
  apply (spends_bind any); auto.
Qed.

(** A step that costs [a], then free ones. *)
Lemma spends_first {A B} (Q' : B -> Prop) (a : Z) (m : M A) (k : A -> M B) :
  spends mu any a m -> (forall x, spends mu Q' 0 (k x)) ->
  spends mu Q' a (bind m k).
Proof.
  intros Hm Hk.
  apply (spends_weaken Q' Q' (a + 0) a); [ | lia | auto ].
  apply (spends_bind any); auto; lia.
Qed.

Lemma spends_try_catch {A} (Q : A -> Prop) (a b : Z) (m : M A)
    (h : JsError -> M A) :
  (0 <= b)%Z ->
  spends mu Q a m -> (forall e, spends mu Q b (h e)) ->
  spends mu Q (a + b) (try_catch m h).
Proof.
  intros Hb Hm Hh w. unfold try_catch. specialize (Hm w).
  destruct (m w) as [[x| |] w']; [ destruct Hm; split; auto; lia | | lia ].
  specialize (Hh e w').
  destruct (h e w') as [[y| |] w'']; [ destruct Hh; split; auto; lia | lia | lia ].
Qed.

Lemma spends_lift {A} (r : JsResult A) : spends mu any 0 (lift r).
Proof. destruct r; intros w; cbn; unfold any; auto with zarith. Qed.

Lemma spends_emit (ev : Event) : no_sleep ev -> spends mu any 0 (emit ev).
Proof.
  intros H w. cbn. split; [ | exact Logic.I ].
  pose proof (mu_emit ev w H). lia.
Qed.

Lemma spends_ask {A} (ev : Event) (answer : nat -> A) :
  no_sleep ev -> spends mu any T (ask ev answer).
Proof. intros H w. cbn. split; [ now apply mu_ask | exact Logic.I ]. Qed.

Lemma spends_call {A} (ev : Event) (answer : nat -> JsResult A) :
  no_sleep ev -> spends mu any T (call ev answer).
Proof.
  intros H. unfold call. apply spends_first.
  - now apply spends_ask.
  - intros r. apply spends_lift.
Qed.

Lemma spends_read {A} (f : LoopState -> A) : spends mu any 0 (read f).
Proof. intros w. cbn. split; [ lia | exact Logic.I ]. Qed.

Lemma spends_update (f : LoopState -> LoopState) : spends mu any 0 (update f).
Proof. intros w. cbn. rewrite mu_update. split; [ lia | exact Logic.I ]. Qed.

Lemma spends_for_each {A} (xs : list A) (body : A -> M unit) :
  (forall x, spends mu any 0 (body x)) -> spends mu any 0 (for_each xs body).
Proof.
  intros H. induction xs as [|x xs IH]; cbn [for_each].
  - now apply spends_ret.
  - apply spends_after; auto; lia.
Qed.

Lemma spends_for_await {A} (s : Stream A) (body : A -> M unit) :
  (forall x, spends mu any 0 (body x)) -> spends mu any 0 (for_await s body).
Proof.
  intros H. unfold for_await. apply spends_after.
  - lia.
  - now apply spends_for_each.
  - intros _. destruct (failure s);
      [ apply spends_throw | now apply spends_ret ].
Qed.

(** The steps that cost nothing. *)
Ltac free_step :=
  match goal with
  | |- spends _ _ _ (bind _ _) => apply spends_after; [ lia | | intros ? ]
  | |- spends _ _ _ (ret _) => apply spends_ret; exact Logic.I
  | |- spends _ _ _ (throw _) => apply spends_throw
  | |- spends _ _ _ (lift _) => apply spends_lift
  | |- spends _ _ _ (read _) => apply spends_read
  | |- spends _ _ _ (update _) => apply spends_update
  | |- spends _ _ _ (emit _) => apply spends_emit; intros ?; discriminate
  | |- spends _ _ _ (for_each _ _) => apply spends_for_each; intros ?
  | |- spends _ _ _ (for_await _ _) => apply spends_for_await; intros ?
  | |- spends _ _ _ (if ?b then _ else _) => destruct b
  | |- spends _ _ _ (match ?x with _ => _ end) => destruct x
  | |- spends _ _ _ (stream_chunk _ _) => unfold stream_chunk
  | |- spends _ _ _ (onStreamChunk _ _) => unfold onStreamChunk
  | |- spends _ _ _ (console_warn _) => unfold console_warn
  | |- spends _ _ _ (console_error _) => unfold console_error
  | |- spends _ _ _ (id_of _) => unfold id_of
  | |- spends _ _ _ (result_message _ _) => unfold result_message
  | |- spends _ _ _ (return_message _) => unfold return_message
  | |- spends _ _ _ (continue_with _) => unfold continue_with
  | |- spends _ _ _ (append_response _) => unfold append_response
  | |- spends _ _ _ (take_text _ _) => unfold take_text
  | |- spends _ _ _ (push_grounding _) => unfold push_grounding
  | |- spends _ _ _ (stream_to_response _ _) => unfold stream_to_response
  end.

Ltac free := repeat free_step.

Section HopBudget.

Variable env : Env.
Variable cx : Context.

Lemma native_spends (params : NativeParams) :
  spends mu any R
    (generateContentStreamWithRetry env params 3 (notify_retry cx)).
Proof. apply retry_spends. intros msg. free. Qed.

Lemma hop_search_spends : spends mu any T (hop_search env cx).
Proof.
  unfold hop_search. cbv zeta.
  apply spends_after; [ lia | free | intros _ ].
  apply spends_after; [ lia | free | intros query ].
  apply spends_first; [ apply spends_ask; intros ?; discriminate | intros answer ].
  free.
Qed.

Lemma hop_think_spends : spends mu any (T + R) (hop_think env cx).
Proof.
  unfold hop_think. cbv zeta.
  destruct (_ || _)%bool.
  - apply (spends_weaken any any 0); [ free | lia | auto ].
  - apply spends_after; [ lia | free | intros _ ].
    apply (spends_bind any);
      [ lia | apply spends_call; intros ?; discriminate | intros _ _ ].
    apply spends_after; [ lia | free | intros task ].
    apply spends_first; [ apply native_spends | intros response ].
    free.
Qed.

Lemma hop_image_spends : spends mu any T (hop_image env cx).
Proof.
  unfold hop_image. cbv zeta.
  apply spends_after; [ lia | free | intros so_far ].
  apply spends_after; [ lia | free | intros _ ].
  apply spends_after; [ lia | free | intros current ].
  apply spends_after; [ lia | free | intros explicit ].
  apply (spends_weaken any any (T + 0)); [ | lia | auto ].
  apply spends_try_catch; [ lia | | intros e; free ].
  apply spends_first; [ apply spends_call; intros ?; discriminate | intros b ].
  free.
Qed.

Lemma hop_canvas_spends : spends mu any T (hop_canvas env cx).
Proof.
  unfold hop_canvas. cbv zeta.
  apply spends_after; [ lia | free | intros current ].
  apply spends_first; [ apply spends_call; intros ?; discriminate | intros ms ].
  free.
Qed.

Lemma hop_project_spends : spends mu any T (hop_project env cx).
Proof.
  unfold hop_project. cbv zeta.
  destruct (negb _).
  - apply (spends_weaken any any 0); [ free | lia | auto ].
  - apply spends_after; [ lia | free | intros _ ].
    apply spends_after; [ lia | free | intros current ].
    apply spends_first;
      [ apply spends_call; intros ?; discriminate | intros response_text ].
    free.
Qed.

Lemma hop_study_spends : spends mu any R (hop_study env cx).
Proof.
  unfold hop_study. cbv zeta.
  destruct (negb _).
  - apply (spends_weaken any any 0); [ free | lia | auto ].
  - apply spends_after; [ lia | free | intros _ ].
    apply spends_after; [ lia | free | intros current ].
    apply spends_first; [ apply native_spends | intros response ].
    free.
Qed.

Lemma read_files_spends (files : list FileBlob) :
  forall userParts, spends mu any 0 (read_files files userParts).
Proof.
  induction files as [|file rest IH]; intros userParts; cbn [read_files].
  - free.
  - apply spends_after; [ lia | free | intros res ]. apply IH.
Qed.

Lemma turns_of_hop_spends (current : string) :
  spends mu any 0 (turns_of_hop cx current).
Proof.
  unfold turns_of_hop.
  destruct (in_files (cx_input cx)) as [[|file files]|]; [ free | | free ].
  destruct (cx_isNative cx); [ | free ].
  apply spends_after; [ lia | apply read_files_spends | intros userParts ]. free.
Qed.

Lemma select_generator_spends (systemPrompt : string) (turns : list Turn) :
  spends mu (frugal_generator mu T) R
    (select_generator env cx systemPrompt turns).
Proof.
  unfold select_generator. cbv zeta.
  destruct (cx_isNative cx).
  - apply spends_first; [ apply native_spends | intros g ].
    apply spends_ret. exact Logic.I.
  - apply (spends_weaken (frugal_generator mu T) (frugal_generator mu T)
             (0 + R)); [ | lia | auto ].
    apply spends_try_catch; [ lia | | intros orError ].
    + apply spends_ret. unfold frugal_generator. cbn [fst].
      unfold OpenRouter.streamOpenRouter. cbv zeta.
      apply spends_first;
        [ apply spends_call; intros ?; discriminate | intros response ].
      free.
    + destruct (_ || _)%bool;
        [ | intros w; cbn; lia ].
      apply spends_after; [ lia | free | intros _ ].
      apply spends_after; [ lia | free | intros _ ].
      apply spends_first; [ apply native_spends | intros g ].
      apply spends_ret. exact Logic.I.
Qed.

Lemma consume_spends (g : Generator * bool) :
  frugal_generator mu T g -> spends mu any T (consume cx (fst g) (snd g)).
Proof.
  unfold frugal_generator, consume. destruct (fst g) as [stream|body].
  - intros _. apply (spends_weaken any any 0); [ free | lia | auto ].
  - intros Hbody. apply spends_first; [ exact Hbody | intros stream ]. free.
Qed.

Lemma hop_simple_spends : spends mu any (R + T) (hop_simple env cx).
Proof.
  unfold hop_simple. cbv zeta.
  apply spends_after; [ lia | free | intros current ].
  apply spends_after; [ lia | apply turns_of_hop_spends | intros turns ].
  apply (spends_bind (frugal_generator mu T));
    [ lia | apply select_generator_spends | intros selected Hselected ].
  apply spends_after; [ lia | free | intros _ ].
  apply spends_first; [ now apply consume_spends | intros _ ].
  apply spends_after; [ lia | free | intros generated ].
  destruct (Directive.next_hop (cx_prompt cx) generated)
    as [[action nextPrompt]|]; free.
Qed.

Lemma iteration_spends : spends mu any (R + T) (iteration env cx).
Proof.
  unfold iteration. apply spends_after; [ lia | free | intros _ ].
  unfold hop. apply spends_after; [ lia | free | intros action ].
  destruct action.
  - apply hop_simple_spends.
  - apply (spends_weaken any any T); [ apply hop_search_spends | lia | auto ].
  - apply (spends_weaken any any T); [ apply hop_search_spends | lia | auto ].
  - apply (spends_weaken any any (T + R));
      [ apply hop_think_spends | lia | auto ].
  - apply (spends_weaken any any T); [ apply hop_image_spends | lia | auto ].
  - apply (spends_weaken any any T); [ apply hop_canvas_spends | lia | auto ].
  - apply (spends_weaken any any T); [ apply hop_project_spends | lia | auto ].
  - apply (spends_weaken any any R); [ apply hop_study_spends | lia | auto ].
Qed.

(** The loop spends the budget of a hop for each hop it has left. *)
Lemma agent_loop_spends (fuel : nat) :
  forall w,
    loopCount (vars w) <= MAX_LOOPS ->
    (mu (snd (agent_loop env cx fuel w))
       <= mu w + (R + T) * Z.of_nat (MAX_LOOPS - loopCount (vars w)))%Z.
Proof.
  induction fuel as [|fuel IH]; intros w Hw; [ cbn; nia | ].
  rewrite agent_loop_unfold.
  destruct (Nat.ltb (loopCount (vars w)) MAX_LOOPS) eqn:Hlt.
  - apply Nat.ltb_lt in Hlt.
    pose proof (iteration_counts env cx w) as Hc.
    pose proof (iteration_spends w) as Hs.
    destruct (iteration env cx w) as [[[|r]|e|] w']; cbn [snd];
      [ | destruct Hs as [Hs _]; nia | nia | contradiction ].
    destruct Hs as [Hs _]. specialize (IH w').
    assert (Hle : loopCount (vars w') <= MAX_LOOPS) by lia.
    specialize (IH Hle).
    replace (MAX_LOOPS - loopCount (vars w))
      with (S (MAX_LOOPS - loopCount (vars w'))) by lia.
    rewrite Nat2Z.inj_succ. nia.
  - destruct (result_message_keeps_world cx None w) as [-> _]. nia.
Qed.

End HopBudget.

Lemma agent_turn_spends (env : Env) (input : AgentInput) (model : string)
    (w : World) :
  (mu (snd (agent_turn env input model w))
     <= mu w + (2 * T + (R + T) * Z.of_nat MAX_LOOPS))%Z.
Proof.
  assert (Hturn : spends mu any (T + (T + (R + T) * Z.of_nat MAX_LOOPS))
                    (agent_turn env input model)).
  { unfold agent_turn. cbv zeta.
    apply spends_after; [ lia | free | intros _ ].
    destruct (in_user input) as [u|];
      [ | apply (spends_weaken any any 0); [ free | nia | auto ] ].
    apply (spends_bind any);
      [ lia | apply spends_call; intros ?; discriminate | intros routing _ ].
    apply (spends_bind any);
      [ lia | apply spends_call; intros ?; discriminate | intros memory _ ].
    intros w0. unfold bind at 1, update at 1.
    match goal with
    | |- context [agent_loop env ?cx ?fuel (mkWorld ?c ?t ?s)] =>
        pose proof (agent_loop_spends env cx fuel (mkWorld c t s)) as H;
        pose proof (mu_update (fun _ => s) w0) as Hu
    end.
    cbv beta in Hu. cbn [vars loopCount] in H.
    rewrite Nat.sub_0_r, Hu in H.
    specialize (H (Nat.le_0_l _)).
    match goal with
    | |- context [agent_loop env ?cx ?fuel ?w1] =>
        destruct (agent_loop env cx fuel w1) as [[r|e|] w2]
    end; cbn [snd] in H; [ split; [ lia | exact Logic.I ] | lia | lia ]. }
  specialize (Hturn w).
  destruct (agent_turn env input model w) as [[r|e|] w']; cbn [snd];
    [ destruct Hturn | | ]; lia.
Qed.

Lemma runAutonomousAgent_spends (env : Env) (input : AgentInput) (w : World) :
  (mu (snd (runAutonomousAgent env input w))
     <= mu w + (2 * T + (R + T) * Z.of_nat MAX_LOOPS))%Z.
Proof.
  unfold runAutonomousAgent. fold (initial_model input).
  pose proof (agent_turn_spends env input (initial_model input) w) as H.
  unfold try_catch.
  destruct (agent_turn env input (initial_model input) w) as [[r|e|] w'];
    cbn [snd] in *; try exact H.
  assert (Hh : spends mu any 0
                 (console_error "Error in runAutonomousAgent:" ;;
                  pid <- id_of (in_project input) ;;
                  cid <- id_of (in_chat input) ;;
                  ret (mkResult
                         [mkMessage pid cid "ai"
                            ("An error occurred: " ++ chosen_error_message env e)
                            None None]))) by free.
  specialize (Hh w').
  match goal with
  | |- context [snd (?m w')] => destruct (m w') as [[r| |] w'']
  end; cbn [snd]; [ destruct Hh | | ]; lia.
Qed.

End Budget.

(** The native request with its retries, for a callback that does not
    wait: from attempt [k] on, the waits that are left. *)
Lemma retry_loop_waits (env : Env) (params : NativeParams) (n : nat)
    (notify : string -> M unit) :
  (forall msg, spends waited any 0 (notify msg)) ->
  forall fuel k w,
    k <= n ->
    (waited (snd (retry_loop env params (Z.of_nat n) (Some notify) fuel
                    (Z.of_nat k) w))
       <= waited w + (backoff_budget n - backoff_budget k))%Z.
Proof.
  intros Hfree.
  induction fuel as [|fuel IH]; intros k w Hk;
    pose proof (backoff_budget_mono k n Hk) as Hmono.
  - cbn [retry_loop out_of_fuel snd]. lia.
  - rewrite retry_loop_unfold by (apply Z.leb_le; lia). cbn zeta.
    assert (Hone : forall e : Outcome NativeStream,
              (waited (snd (e, mkWorld (S (calls w))
                                (trace w ++ [EvGenerateContentStream params])
                                (vars w)))
                 <= waited w + (backoff_budget n - backoff_budget k))%Z).
    { intros e. unfold waited. cbn [snd trace].
      rewrite sleep_total_app. cbn [sleep_total]. lia. }
    destruct (generateContentStream env (calls w) params) as [s|error];
      [ apply Hone | ].
    destruct (isQuotaError error && (Z.of_nat k <? Z.of_nat n)%Z)%bool eqn:Hq;
      [ | apply Hone ].
    apply andb_prop in Hq. destruct Hq as [_ Hlt]. apply Z.ltb_lt in Hlt.
    unfold bind at 1, console_warn, emit. cbn [calls trace vars].
    unfold bind at 1.
    match goal with
    | |- context [notify ?msg ?w2] =>
        pose proof (Hfree msg w2) as Hw;
        destruct (notify msg w2) as [[[]|e|] w3]
    end; unfold waited in Hw |- *; cbn [trace snd] in Hw |- *;
      rewrite !sleep_total_app in Hw; cbn [sleep_total] in Hw;
      [ destruct Hw as [Hw _] | lia | lia ].
    unfold bind at 1, sleep, emit. cbn [calls trace vars].
    replace (Z.of_nat k + 1)%Z with (Z.of_nat (S k)) by lia.
    match goal with
    | |- context [retry_loop _ _ _ _ fuel _ ?W] => specialize (IH (S k) W)
    end.
    unfold waited in IH. cbn [trace] in IH.
    rewrite sleep_total_app in IH. cbn [sleep_total] in IH.
    assert (Hstep : (backoff_budget (S k)
                     = backoff_budget k + backoff_delay (Z.of_nat k))%Z).
    { unfold backoff_budget, backoff_delay.
      rewrite Nat2Z.inj_succ, Z.pow_succ_r by lia. lia. }
    specialize (IH ltac:(lia)). lia.
Qed.

(** The same for a callback that does not call: the calls that are left. *)
Lemma retry_loop_calls (env : Env) (params : NativeParams) (n : nat)
    (notify : string -> M unit) :
  (forall msg, spends called any 0 (notify msg)) ->
  forall fuel k w,
    k <= n ->
    (called (snd (retry_loop env params (Z.of_nat n) (Some notify) fuel
                    (Z.of_nat k) w))
       <= called w + Z.of_nat (S n - k))%Z.
Proof.
  intros Hfree.
  induction fuel as [|fuel IH]; intros k w Hk.
  - cbn [retry_loop out_of_fuel snd]. lia.
  - rewrite retry_loop_unfold by (apply Z.leb_le; lia). cbn zeta.
    assert (Hone : forall e : Outcome NativeStream,
              (called (snd (e, mkWorld (S (calls w))
                                (trace w ++ [EvGenerateContentStream params])
                                (vars w)))
                 <= called w + Z.of_nat (S n - k))%Z).
    { intros e. unfold called. cbn [snd calls]. lia. }
    destruct (generateContentStream env (calls w) params) as [s|error];
      [ apply Hone | ].
    destruct (isQuotaError error && (Z.of_nat k <? Z.of_nat n)%Z)%bool eqn:Hq;
      [ | apply Hone ].
    apply andb_prop in Hq. destruct Hq as [_ Hlt]. apply Z.ltb_lt in Hlt.
    unfold bind at 1, console_warn, emit. cbn [calls trace vars].
    unfold bind at 1.
    match goal with
    | |- context [notify ?msg ?w2] =>
        pose proof (Hfree msg w2) as Hw;
        destruct (notify msg w2) as [[[]|e|] w3]
    end; unfold called in Hw |- *; cbn [calls snd] in Hw |- *;
      [ destruct Hw as [Hw _] | lia | lia ].
    unfold bind at 1, sleep, emit. cbn [calls trace vars].
    replace (Z.of_nat k + 1)%Z with (Z.of_nat (S k)) by lia.
    match goal with
    | |- context [retry_loop _ _ _ _ fuel _ ?W] => specialize (IH (S k) W)
    end.
    unfold called in IH. cbn [calls] in IH.
    specialize (IH ltac:(lia)). lia.
Qed.

Lemma spends_outcome {A} (mu : World -> Z) (k : Z) (m : M A) :
  (forall w, (mu (snd (m w)) <= mu w + k)%Z) -> spends mu any k m.
Proof.
  intros H w. specialize (H w).
  destruct (m w) as [[a| |] w']; cbn [snd] in H;
    [ split; [ exact H | exact Logic.I ] | exact H | exact H ].
Qed.

Lemma sleep_total_snoc (t : list Event) (ev : Event) :
  no_sleep ev -> sleep_total (t ++ [ev]) = sleep_total t.
Proof.
  intros H. rewrite sleep_total_app.
  destruct ev; cbn [sleep_total]; try lia. now destruct (H ms).
Qed.

Lemma native_waits (env : Env) (params : NativeParams)
    (notify : string -> M unit) :
  (forall msg, spends waited any 0 (notify msg)) ->
  spends waited any 17000
    (generateContentStreamWithRetry env params 3 (Some notify)).
Proof.
  intros Hfree. apply spends_outcome. intros w. rewrite start_retrying.
  pose proof (retry_loop_waits env (with_default_model params) 3 notify
                Hfree (Z.to_nat (3 + 1) + 1) 0
                (mkWorld (calls w) (trace w ++ model_warning params) (vars w))
                (Nat.le_0_l 3)) as H.
  change (Z.of_nat 3) with 3%Z in H. change (Z.of_nat 0) with 0%Z in H.
  change (backoff_budget 3) with 17000%Z in H.
  change (backoff_budget 0) with 0%Z in H.
  unfold waited in *. cbn [trace] in H. rewrite sleep_total_app in H.
  assert (Hw : sleep_total (model_warning params) = 0%Z)
    by (unfold model_warning; destruct (String.eqb _ _); reflexivity).
  lia.
Qed.

Lemma native_calls (env : Env) (params : NativeParams)
    (notify : string -> M unit) :
  (forall msg, spends called any 0 (notify msg)) ->
  spends called any 4
    (generateContentStreamWithRetry env params 3 (Some notify)).
Proof.
  intros Hfree. apply spends_outcome. intros w. rewrite start_retrying.
  pose proof (retry_loop_calls env (with_default_model params) 3 notify
                Hfree (Z.to_nat (3 + 1) + 1) 0
                (mkWorld (calls w) (trace w ++ model_warning params) (vars w))
                (Nat.le_0_l 3)) as H.
  change (Z.of_nat 3) with 3%Z in H. change (Z.of_nat 0) with 0%Z in H.
  change (Z.of_nat (4 - 0)) with 4%Z in H.
  unfold called in *. cbn [calls] in H. exact H.
Qed.

(** X21.  A turn has a budget, whatever the input and whatever the
    collaborators answer: it waits at most 102 seconds in the back-off of
    rate limits (six hops of 17 seconds), and it calls its collaborators at
    most 32 times (the router, the memory, and five calls in each of six
    hops). *)
Theorem turn_budget (env : Env) (input : AgentInput) (w : World) :
  (sleep_total (trace (snd (runAutonomousAgent env input w)))
     <= sleep_total (trace w) + 102000)%Z /\
  calls (snd (runAutonomousAgent env input w)) <= calls w + 32.
Proof.
  split.
  - change (sleep_total (trace (snd (runAutonomousAgent env input w))))
      with (waited (snd (runAutonomousAgent env input w))).
    change (sleep_total (trace w)) with (waited w).
    change 102000%Z with (2 * 0 + (17000 + 0) * Z.of_nat MAX_LOOPS)%Z.
    apply runAutonomousAgent_spends; try lia; unfold waited; cbn [trace].
    + intros ev w0 H. rewrite (sleep_total_snoc _ _ H). lia.
    + intros ev w0 H. rewrite (sleep_total_snoc _ _ H). lia.
    + reflexivity.
    + apply native_waits.
  - assert (H : (called (snd (runAutonomousAgent env input w))
                   <= called w + (2 * 1 + (4 + 1) * Z.of_nat MAX_LOOPS))%Z).
    { apply runAutonomousAgent_spends; try lia; unfold called; cbn [calls].
      - intros ev w0 _. lia.
      - intros ev w0 _. lia.
      - reflexivity.
      - apply native_calls. }
    unfold called, MAX_LOOPS in H. lia.
Qed.

(** ** The memory layers *)







Lemma getContext_from_run (query : string -> JsResult Memory.Answer)
    (layers : list string) :
  Forall (resolves query) layers ->
  forall acc,
    exists context,
      Memory.getContext_from query layers acc = Ok context /\
      (forall layer answer,
         In layer layers -> query layer = Ok answer ->
         Memory.lookup layer context = Some (Memory.getAll answer)) /\
      (forall layer,
         ~ In layer layers ->
         Memory.lookup layer context = Memory.lookup layer acc).
Proof.
  induction 1 as [|l rest [a Ha] _ IH]; intros acc.
  - exists acc. split; [ reflexivity | split ];
      [ intros layer answer [] | reflexivity ].
  - destruct (IH (Memory.assign l (Memory.getAll a) acc))
      as [context [Hrun [Hin Hout]]].
    exists context. cbn [Memory.getContext_from]. rewrite Ha.
    split; [ exact Hrun | split ].
    + intros layer answer Hlayer Hanswer.
      destruct (in_dec string_dec layer rest) as [Hrest|Hrest];
        [ now apply Hin | ].
      destruct Hlayer as [<-|Hlayer]; [ | contradiction ].
      rewrite (Hout l Hrest). cbn [Memory.assign Memory.lookup].
      rewrite String.eqb_refl. congruence.
    + intros layer Hlayer. rewrite Hout by (intros Hrest; apply Hlayer; now right).
      cbn [Memory.assign Memory.lookup].
      destruct (String.eqb layer l) eqn:Heq; [ | reflexivity ].
      apply String.eqb_eq in Heq. destruct Hlayer. now left.
Qed.

Lemma getContext_from_fails (query : string -> JsResult Memory.Answer)
    (asked : list string) (layer : string) (rest : list string) (e : JsError) :
  Forall (resolves query) asked ->
  query layer = Err e ->
  forall acc,
    Memory.getContext_from query (asked ++ layer :: rest) acc = Err e.
Proof.
  intros Hasked Hlayer.
  induction Hasked as [|l asked [a Ha] _ IH]; intros acc;
    cbn [app Memory.getContext_from].
  - now rewrite Hlayer.
  - rewrite Ha. apply IH.
Qed.

(** X23.  [getContext] asks the layers one after the other.  When every
    query resolves, the context has the record of each layer that was asked
    for, under the name of the layer, and nothing else; a layer whose query
    resolved to an error has the empty record.  When a query rejects, the
    context is not built: the rejection is the result. *)
Theorem memory_context_layers (query : string -> JsResult Memory.Answer)
    (layers : list string) :
  (Forall (resolves query) layers ->
   exists context,
     Memory.getContext query layers = Ok context /\
     (forall layer answer,
        In layer layers -> query layer = Ok answer ->
        Memory.lookup layer context = Some (Memory.getAll answer) /\
        (Memory.error answer = true ->
         Memory.lookup layer context = Some [])) /\
     (forall layer,
        ~ In layer layers -> Memory.lookup layer context = None)) /\
  (forall asked layer rest e,
     layers = (asked ++ layer :: rest)%list ->
     Forall (resolves query) asked ->
     query layer = Err e ->
     Memory.getContext query layers = Err e).
Proof.
  split.
  - intros Hall.
    destruct (getContext_from_run query layers Hall []) as [context [Hrun [Hin Hout]]].
    exists context. split; [ exact Hrun | split ].
    + intros layer answer Hlayer Hanswer.
      rewrite (Hin layer answer Hlayer Hanswer). split; [ reflexivity | ].
      intros Herror. unfold Memory.getAll. now rewrite Herror.
    + intros layer Hlayer. now rewrite (Hout layer Hlayer).
  - intros asked layer rest e -> Hasked Hlayer.
    now apply getContext_from_fails.
Qed.

Lemma memory_context_layers_witness :
  exists context,
    Memory.getContext Sample.one_layer ["preferences"; "interests"] = Ok context /\
    Memory.lookup "preferences" context
      = Some (Memory.getAll Sample.preferences) /\
    Memory.lookup "interests" context = Some [] /\
    Memory.lookup "codebase" context = None.
Proof.
  destruct (memory_context_layers Sample.one_layer ["preferences"; "interests"])
    as [Hall _].
  destruct Hall as [context [Hrun [Hin Hout]]].
  { repeat constructor; eexists; reflexivity. }
  exists context. split; [ exact Hrun | split; [ | split ] ].
  - apply (Hin "preferences" Sample.preferences); [ now left | reflexivity ].
  - apply (Hin "interests" (Memory.mkAnswer None true));
      [ right; now left | reflexivity | reflexivity ].
  - apply Hout. intros [H|[H|[]]]; discriminate.
Defined.

(** ** The image service *)

Lemma handled_is_friendly (error : Gemini.Caught) (context : string) :
  exists m,
    Gemini.handleGeminiError error context = new_Error m /\
    (m = Gemini.connection_failed \/ m = Gemini.key_not_valid \/
     m = Gemini.quota_exceeded \/
     (exists details,
        Gemini.errorMessage error = Some details /\
        m = "An error occurred in " ++ Gemini.toLowerCase context
            ++ ". Details: " ++ details) \/
     (Gemini.errorMessage error = None /\
      TypeError_read "includes" = new_Error m)).
Proof.
  unfold Gemini.handleGeminiError.
  destruct (Gemini.errorMessage error) as [details|].
  - destruct (_ || _)%bool; [ eexists; split; [ reflexivity | now left ] | ].
    destruct (JsString.includes "API key not valid" details);
      [ eexists; split; [ reflexivity | right; now left ] | ].
    destruct (_ || _)%bool;
      [ eexists; split; [ reflexivity | right; right; now left ] | ].
    eexists. split; [ reflexivity | ]. right. right. right. left.
    now exists details.
  - eexists. split; [ reflexivity | ]. right. right. right. right.
    split; reflexivity.
Qed.

(** X24.  Whatever the SDK does, [generateImage] rejects only with an error
    of [handleGeminiError]: an [Error] whose message is one of the three
    notices (connection, key, quota), or the generic sentence with the
    details, or, when the caught value has no message to search, the
    TypeError of that search.  So the note the IMAGE branch writes always
    names the message, and the five failures the service raises itself are
    reported with the generic sentence. *)
Theorem image_errors_are_friendly (ai : Gemini.Models) (prompt : string)
    (model : option string) (e : JsError) :
  Gemini.generateImage ai prompt model = Err e ->
  (exists m,
     e = new_Error m /\
     image_failure_note e =
       JsString.nl ++ JsString.nl ++ "(Image generation failed: " ++ m ++ ")" /\
     (m = Gemini.connection_failed \/ m = Gemini.key_not_valid \/
      m = Gemini.quota_exceeded \/
      (exists details,
         m = "An error occurred in error generating image. Details: "
             ++ details) \/
      TypeError_read "includes" = new_Error m)) /\
  Forall
    (fun failure =>
       Gemini.handleGeminiError (Gemini.own (new_Error failure))
         "Error generating image" =
       new_Error ("An error occurred in error generating image. Details: "
                  ++ failure))
    image_failures.
Proof.
  intros Hfail. split; [ | repeat constructor ].
  assert (Hsecond : forall flag,
            second_attempt ai prompt flag = Err e ->
            exists error,
              e = Gemini.handleGeminiError error "Error generating image").
  { intros flag H. unfold second_attempt in H.
    destruct (Gemini.nano_banana ai prompt) as [d|error]; [ discriminate | ].
    injection H as <-. now exists error. }
  assert (Hhandled : exists error,
            e = Gemini.handleGeminiError error "Error generating image").
  { unfold Gemini.generateImage in Hfail. cbv zeta in Hfail.
    fold (second_attempt ai prompt true) in Hfail.
    fold (second_attempt ai prompt false) in Hfail.
    destruct (Gemini.isImagen _); [ | now apply (Hsecond false) ].
    destruct (Gemini.imagen ai prompt); [ discriminate | ].
    now apply (Hsecond true). }
  destruct Hhandled as [error ->].
  destruct (handled_is_friendly error "Error generating image")
    as [m [-> Hm]].
  exists m. split; [ reflexivity | split; [ reflexivity | ] ].
  destruct Hm as [H|[H|[H|[[details [_ H]]|[_ H]]]]]; auto.
  right. right. right. left. now exists details.
Qed.

(** X25.  The premium model is an attempt, not a promise.  For a model that
    is not one of the three Imagen names its endpoint is never asked; for an
    Imagen name, a rejection of that endpoint, whatever it carries, is not
    reported: the second model is asked and its outcome is the outcome.  A
    result that says [fallbackOccurred] comes from an Imagen request whose
    first attempt gave nothing, and its image is the second model's. *)
Theorem imagen_falls_back (ai : Gemini.Models) (prompt : string)
    (model : option string) :
  (Gemini.isImagen (image_model model) = false ->
   forall ai',
     Gemini.generateContent ai' = Gemini.generateContent ai ->
     Gemini.generateImage ai' prompt model = Gemini.generateImage ai prompt model) /\
  (Gemini.isImagen (image_model model) = true ->
   forall c,
     Gemini.generateImages ai prompt = Gemini.Rejected c ->
     Gemini.generateImage ai prompt model = second_attempt ai prompt true) /\
  (forall img,
     Gemini.generateImage ai prompt model = Ok (img, true) ->
     Gemini.isImagen (image_model model) = true /\
     Gemini.imagen ai prompt = None /\
     exists d, img = Some d /\ d <> "" /\
               Gemini.nano_banana ai prompt = Gemini.Resolved d).
Proof.
  assert (Hdata : forall found d,
            Gemini.first_data found = Some d -> d <> "").
  { induction found as [|part rest IH]; intros d H; [ discriminate | ].
    cbn [Gemini.first_data] in H.
    destruct (Gemini.inlineData part) as [inline|]; [ | now apply IH ].
    destruct (Gemini.data inline) as [d'|]; [ | now apply IH ].
    destruct (String.eqb d' "") eqn:Hd; [ now apply IH | ].
    injection H as <-. now apply String.eqb_neq. }
  assert (Hnano : forall d,
            Gemini.nano_banana ai prompt = Gemini.Resolved d -> d <> "").
  { intros d H. unfold Gemini.nano_banana in H.
    destruct (Gemini.generateContent ai prompt) as [[response|]|c];
      try discriminate.
    destruct (Gemini.candidates response) as [[|[[[content|]]|] others]|];
      try discriminate.
    destruct (Gemini.parts content) as [[|part rest]|]; try discriminate.
    destruct (Gemini.first_data (part :: rest)) as [d'|] eqn:Hd;
      [ | discriminate ].
    injection H as <-. now apply (Hdata (part :: rest)). }
  unfold Gemini.generateImage. cbv zeta. fold (image_model model).
  fold (second_attempt ai prompt true). fold (second_attempt ai prompt false).
  split; [ | split ].
  - intros Hmodel ai' Hsame. rewrite Hmodel.
    unfold second_attempt, Gemini.nano_banana. now rewrite Hsame.
  - intros Hmodel c Hrejected. rewrite Hmodel.
    unfold Gemini.imagen. now rewrite Hrejected.
  - intros img H.
    assert (Hflag : forall flag,
              second_attempt ai prompt flag = Ok (img, true) ->
              flag = true /\
              exists d, img = Some d /\ d <> "" /\
                        Gemini.nano_banana ai prompt = Gemini.Resolved d).
    { intros flag Hs. unfold second_attempt in Hs.
      destruct (Gemini.nano_banana ai prompt) as [d|error] eqn:Hd;
        [ | discriminate ].
      injection Hs as <- ->. split; [ reflexivity | ].
      exists d. repeat split. now apply Hnano. }
    destruct (Gemini.isImagen (image_model model)).
    + destruct (Gemini.imagen ai prompt) as [b|]; [ discriminate | ].
      destruct (Hflag true H) as [_ Hd]. auto.
    + destruct (Hflag false H) as [Hf _]. discriminate.
Qed.

Lemma image_errors_are_friendly_witness :
  exists m,
    new_Error ("An error occurred in error generating image. Details: "
               ++ "The AI service could not generate an image for this prompt. It may have been flagged by safety filters.")
      = new_Error m /\
    image_failure_note (new_Error m) =
      JsString.nl ++ JsString.nl ++ "(Image generation failed: " ++ m ++ ")".
Proof.
  destruct (image_errors_are_friendly Sample.blocking "a red bicycle"
              (Some "imagen_4") _ eq_refl) as [[m [Hm [Hnote _]]] _].
  exists m. split; [ exact Hm | ]. now rewrite <- Hm.
Defined.

Lemma imagen_falls_back_witness :
  Gemini.generateImage Sample.busy_premium "a red bicycle" (Some "imagen_4")
    = Ok (Some "iVBORw0KGgo=", true) /\
  Gemini.isImagen (image_model (Some "imagen_4")) = true.
Proof.
  destruct (imagen_falls_back Sample.busy_premium "a red bicycle"
              (Some "imagen_4")) as [_ [Hfalls _]].
  split; [ | reflexivity ].
  rewrite (Hfalls eq_refl Sample.quota_rejection eq_refl). reflexivity.
Defined.
